(** * GammaChart: the pixel-map builders, the gamma levels and the chart layout

    A shallow embedding of [main.py].  The program builds XPM-like pixel maps
    (lists of text lines), turns them into Tk photo images, computes five
    gamma-corrected levels with Python's float arithmetic, and places tiles
    on a canvas.

    Python values are modelled as follows: [str] as [string], [int] as [Z]
    (as [nat] where the program only has sizes and indices), [float] as the
    kernel's binary64 [float], lists as [list], the two dictionaries as
    association lists in insertion order, exceptions as the [Err] case of
    [result].  The only global that the program mutates is tkinter's image
    counter ([Image._last_id]); it is threaded explicitly. *)

From Stdlib Require Import ZArith List String Ascii Bool Lia Floats.
From Stdlib Require Import DecimalString HexadecimalString.
Import ListNotations.

Set Warnings "-inexact-float".

Local Open Scope string_scope.
Local Open Scope Z_scope.

(** ** Exceptions and the two monads *)

Inductive exn : Type :=
| ZeroDivisionError
| ValueError
| OverflowError
| TypeError
| IndexError
| KeyError.

Inductive result (A : Type) : Type :=
| Ok (a : A)
| Err (e : exn).

Arguments Ok {A} a.
Arguments Err {A} e.

Definition rbind {A B : Type} (r : result A) (k : A -> result B) : result B :=
  match r with
  | Ok a => k a
  | Err e => Err e
  end.

(** tkinter's interpreter-wide state that image construction touches:
    [tkinter.Image._last_id], from which a fresh image gets the name
    [pyimage<n>]. *)
Record tk_state : Type := { last_id : nat }.

Definition Tk (A : Type) : Type := tk_state -> result (A * tk_state).

Definition ret {A : Type} (a : A) : Tk A := fun s => Ok (a, s).

Definition bind {A B : Type} (m : Tk A) (k : A -> Tk B) : Tk B :=
  fun s => match m s with
           | Ok (a, s') => k a s'
           | Err e => Err e
           end.

Definition lift {A : Type} (r : result A) : Tk A :=
  fun s => match r with
           | Ok a => Ok (a, s)
           | Err e => Err e
           end.

Declare Scope tk_scope.
Delimit Scope tk_scope with tk.
Notation "x <- m ;; k" := (bind m (fun x => k))
  (at level 61, m at next level, right associativity) : tk_scope.
Notation "x <-? r ;; k" := (rbind r (fun x => k))
  (at level 61, r at next level, right associativity).

(** ** Python strings *)

(** [str.isspace] on the code points below 256. *)
Definition is_space (c : ascii) : bool :=
  let n := nat_of_ascii c in
  ((9 <=? n) && (n <=? 13) || (28 <=? n) && (n <=? 32)
   || (n =? 133) || (n =? 160))%nat.

Fixpoint lstrip (s : string) : string :=
  match s with
  | String c s' => if is_space c then lstrip s' else s
  | EmptyString => s
  end.

Fixpoint rstrip (s : string) : string :=
  match s with
  | EmptyString => EmptyString
  | String c s' =>
      match rstrip s' with
      | EmptyString => if is_space c then EmptyString else String c EmptyString
      | t => String c t
      end
  end.

(** [s.strip()] *)
Definition strip (s : string) : string := rstrip (lstrip s).

(** [s.split()] with no separator: the maximal runs of non-blank characters.
    [word] is the run being read, or [None] between runs. *)
Fixpoint split_from (word : option string) (s : string) : list string :=
  match s with
  | EmptyString => match word with Some w => [w] | None => [] end
  | String c s' =>
      if is_space c
      then match word with
           | Some w => w :: split_from None s'
           | None => split_from None s'
           end
      else match word with
           | Some w => split_from (Some (w ++ String c EmptyString)) s'
           | None => split_from (Some (String c EmptyString)) s'
           end
  end.

Definition split (s : string) : list string := split_from None s.

(** [s * n] *)
Fixpoint str_mul (s : string) (n : nat) : string :=
  match n with
  | O => EmptyString
  | S n' => s ++ str_mul s n'
  end.

(** [s[i:j]] for [0 <= i <= j]; a slice never raises, it is cut at the end of
    the string. *)
Definition slice (s : string) (i j : nat) : string := substring i (j - i) s.

(** [s[0]] *)
Definition first_char (s : string) : result string :=
  match s with
  | String c _ => Ok (String c EmptyString)
  | EmptyString => Err IndexError
  end.

(** [xs[-1]] *)
Definition last_item (xs : list string) : result string :=
  match rev xs with
  | x :: _ => Ok x
  | [] => Err IndexError
  end.

(** [xs[i]] for [i >= 0] *)
Definition item {A : Type} (xs : list A) (i : nat) : result A :=
  match nth_error xs i with
  | Some x => Ok x
  | None => Err IndexError
  end.

(** ** Dictionaries, in insertion order *)

Definition dict (V : Type) : Type := list (string * V).

Fixpoint dict_get {V : Type} (d : dict V) (k : string) : option V :=
  match d with
  | [] => None
  | (k', v) :: d' => if String.eqb k k' then Some v else dict_get d' k
  end.

(** [d[k] = v]: an existing key keeps its place. *)
Fixpoint dict_set {V : Type} (d : dict V) (k : string) (v : V) : dict V :=
  match d with
  | [] => [(k, v)]
  | (k', v') :: d' =>
      if String.eqb k k' then (k', v) :: d' else (k', v') :: dict_set d' k v
  end.

(** [d[k]] *)
Definition dict_item {V : Type} (d : dict V) (k : string) : result V :=
  match dict_get d k with
  | Some v => Ok v
  | None => Err KeyError
  end.

(** [k in d] *)
Definition dict_mem {V : Type} (d : dict V) (k : string) : bool :=
  match dict_get d k with
  | Some _ => true
  | None => false
  end.

(** [f"{n}"] for a non-negative [int]. *)
Definition str_of_nat (n : nat) : string := DecimalString.NilZero.string_of_uint (Nat.to_uint n).

(** [int(s)] on a token of [split], for the tokens this program can build:
    decimal digits.  (Python also takes a sign, underscores and non-ASCII
    digits; the model answers [ValueError] on them.) *)
Definition nat_of_str (s : string) : result nat :=
  match DecimalString.NilZero.uint_of_string s with
  | Some d => Ok (Nat.of_uint d)
  | None => Err ValueError
  end.

(** ** class Xpm *)

(** [Xpm.size] *)
Definition Xpm_size : nat := 16.

(** A photo image as Tk sees it: its name, the size it was created with and
    the [put] calls made on it, in order, each with its data string and its
    [to] coordinate. *)
Record PhotoImage : Type := {
  image_name : nat;
  image_width : nat;
  image_height : nat;
  image_puts : list (string * (nat * nat))
}.

(** [tk.PhotoImage(master=parent, width=width, height=height)]: tkinter
    increments [Image._last_id] and names the image after it. *)
Definition new_PhotoImage (width height : nat) : Tk PhotoImage :=
  fun s =>
    let n := S (last_id s) in
    Ok ({| image_name := n; image_width := width; image_height := height;
           image_puts := [] |},
        {| last_id := n |}).

(** [image.put(data, to=(x, y))]: the call is recorded with its data.  What
    Tk does with the data is outside the model: Tk raises [TclError] on a
    colour it cannot read and on a row without colours.  The program only
    passes rows of 32 colours [#rrggbb]; the properties of other pixel maps
    are stated for colours of that form and a positive width. *)
Definition put (image : PhotoImage) (data : string) (to : nat * nat) : PhotoImage :=
  {| image_name := image_name image;
     image_width := image_width image;
     image_height := image_height image;
     image_puts := image_puts image ++ [(data, to)] |}.

(** [width, height, num_colors, chars_per_pixel = map(int, header)] *)
Definition parse_header (line : string) : result (nat * nat * nat * nat) :=
  match split (strip line) with
  | [a; b; c; d] =>
      width <-? nat_of_str a ;;
      height <-? nat_of_str b ;;
      num_colors <-? nat_of_str c ;;
      chars_per_pixel <-? nat_of_str d ;;
      Ok (width, height, num_colors, chars_per_pixel)
  | _ => Err ValueError
  end.

(** The loop [for i in range(num_colors)] that fills [color_map]. *)
Fixpoint color_map_loop (xpm_data : list string) (range : list nat)
    (color_map : dict string) : result (dict string) :=
  match range with
  | [] => Ok color_map
  | i :: range' =>
      line <-? item xpm_data (i + 1) ;;
      char <-? first_char line ;;
      color <-? last_item (split (strip line)) ;;
      color_map_loop xpm_data range' (dict_set color_map char color)
  end.

(** The loop [for x in range(width)] that builds [row_str]. *)
Fixpoint row_loop (color_map : dict string) (pixel_row : string)
    (chars_per_pixel : nat) (range : list nat) (row_str : string) : result string :=
  match range with
  | [] => Ok row_str
  | x :: range' =>
      let char := slice pixel_row (x * chars_per_pixel) ((x + 1) * chars_per_pixel) in
      color <-? dict_item color_map char ;;
      row_loop color_map pixel_row chars_per_pixel range' (row_str ++ color ++ " ")
  end.

(** The loop [for y in range(height)] that puts one row after the other. *)
Fixpoint image_loop (xpm_data : list string) (color_map : dict string)
    (width num_colors chars_per_pixel : nat) (range : list nat)
    (image : PhotoImage) : result PhotoImage :=
  match range with
  | [] => Ok image
  | y :: range' =>
      pixel_row <-? item xpm_data (y + 1 + num_colors) ;;
      row_str <-? row_loop color_map pixel_row chars_per_pixel (seq 0 width) "" ;;
      image_loop xpm_data color_map width num_colors chars_per_pixel range'
        (put image ("{" ++ strip row_str ++ "}") (0%nat, y))
  end.

(** [Xpm.create_photo_image(parent, xpm_data)] *)
Definition create_photo_image (xpm_data : list string) : Tk PhotoImage :=
  (header <- lift (item xpm_data 0) ;;
   hd <- lift (parse_header header) ;;
   let '(width, height, num_colors, chars_per_pixel) := hd in
   color_map <- lift (color_map_loop xpm_data (seq 0 num_colors) []) ;;
   image <- new_PhotoImage width height ;;
   lift (image_loop xpm_data color_map width num_colors chars_per_pixel
           (seq 0 height) image))%tk.

(** [SingleColorXpm(red, green, blue).data] *)
Definition SingleColorXpm (red green blue : string) : list string :=
  [ str_of_nat (Xpm_size * 2) ++ " " ++ str_of_nat (Xpm_size * 2) ++ " 1 1";
    "  c #" ++ red ++ green ++ blue ]
  ++ repeat (str_mul " " (Xpm_size * 2)) (Xpm_size * 2).

(** [AlternateXpm(red1, green1, blue1, red2, green2, blue2).data] *)
Definition AlternateXpm (red1 green1 blue1 red2 green2 blue2 : string) : list string :=
  [ str_of_nat (Xpm_size * 2) ++ " " ++ str_of_nat (Xpm_size * 2) ++ " 2 1";
    "  c #" ++ red1 ++ green1 ++ blue1;
    ". c #" ++ red2 ++ green2 ++ blue2 ]
  ++ flat_map (fun _ => [str_mul ". " Xpm_size; str_mul " ." Xpm_size])
       (seq 0 Xpm_size).

(** ** Python floats *)

(** The conversion of an [int] operand to [float] (round to nearest even;
    exact for the small constants of this program). *)
Definition float_of_int (n : Z) : float :=
  SF2Prim (binary_normalize prec emax n 0 false).

(** [a / b] on floats: Python raises where IEEE 754 would give an infinity or
    a NaN for a zero divisor. *)
Definition py_truediv (a b : float) : result float :=
  if (b =? 0)%float then Err ZeroDivisionError else Ok (a / b)%float.

(** [floor(w) == w] for a finite [w]. *)
Definition is_integer (w : float) : bool :=
  match Prim2SF w with
  | S754_zero _ => true
  | S754_finite _ m e =>
      (0 <=? e) || (Z.pos m mod 2 ^ (- e) =? 0)
  | _ => false
  end.

(** CPython's [DOUBLE_IS_ODD_INTEGER]: [fmod(fabs(w), 2.0) == 1.0]. *)
Definition is_odd_integer (w : float) : bool :=
  match Prim2SF w with
  | S754_finite _ m e =>
      if 0 <? e then false
      else (Z.pos m mod 2 ^ (- e) =? 0) && Z.odd (Z.pos m / 2 ^ (- e))
  | _ => false
  end.

(** [round(f)] with one argument: the nearest [int], ties to the even one.
    [m * 2 ^ e] is the exact value of a finite float. *)
Definition round_half_even (m e : Z) : Z :=
  if 0 <=? e then m * 2 ^ e
  else
    let d := 2 ^ (- e) in
    let q := m / d in
    match (2 * (m mod d) ?= d) with
    | Lt => q
    | Gt => q + 1
    | Eq => if Z.even q then q else q + 1
    end.

Definition py_round (f : float) : result Z :=
  match Prim2SF f with
  | S754_nan => Err ValueError
  | S754_infinity _ => Err OverflowError
  | S754_zero _ => Ok 0
  | S754_finite s m e => Ok (cond_Zopp s (round_half_even (Z.pos m) e))
  end.

(** [f"{n:02x}"]: lowercase hexadecimal, zero-filled after the sign to a
    width of two. *)
Definition format_02x (n : Z) : string :=
  let digits := HexadecimalString.NilZero.string_of_int (Z.to_hex_int (Z.abs n)) in
  if n <? 0 then "-" ++ digits
  else if (String.length digits <? 2)%nat then "0" ++ digits
  else digits.

Section Chart.

(** The C library's [pow], which CPython calls once the special cases are
    sorted out.  It is not part of the program: the model takes it as a
    parameter.  Of its result CPython checks whether it is infinite, which
    is modelled, and the C library's error indicator, which is not. *)
Variable libm_pow : float -> float -> float.

(** [pow(v, w)] on two floats, after CPython's [float_pow].  A negative base
    with a fractional exponent gives a complex number, on which the [round]
    of the caller raises [TypeError]; the model reports that error here. *)
Definition py_pow (v w : float) : result float :=
  if (w =? 0)%float then Ok 1%float
  else if is_nan v then Ok v
  else if is_nan w then Ok (if (v =? 1)%float then 1%float else w)
  else if is_infinity w then
    let av := abs v in
    if (av =? 1)%float then Ok 1%float
    else if Bool.eqb (0 <? w)%float (1 <? av)%float then Ok (abs w)
    else Ok 0%float
  else if is_infinity v then
    let odd := is_odd_integer w in
    if (0 <? w)%float then Ok (if odd then v else abs v)
    else Ok (if odd then (if get_sign v then neg_zero else zero) else zero)
  else if (v =? 0)%float then
    if (w <? 0)%float then Err ZeroDivisionError
    else Ok (if is_odd_integer w then v else zero)
  else
    let fractional := (v <? 0)%float && negb (is_integer w) in
    if fractional then Err TypeError
    else
      let negate_result := (v <? 0)%float && is_odd_integer w in
      let av := if (v <? 0)%float then (- v)%float else v in
      if (av =? 1)%float then Ok (if negate_result then (- 1)%float else 1%float)
      else
        let ix := libm_pow av w in
        if is_infinity ix then Err OverflowError
        else Ok (if negate_result then (- ix)%float else ix).

(** [int(round(pow(n / 255.0, 1.0 / gamma) * 255))], an [int] already
    before [int] is applied. *)
Definition corrected (n : Z) (gamma : float) : result Z :=
  v <-? py_truediv (float_of_int n) 255 ;;
  w <-? py_truediv 1 gamma ;;
  p <-? py_pow v w ;;
  py_round (p * 255)%float.

(** [f"{int(round(pow(n / 255.0, 1.0 / gamma) * 255)):02x}"] *)
Definition level (n : Z) (gamma : float) : result string :=
  c <-? corrected n gamma ;;
  Ok (format_02x c).

(** The five levels [v000], [v025], [v050], [v075], [v100], computed in this
    order. *)
Record levels : Type := {
  v000 : string; v025 : string; v050 : string; v075 : string; v100 : string
}.

Definition chart_levels (gamma : float) : result levels :=
  a <-? level 0 gamma ;;
  b <-? level 63 gamma ;;
  c <-? level 127 gamma ;;
  d <-? level 191 gamma ;;
  e <-? level 255 gamma ;;
  Ok {| v000 := a; v025 := b; v050 := c; v075 := d; v100 := e |}.

End Chart.

(** The keys of the [images] dictionary with the pixel map each image is
    created from, in the order of the dictionary display. *)
Definition image_data (l : levels) : list (string * list string) :=
  let v000 := v000 l in
  let v025 := v025 l in
  let v050 := v050 l in
  let v075 := v075 l in
  let v100 := v100 l in
  [
    ("all_a025", AlternateXpm v000 v000 v000 v050 v050 v050);
    ("all_a050", AlternateXpm v000 v000 v000 v100 v100 v100);
    ("all_a075", AlternateXpm v050 v050 v050 v100 v100 v100);
    ("all_s025", SingleColorXpm v025 v025 v025);
    ("all_s050", SingleColorXpm v050 v050 v050);
    ("all_s075", SingleColorXpm v075 v075 v075);
    ("red_a025", AlternateXpm v000 v000 v000 v050 v000 v000);
    ("red_a050", AlternateXpm v000 v000 v000 v100 v000 v000);
    ("red_a075", AlternateXpm v050 v000 v000 v100 v000 v000);
    ("red_s025", SingleColorXpm v025 v000 v000);
    ("red_s050", SingleColorXpm v050 v000 v000);
    ("red_s075", SingleColorXpm v075 v000 v000);
    ("green_a025", AlternateXpm v000 v000 v000 v000 v050 v000);
    ("green_a050", AlternateXpm v000 v000 v000 v000 v100 v000);
    ("green_a075", AlternateXpm v000 v050 v000 v000 v100 v000);
    ("green_s025", SingleColorXpm v000 v025 v000);
    ("green_s050", SingleColorXpm v000 v050 v000);
    ("green_s075", SingleColorXpm v000 v075 v000);
    ("blue_a025", AlternateXpm v000 v000 v000 v000 v000 v050);
    ("blue_a050", AlternateXpm v000 v000 v000 v000 v000 v100);
    ("blue_a075", AlternateXpm v000 v000 v050 v000 v000 v100);
    ("blue_s025", SingleColorXpm v000 v000 v025);
    ("blue_s050", SingleColorXpm v000 v000 v050);
    ("blue_s075", SingleColorXpm v000 v000 v075)
  ].

(** The dictionary display: the images are created in order, each entry is
    stored under its key. *)
Fixpoint create_images (entries : list (string * list string))
    (images : dict PhotoImage) : Tk (dict PhotoImage) :=
  match entries with
  | [] => ret images
  | (key, xpm_data) :: entries' =>
      (image <- create_photo_image xpm_data ;;
       create_images entries' (dict_set images key image))%tk
  end.

(** [layout]: the loop unpacks each entry as
    [color_name, row_offset, col_offset]. *)
Definition layout : list (string * nat * nat) :=
  [("all", 0, 0); ("red", 3, 0); ("green", 6, 0); ("blue", 9, 0)]%nat.

(** [patterns]: the loop unpacks each entry as [pattern_name, col, row]. *)
Definition patterns : list (string * nat * nat) :=
  [
    ("a025", 0, 0); ("s025", 1, 0); ("a025", 2, 0); ("s025", 3, 0);
    ("a050", 4, 0); ("s050", 5, 0); ("a050", 6, 0); ("s050", 7, 0);
    ("a075", 8, 0); ("s075", 9, 0); ("a075", 10, 0); ("s075", 11, 0);
    ("s025", 0, 1); ("a025", 1, 1); ("s025", 2, 1); ("a025", 3, 1);
    ("s050", 4, 1); ("a050", 5, 1); ("s050", 6, 1); ("a050", 7, 1);
    ("s075", 8, 1); ("a075", 9, 1); ("s075", 10, 1); ("a075", 11, 1);
    ("a025", 0, 2); ("s025", 1, 2); ("a025", 2, 2); ("s025", 3, 2);
    ("a050", 4, 2); ("s050", 5, 2); ("a050", 6, 2); ("s050", 7, 2);
    ("a075", 8, 2); ("s075", 9, 2); ("a075", 10, 2); ("s075", 11, 2)
  ]%nat.

(** A canvas item made by [create_image(x, y, image=..., anchor=...)]. *)
Record canvas_item : Type := {
  item_x : nat;
  item_y : nat;
  item_image : PhotoImage;
  item_anchor : string
}.

(** The body of the inner placement loop; [items] is the canvas's display
    list.  The test [img_key in images] and the lookup [images[img_key]] are
    one [dict_get]. *)
Definition place_pattern (images : dict PhotoImage) (xpm_side : nat)
    (color_name : string) (row_offset col_offset : nat)
    (items : list canvas_item) (pattern : string * nat * nat) : list canvas_item :=
  let '(pattern_name, col, row) := pattern in
  let img_key := color_name ++ "_" ++ pattern_name in
  match dict_get images img_key with
  | Some image =>
      let x := ((col + col_offset) * xpm_side)%nat in
      let y := ((row + row_offset) * xpm_side)%nat in
      items ++ [{| item_x := x; item_y := y; item_image := image;
                   item_anchor := "nw" |}]
  | None => items
  end.

(** The body of the outer placement loop. *)
Definition place_color (images : dict PhotoImage) (xpm_side : nat)
    (items : list canvas_item) (entry : string * nat * nat) : list canvas_item :=
  let '(color_name, row_offset, col_offset) := entry in
  fold_left (place_pattern images xpm_side color_name row_offset col_offset)
    patterns items.

(** A [GammaChart] widget once [__init__] has returned: the canvas size,
    the retained images [self._images] and the canvas's display list. *)
Record chart : Type := {
  chart_width : nat;
  chart_height : nat;
  _images : list PhotoImage;
  chart_items : list canvas_item
}.

(** The first half of [GammaChart.__init__]: the levels and the [images]
    dictionary. *)
Definition chart_images (libm_pow : float -> float -> float) (gamma : float)
    : Tk (dict PhotoImage) :=
  (l <- lift (chart_levels libm_pow gamma) ;;
   create_images (image_data l) [])%tk.

(** [GammaChart(parent, gamma)] *)
Definition GammaChart (libm_pow : float -> float -> float) (gamma : float) : Tk chart :=
  let xpm_side := (Xpm_size * 2)%nat in
  let image_side := (xpm_side * 12)%nat in
  (images <- chart_images libm_pow gamma ;;
   let items := fold_left (place_color images xpm_side) layout [] in
   ret {| chart_width := image_side; chart_height := image_side;
          _images := map snd images; chart_items := items |})%tk.

(** The gamma values of the four tabs of [MainWindow], in the order the
    charts are built. *)
Definition notebook_gammas : list float := [2.2; 2.0; 1.8; 1.0]%float.

(** The charts of [MainWindow], built one after the other in one
    interpreter. *)
Fixpoint build_charts (libm_pow : float -> float -> float) (gammas : list float)
    : Tk (list chart) :=
  match gammas with
  | [] => ret []
  | gamma :: gammas' =>
      (c <- GammaChart libm_pow gamma ;;
       cs <- build_charts libm_pow gammas' ;;
       ret (c :: cs))%tk
  end.

Definition MainWindow (libm_pow : float -> float -> float) : Tk (list chart) :=
  build_charts libm_pow notebook_gammas.

(** The position [MainWindow] asks for in its [geometry] call, from the size
    of the window and of the screen:
    [x = (screenwidth // 2) - (width // 2)], and [y] likewise. *)
Definition window_position (width height screenwidth screenheight : Z) : Z * Z :=
  (screenwidth / 2 - width / 2, screenheight / 2 - height / 2).

(** * The vocabulary of the properties *)

(** A finite, non-negative float that is at most [b]. *)
Definition at_most (b : Z) (f : spec_float) : Prop :=
  (exists s, f = S754_zero s) \/
  exists m e, f = S754_finite false m e /\ e <= 0 /\ Z.pos m <= b * 2 ^ (- e).

(** A float that is zero, positive or plus infinity, but not a NaN. *)
Definition nonneg_sf (f : spec_float) : Prop :=
  match f with
  | S754_zero false | S754_finite false _ _ | S754_infinity false => True
  | _ => False
  end.

(** What is assumed of the C library's [pow]: on a base strictly between 0
    and 1 and a finite positive exponent, the result lies between 0 and 1. *)
Definition pow_unit_interval (libm_pow : float -> float -> float) : Prop :=
  forall x y,
    (0 <? x)%float = true -> (x <? 1)%float = true ->
    (0 <? y)%float = true -> (y <? infinity)%float = true ->
    (0 <=? libm_pow x y)%float = true /\ (libm_pow x y <=? 1)%float = true.

(** The pixel rows of a pixel map with [num_colors] colour lines. *)
Definition pixel_rows (xpm_data : list string) (num_colors : nat) : list string :=
  skipn (1 + num_colors) xpm_data.

(** The symbol at [(row, col)], read the way [create_photo_image] reads it
    when a pixel is one character wide. *)
Definition pixel (xpm_data : list string) (num_colors row col : nat) : result string :=
  pixel_row <-? item xpm_data (row + 1 + num_colors) ;;
  Ok (slice pixel_row col (col + 1)).

(** No blank character in a string. *)
Fixpoint no_space (s : string) : bool :=
  match s with
  | EmptyString => true
  | String c s' => negb (is_space c) && no_space s'
  end.

(** The invariants of a pixel map whose header declares [width], [height],
    [num_colors] and one character per pixel, and whose colour lines give
    [color_map]: the header's counts are the actual ones and every pixel
    symbol has a colour. *)
Definition xpm_invariants (width height num_colors : nat) (color_map : dict string)
    (xpm_data : list string) : Prop :=
  (exists header,
     item xpm_data 0 = Ok header /\
     parse_header header = Ok (width, height, num_colors, 1%nat)) /\
  color_map_loop xpm_data (seq 0 num_colors) [] = Ok color_map /\
  List.length color_map = num_colors /\
  List.length (pixel_rows xpm_data num_colors) = height /\
  Forall (fun row =>
            String.length row = width /\
            forall x, (x < width)%nat ->
                      dict_mem color_map (slice row x (x + 1)) = true)
         (pixel_rows xpm_data num_colors).

Definition xpm_well_formed (xpm_data : list string) : Prop :=
  exists width height num_colors color_map,
    xpm_invariants width height num_colors color_map xpm_data.

(** The rows of the uniform pixel map and of the checkerboard. *)
Definition blank_row : string := str_mul " " (Xpm_size * 2).

Definition dot_row : string := str_mul ". " Xpm_size.

Definition space_row : string := str_mul " ." Xpm_size.

(** The five input levels of [GammaChart.__init__]. *)
Definition input_levels : list Z := [0; 63; 127; 191; 255].

Definition is_lower_hex (c : ascii) : bool :=
  existsb (Ascii.eqb c) (list_ascii_of_string "0123456789abcdef").

(** Exactly two lowercase hexadecimal digits. *)
Definition two_lower_hex (s : string) : bool :=
  match s with
  | String a (String b EmptyString) => is_lower_hex a && is_lower_hex b
  | _ => false
  end.

(** The number a hexadecimal string denotes. *)
Definition hex_value (s : string) : option Z :=
  match HexadecimalString.NilZero.uint_of_string s with
  | Some d => Some (Z.of_hex_uint d)
  | None => None
  end.

(** [pow(x, 1.0)] is [x] up to one unit in the last place. *)
Definition pow_near_exact_at_one (libm_pow : float -> float -> float) : Prop :=
  forall x, libm_pow x 1%float = next_down x \/ libm_pow x 1%float = x \/
            libm_pow x 1%float = next_up x.

(** A stand-in for the C library's [pow] that is exact where the exponent is
    [1.0], the only exponent a chart for [gamma = 1.0] passes. *)
Definition pow_at_exponent_one (x y : float) : float := x.

(** What is observable of an image, a canvas item and a chart apart from the
    names Tk gave to the images. *)
Definition image_view (image : PhotoImage) : nat * nat * list (string * (nat * nat)) :=
  (image_width image, image_height image, image_puts image).

Definition item_view (it : canvas_item)
    : nat * nat * (nat * nat * list (string * (nat * nat))) * string :=
  (item_x it, item_y it, image_view (item_image it), item_anchor it).

Definition dict_view (images : dict PhotoImage)
    : list (string * (nat * nat * list (string * (nat * nat)))) :=
  map (fun entry => (fst entry, image_view (snd entry))) images.

Definition chart_view (c : chart) :=
  (chart_width c, chart_height c, map image_view (_images c),
   map item_view (chart_items c)).

(** The outcome of a run, the final interpreter state left out. *)
Definition outcome {A B : Type} (view : A -> B) (r : result (A * tk_state)) : result B :=
  match r with
  | Ok (a, _) => Ok (view a)
  | Err e => Err e
  end.

(** The coordinate of a canvas item. *)
Definition item_xy (it : canvas_item) : nat * nat := (item_x it, item_y it).

(** The coordinates at which the inner placement loop puts an image for one
    entry of [layout], given which keys the [images] dictionary has. *)
Definition section_xy (has_key : string -> bool) (xpm_side : nat)
    (entry : string * nat * nat) : list (nat * nat) :=
  let '(color_name, row_offset, col_offset) := entry in
  flat_map (fun pattern : string * nat * nat =>
    let '(pattern_name, col, row) := pattern in
    if has_key (color_name ++ "_" ++ pattern_name)
    then [((col + col_offset) * xpm_side, (row + row_offset) * xpm_side)%nat]
    else [])
    patterns.

(** The coordinates of all placements, in the order of the loops. *)
Definition placed_xy (has_key : string -> bool) (xpm_side : nat) : list (nat * nat) :=
  flat_map (section_xy has_key xpm_side) layout.

Definition xy_eqb (a b : nat * nat) : bool :=
  Nat.eqb (fst a) (fst b) && Nat.eqb (snd a) (snd b).

Fixpoint distinct (l : list (nat * nat)) : bool :=
  match l with
  | [] => true
  | a :: l' => negb (existsb (xy_eqb a) l') && distinct l'
  end.

(** A square image of the given side, one [put] per row. *)
Definition tile_sized (side : nat) (image : PhotoImage) : Prop :=
  image_width image = side /\ image_height image = side /\
  List.length (image_puts image) = side.

(** A pixel map of a [side] x [side] tile that keeps the invariants. *)
Definition tile_data (side : nat) (xpm_data : list string) : Prop :=
  exists num_colors color_map,
    xpm_invariants side side num_colors color_map xpm_data.

Definition unbrace (c : ascii) : ascii :=
  if (Ascii.eqb c "{" || Ascii.eqb c "}")%bool then " "%char else c.

Fixpoint string_map (f : ascii -> ascii) (s : string) : string :=
  match s with
  | EmptyString => EmptyString
  | String c s' => String (f c) (string_map f s')
  end.

(** The colours of one row as Tk reads them from the data of a [put]: the
    words between the braces. *)
Definition row_colors (data : string) : list string :=
  split (string_map unbrace data).

(** The colours of an image, one list per [put], in the order of the calls. *)
Definition tile_colors (image : PhotoImage) : list (list string) :=
  map (fun p => row_colors (fst p)) (image_puts image).

Definition uniform_tile (color : string) : list (list string) :=
  repeat (repeat color 32) 32.

Definition checker_tile (color1 color2 : string) : list (list string) :=
  map (fun row => map (fun col => if Nat.even (row + col) then color2 else color1)
                    (seq 0 32)) (seq 0 32).

(** The 24 tiles of the chart for [gamma = 1.0], by key. *)
Definition gamma_one_tiles : list (string * list (list string)) :=
  [ ("all_a025", checker_tile "#000000" "#7f7f7f");
    ("all_a050", checker_tile "#000000" "#ffffff");
    ("all_a075", checker_tile "#7f7f7f" "#ffffff");
    ("all_s025", uniform_tile "#3f3f3f");
    ("all_s050", uniform_tile "#7f7f7f");
    ("all_s075", uniform_tile "#bfbfbf");
    ("red_a025", checker_tile "#000000" "#7f0000");
    ("red_a050", checker_tile "#000000" "#ff0000");
    ("red_a075", checker_tile "#7f0000" "#ff0000");
    ("red_s025", uniform_tile "#3f0000");
    ("red_s050", uniform_tile "#7f0000");
    ("red_s075", uniform_tile "#bf0000");
    ("green_a025", checker_tile "#000000" "#007f00");
    ("green_a050", checker_tile "#000000" "#00ff00");
    ("green_a075", checker_tile "#007f00" "#00ff00");
    ("green_s025", uniform_tile "#003f00");
    ("green_s050", uniform_tile "#007f00");
    ("green_s075", uniform_tile "#00bf00");
    ("blue_a025", checker_tile "#000000" "#00007f");
    ("blue_a050", checker_tile "#000000" "#0000ff");
    ("blue_a075", checker_tile "#00007f" "#0000ff");
    ("blue_s025", uniform_tile "#00003f");
    ("blue_s050", uniform_tile "#00007f");
    ("blue_s075", uniform_tile "#0000bf") ].

(** The tiles of an [images] dictionary, by key. *)
Definition tiles_view (images : dict PhotoImage) : list (string * list (list string)) :=
  map (fun entry => (fst entry, tile_colors (snd entry))) images.



(** No blank and no brace in a string: such a string is one word of the data
    of a [put]. *)
Fixpoint plain (s : string) : bool :=
  match s with
  | EmptyString => true
  | String c s' =>
      negb (is_space c) && negb (Ascii.eqb c "{" || Ascii.eqb c "}") && plain s'
  end.

(** A colour as [put] needs it: a word that is not empty. *)
Definition color_word (s : string) : bool :=
  match s with
  | EmptyString => false
  | _ => plain s
  end.

(** The colour the table gives to a symbol. *)
Definition color_of (color_map : dict string) (symbol : string) : string :=
  match dict_get color_map symbol with
  | Some color => color
  | None => ""
  end.

(** The colour of the pixel at [(row, col)] of a pixel map. *)
Definition pixel_color (color_map : dict string) (xpm_data : list string)
    (num_colors row col : nat) : string :=
  match pixel xpm_data num_colors row col with
  | Ok symbol => color_of color_map symbol
  | Err _ => ""
  end.

(** [row_str] after the loop over the columns: each colour followed by one
    blank. *)
Fixpoint words_line (words : list string) : string :=
  match words with
  | [] => ""
  | w :: words' => w ++ " " ++ words_line words'
  end.

(** No brace in a string. *)
Fixpoint no_brace (s : string) : bool :=
  match s with
  | EmptyString => true
  | String c s' => negb (Ascii.eqb c "{" || Ascii.eqb c "}") && no_brace s'
  end.

(** A colour of the form [#rrggbb], in lowercase hexadecimal digits. *)
Definition is_rrggbb (color : string) : bool :=
  match color with
  | String "#" digits =>
      (String.length digits =? 6)%nat && forallb is_lower_hex (list_ascii_of_string digits)
  | _ => false
  end.

(** A pixel map that no builder makes: two colours, two rows. *)
Definition two_by_two : list string :=
  ["2 2 2 1"; "a c #ff0000"; "b c #0000ff"; "ab"; "ba"].

(** The canvas items the inner placement loop makes for one entry of
    [layout]. *)
Definition section_items (images : dict PhotoImage) (xpm_side : nat)
    (entry : string * nat * nat) : list canvas_item :=
  let '(color_name, row_offset, col_offset) := entry in
  flat_map (fun pattern : string * nat * nat =>
    let '(pattern_name, col, row) := pattern in
    match dict_get images (color_name ++ "_" ++ pattern_name) with
    | Some image =>
        [{| item_x := (col + col_offset) * xpm_side;
            item_y := (row + row_offset) * xpm_side;
            item_image := image; item_anchor := "nw" |}]
    | None => []
    end)
    patterns.

(** The key of the tile at grid cell [(row, col)]: the rows come in four
    bands of three (all, red, green, blue), the columns in three groups of
    four (25%, 50%, 75%), two-tone and single-tone tiles alternate like a
    chessboard inside each band. *)
Definition key_at (row col : nat) : string :=
  nth (row / 3) ["all"; "red"; "green"; "blue"] ""
  ++ "_"
  ++ (if Nat.even (col + row mod 3) then "a" else "s")
  ++ nth (col / 4) ["025"; "050"; "075"] "".

(** The 24 tiles of a chart with levels [l], by key: for each section the
    two-tone tiles of 0%/50%, 0%/100% and 50%/100% and the single-tone tiles
    of 25%, 50% and 75%, the other channels at the 0% level. *)
Definition level_tiles (l : levels) : list (string * list (list string)) :=
  let rgb red green blue := "#" ++ red ++ green ++ blue in
  let v000 := v000 l in
  let v025 := v025 l in
  let v050 := v050 l in
  let v075 := v075 l in
  let v100 := v100 l in
  [ ("all_a025", checker_tile (rgb v000 v000 v000) (rgb v050 v050 v050));
    ("all_a050", checker_tile (rgb v000 v000 v000) (rgb v100 v100 v100));
    ("all_a075", checker_tile (rgb v050 v050 v050) (rgb v100 v100 v100));
    ("all_s025", uniform_tile (rgb v025 v025 v025));
    ("all_s050", uniform_tile (rgb v050 v050 v050));
    ("all_s075", uniform_tile (rgb v075 v075 v075));
    ("red_a025", checker_tile (rgb v000 v000 v000) (rgb v050 v000 v000));
    ("red_a050", checker_tile (rgb v000 v000 v000) (rgb v100 v000 v000));
    ("red_a075", checker_tile (rgb v050 v000 v000) (rgb v100 v000 v000));
    ("red_s025", uniform_tile (rgb v025 v000 v000));
    ("red_s050", uniform_tile (rgb v050 v000 v000));
    ("red_s075", uniform_tile (rgb v075 v000 v000));
    ("green_a025", checker_tile (rgb v000 v000 v000) (rgb v000 v050 v000));
    ("green_a050", checker_tile (rgb v000 v000 v000) (rgb v000 v100 v000));
    ("green_a075", checker_tile (rgb v000 v050 v000) (rgb v000 v100 v000));
    ("green_s025", uniform_tile (rgb v000 v025 v000));
    ("green_s050", uniform_tile (rgb v000 v050 v000));
    ("green_s075", uniform_tile (rgb v000 v075 v000));
    ("blue_a025", checker_tile (rgb v000 v000 v000) (rgb v000 v000 v050));
    ("blue_a050", checker_tile (rgb v000 v000 v000) (rgb v000 v000 v100));
    ("blue_a075", checker_tile (rgb v000 v000 v050) (rgb v000 v000 v100));
    ("blue_s025", uniform_tile (rgb v000 v000 v025));
    ("blue_s050", uniform_tile (rgb v000 v000 v050));
    ("blue_s075", uniform_tile (rgb v000 v000 v075)) ].

(** A pixel map and the tile its image shows, from any state. *)
Definition shows (entry : string * list string) (tile : string * list (list string))
    : Prop :=
  fst entry = fst tile /\
  forall s, exists image,
    create_photo_image (snd entry) s = Ok (image, {| last_id := S (last_id s) |}) /\
    tile_colors image = snd tile.

(** The exception a gamma that is not positive ends in. *)
Definition gamma_error (gamma : float) : exn :=
  if is_nan gamma then ValueError
  else if (gamma =? 0)%float then ZeroDivisionError
  else if is_infinity (1 / gamma) then OverflowError
  else ZeroDivisionError.

(** * Properties *)

Lemma digits2_pos_size (p : positive) : digits2_pos p = Pos.size p.
Proof. induction p; simpl; congruence. Qed.

Lemma digits2_pos_bounds (p : positive) :
  2 ^ (Z.pos (digits2_pos p) - 1) <= Z.pos p < 2 ^ Z.pos (digits2_pos p).
Proof.
  rewrite digits2_pos_size. split.
  - pose proof (Pos.size_le p) as H.
    assert (2 ^ Z.pos (Pos.size p) <= 2 * Z.pos p) as H'.
    { rewrite <- Pos2Z.inj_pow. change (2 * Z.pos p) with (Z.pos p~0). lia. }
    replace (Z.pos (Pos.size p)) with (Z.succ (Z.pos (Pos.size p) - 1)) in H' by lia.
    rewrite Z.pow_succ_r in H' by lia. lia.
  - pose proof (Pos.size_gt p) as H. rewrite <- Pos2Z.inj_pow. lia.
Qed.

Lemma shr_1_m (mrs : shr_record) :
  0 <= shr_m mrs -> shr_m (shr_1 mrs) = shr_m mrs / 2.
Proof.
  destruct mrs as [m r s]; simpl. intros Hm.
  destruct m as [|p|p]; try lia.
  - reflexivity.
  - destruct p; simpl shr_m.
    + rewrite Pos2Z.inj_xI. apply Z.div_unique with (r := 1); lia.
    + rewrite Pos2Z.inj_xO. apply Z.div_unique with (r := 0); lia.
    + reflexivity.
Qed.

Lemma shr_1_nonneg (mrs : shr_record) :
  0 <= shr_m mrs -> 0 <= shr_m (shr_1 mrs).
Proof.
  intros H. rewrite shr_1_m by assumption. apply Z.div_pos; lia.
Qed.

Lemma iter_shr_1_m (n : positive) : forall mrs,
  0 <= shr_m mrs ->
  shr_m (iter_pos shr_1 n mrs) = shr_m mrs / 2 ^ Z.pos n.
Proof.
  assert (Hpow : forall k, 0 < 2 ^ Z.pos k) by (intros; apply Z.pow_pos_nonneg; lia).
  assert (Hnn : forall a k, 0 <= a -> 0 <= a / 2 ^ Z.pos k).
  { intros. apply Z.div_pos; auto. }
  induction n as [n IH|n IH|]; intros mrs Hm; simpl iter_pos.
  - pose proof (shr_1_nonneg mrs Hm) as H1.
    pose proof (IH _ H1) as E1.
    assert (0 <= shr_m (iter_pos shr_1 n (shr_1 mrs))) as H2 by (rewrite E1; auto).
    rewrite (IH _ H2), E1, shr_1_m by assumption.
    rewrite !Z.div_div by (auto; lia).
    f_equal. replace (Z.pos n~1) with (1 + Z.pos n + Z.pos n) by lia.
    rewrite !Z.pow_add_r by lia. change (2 ^ 1) with 2. lia.
  - pose proof (IH _ Hm) as E1.
    assert (0 <= shr_m (iter_pos shr_1 n mrs)) as H2 by (rewrite E1; auto).
    rewrite (IH _ H2), E1.
    rewrite !Z.div_div by (auto; lia).
    f_equal. replace (Z.pos n~0) with (Z.pos n + Z.pos n) by lia.
    rewrite !Z.pow_add_r by lia. lia.
  - now rewrite shr_1_m.
Qed.

(** [shr] by a non-negative amount divides the mantissa and moves the exponent. *)
Lemma shr_m_e (m e n : Z) :
  0 <= m -> 0 <= n ->
  let '(mrs, e') := shr (Build_shr_record m false false) e n in
  shr_m mrs = m / 2 ^ n /\ e' = e + n.
Proof.
  intros Hm Hn. destruct n as [|p|p]; simpl; try lia.
  - rewrite Z.div_1_r. lia.
  - rewrite iter_shr_1_m by (simpl; lia). simpl. split; reflexivity.
Qed.

Lemma round_nearest_even_bounds (m : Z) (l : location) :
  m <= round_nearest_even m l <= m + 1.
Proof.
  destruct l as [|[]]; simpl; try lia. destruct (Z.even m); lia.
Qed.

Lemma fexp_64 (x : Z) : fexp prec emax x = Z.max (x - 53) (-1074).
Proof. reflexivity. Qed.

Lemma Zdigits2_le (m b k : Z) :
  0 <= m -> 0 <= k -> m < 2 ^ k -> Zdigits2 m <= k.
Proof.
  intros Hm Hk Hlt. destruct m as [|p|p]; simpl; try lia.
  pose proof (digits2_pos_bounds p) as [Hlo _].
  destruct (Z_le_gt_dec (Z.pos (digits2_pos p)) k) as [|Hgt]; [assumption|].
  assert (2 ^ k <= 2 ^ (Z.pos (digits2_pos p) - 1)) by (apply Z.pow_le_mono_r; lia).
  lia.
Qed.

Lemma round_aux_at_most (b : Z) (M : positive) (E : Z) :
  0 < b < 256 ->
  53 <= Z.pos (digits2_pos M) -> E <= 0 -> Z.pos M < b * 2 ^ (- E) ->
  at_most b (binary_round_aux prec emax false (Z.pos M) E loc_Exact).
Proof.
  intros Hb HD HE HM.
  unfold binary_round_aux, shr_fexp. simpl Zdigits2. simpl shr_record_of_loc.
  set (D := Z.pos (digits2_pos M)) in *.
  rewrite fexp_64.
  set (e1 := Z.max (D + E - 53) (-1074)).
  assert (Hpow : forall k, 0 <= k -> 0 < 2 ^ k) by (intros; apply Z.pow_pos_nonneg; lia).
  assert (HDE : D + E <= 8).
  { pose proof (digits2_pos_bounds M) as [Hlo _]. fold D in Hlo.
    destruct (Z_le_gt_dec (D + E) 8) as [|Hgt]; [assumption|].
    assert (2 ^ (8 - E) <= 2 ^ (D - 1)) by (apply Z.pow_le_mono_r; lia).
    assert (b * 2 ^ (- E) < 2 ^ (8 - E)).
    { replace (8 - E) with (8 + - E) by lia. rewrite Z.pow_add_r by lia.
      change (2 ^ 8) with 256. pose proof (Hpow (- E)). nia. }
    lia. }
  assert (He1 : E <= e1 <= -45) by lia.
  pose proof (shr_m_e (Z.pos M) E (e1 - E)) as Hshr.
  destruct (shr {| shr_m := Z.pos M; shr_r := false; shr_s := false |} E (e1 - E))
    as [mrs1 e'].
  destruct Hshr as [Hm1 He']; try lia.
  replace (E + (e1 - E)) with e1 in He' by lia. subst e'.
  set (K := b * 2 ^ (- e1)).
  assert (Hm1K : 0 <= shr_m mrs1 < K).
  { rewrite Hm1. split.
    - apply Z.div_pos; [lia|]. apply Hpow; lia.
    - apply Z.div_lt_upper_bound; [apply Hpow; lia|].
      unfold K. replace (- E) with ((e1 - E) + - e1) in HM by lia.
      rewrite Z.pow_add_r in HM by lia. lia. }
  pose proof (round_nearest_even_bounds (shr_m mrs1) (loc_of_shr_record mrs1)) as Hrne.
  set (m2 := round_nearest_even (shr_m mrs1) (loc_of_shr_record mrs1)) in *.
  assert (Hm2 : 0 <= m2 <= K) by lia.
  rewrite fexp_64.
  set (e2 := Z.max (Zdigits2 m2 + e1 - 53) (-1074)).
  assert (HK8 : K < 2 ^ (8 - e1)).
  { unfold K. replace (8 - e1) with (8 + - e1) by lia. rewrite Z.pow_add_r by lia.
    change (2 ^ 8) with 256. pose proof (Hpow (- e1)). nia. }
  assert (Hd2 : Zdigits2 m2 <= 9 - e1).
  { apply (Zdigits2_le m2 0); try lia.
    replace (9 - e1) with (1 + (8 - e1)) by lia. rewrite Z.pow_add_r by lia.
    pose proof (Hpow (8 - e1)). lia. }
  assert (He2 : e2 <= -44) by lia.
  destruct (Z_le_gt_dec (e2 - e1) 0) as [Hle|Hgt].
  - (* no second shift *)
    assert (Hs : shr {| shr_m := m2; shr_r := false; shr_s := false |} e1 (e2 - e1)
                 = ({| shr_m := m2; shr_r := false; shr_s := false |}, e1)).
    { destruct (e2 - e1) as [|p|p]; try reflexivity; lia. }
    rewrite Hs. simpl shr_m.
    destruct m2 as [|p|p]; try lia.
    + left. exists false. reflexivity.
    + replace (e1 <=? emax - prec) with true by (symmetry; apply Z.leb_le; unfold emax, prec; lia).
      right. exists p, e1. repeat split; lia.
  - pose proof (shr_m_e m2 e1 (e2 - e1)) as Hshr2.
    destruct (shr {| shr_m := m2; shr_r := false; shr_s := false |} e1 (e2 - e1))
      as [mrs3 e3].
    destruct Hshr2 as [Hm3 He3]; try lia.
    replace (e1 + (e2 - e1)) with e2 in He3 by lia. subst e3.
    assert (Hm3K : 0 <= shr_m mrs3 <= b * 2 ^ (- e2)).
    { rewrite Hm3. split.
      - apply Z.div_pos; [lia|]. apply Hpow; lia.
      - apply Z.div_le_upper_bound; [apply Hpow; lia|].
        assert (HKe : K = b * 2 ^ (- e2) * 2 ^ (e2 - e1)).
        { unfold K. replace (- e1) with ((e2 - e1) + - e2) by lia.
          rewrite Z.pow_add_r by lia. lia. }
        lia. }
    destruct (shr_m mrs3) as [|p|p]; try lia.
    + left. exists false. reflexivity.
    + replace (e2 <=? emax - prec) with true by (symmetry; apply Z.leb_le; unfold emax, prec; lia).
      right. exists p, e2. repeat split; try lia.
Qed.

Lemma round_half_even_at_most (b : Z) (m : positive) (e : Z) :
  0 <= b -> e <= 0 -> Z.pos m <= b * 2 ^ (- e) ->
  0 <= round_half_even (Z.pos m) e <= b.
Proof.
  intros Hb He Hm. unfold round_half_even.
  destruct (Z.leb_spec 0 e) as [H0|H0].
  - assert (e = 0) by lia. subst e. simpl in *. lia.
  - assert (Hd : 0 < 2 ^ (- e)) by (apply Z.pow_pos_nonneg; lia).
    set (d := 2 ^ (- e)) in *.
    pose proof (Z.div_mod (Z.pos m) d ltac:(lia)) as Hdm.
    pose proof (Z.mod_pos_bound (Z.pos m) d Hd) as Hr.
    assert (Hq0 : 0 <= Z.pos m / d) by (apply Z.div_pos; lia).
    assert (Hq : Z.pos m / d <= b) by (apply Z.div_le_upper_bound; lia).
    destruct (Z.compare_spec (2 * (Z.pos m mod d)) d) as [Hc|Hc|Hc]; try lia.
    + destruct (Z.even (Z.pos m / d)); [lia|].
      assert (Z.pos m / d <> b) by nia. lia.
    + assert (Z.pos m / d <> b) by nia. lia.
Qed.

Lemma py_round_at_most (b : Z) (f : float) :
  0 <= b -> at_most b (Prim2SF f) ->
  exists n, py_round f = Ok n /\ 0 <= n <= b.
Proof.
  intros Hb [[s H]|(m & e & H & He & Hm)]; unfold py_round; rewrite H.
  - exists 0. split; [reflexivity | lia].
  - eexists. split; [reflexivity|]. simpl cond_Zopp.
    now apply round_half_even_at_most.
Qed.

Lemma Prim2SF_0 : Prim2SF 0 = S754_zero false.
Proof. reflexivity. Qed.

Lemma Prim2SF_1 : Prim2SF 1 = S754_finite false 4503599627370496 (-52).
Proof. reflexivity. Qed.

Lemma Prim2SF_255 : Prim2SF 255 = S754_finite false 8972014882652160 (-45).
Proof. reflexivity. Qed.

(** The shape of a valid finite float: at most 53 digits. *)
Lemma bounded_digits (m : positive) (e : Z) :
  bounded prec emax m e = true ->
  Z.pos (digits2_pos m) <= 53 /\ -1074 <= e /\
  (e = -1074 \/ Z.pos (digits2_pos m) = 53).
Proof.
  unfold bounded, canonical_mantissa. rewrite fexp_64.
  intros H. apply andb_prop in H as [H _]. apply Z.eqb_eq in H. lia.
Qed.

(** A float between zero and one, as a specification float. *)
Lemma unit_interval_shape (p : float) :
  (0 <=? p)%float = true -> (p <=? 1)%float = true ->
  (exists s, Prim2SF p = S754_zero s) \/
  Prim2SF p = Prim2SF 1 \/
  exists m e, Prim2SF p = S754_finite false m e /\ e <= -53 /\ Z.pos m < 2 ^ 53.
Proof.
  rewrite !leb_spec, Prim2SF_0, Prim2SF_1.
  pose proof (Prim2SF_valid p) as Hv.
  destruct (Prim2SF p) as [s|s| |s m e]; unfold SFleb, SFcompare.
  - intros _ _. left. exists s. reflexivity.
  - destruct s; discriminate.
  - discriminate.
  - destruct s; try discriminate. intros _.
    destruct (bounded_digits m e Hv) as (Hd & He & Hde).
    pose proof (digits2_pos_bounds m) as [Hlo Hhi].
    assert (Z.pos m < 2 ^ 53).
    { eapply Z.lt_le_trans; [exact Hhi|]. apply Z.pow_le_mono_r; lia. }
    destruct (Z.compare_spec e (-52)) as [He52|He52|He52]; try discriminate.
    + subst e. assert (Hd53 : Z.pos (digits2_pos m) = 53) by lia.
      rewrite Hd53 in Hlo. change (2 ^ (53 - 1)) with 4503599627370496 in Hlo.
      rewrite Pos.compare_cont_spec. cbn [Pos.switch_Eq].
      rewrite Pos2Z.inj_compare.
      destruct (Z.compare_spec (Z.pos m) 4503599627370496) as [Hc|Hc|Hc];
        try discriminate.
      * intros _. right. left. congruence.
      * intros _. exfalso. clear - Hlo Hc. lia.
    + intros _. right. right. exists m, e. repeat split; try lia.
Qed.

Lemma mul_255_at_most (p : float) :
  (0 <=? p)%float = true -> (p <=? 1)%float = true ->
  at_most 255 (Prim2SF (p * 255)).
Proof.
  intros H0 H1. rewrite mul_spec, Prim2SF_255.
  destruct (unit_interval_shape p H0 H1) as [[s Hs]|[Hs|(m & e & Hs & He & Hm)]];
    rewrite Hs.
  - left. exists (xorb s false). reflexivity.
  - right. exists 8972014882652160%positive, (-45). 
    split; [vm_compute; reflexivity|]. split; [lia|].
    change (2 ^ (- -45)) with 35184372088832. lia.
  - unfold SF64mul, SFmul. cbn [xorb].
    assert (HX : 2 ^ 53 <= 2 ^ (- e)) by (apply Z.pow_le_mono_r; lia).
    set (X := 2 ^ (- e)) in *.
    change (2 ^ 53) with 9007199254740992 in *.
    apply round_aux_at_most; try lia.
    + pose proof (digits2_pos_bounds (m * 8972014882652160)) as [_ Hhi].
      destruct (Z_le_gt_dec 53 (Z.pos (digits2_pos (m * 8972014882652160)))); [assumption|].
      assert (2 ^ Z.pos (digits2_pos (m * 8972014882652160)) <= 2 ^ 52)
        by (apply Z.pow_le_mono_r; lia).
      change (2 ^ 52) with 4503599627370496 in *. lia.
    + replace (- (e + -45)) with (45 + - e) by lia.
      rewrite Z.pow_add_r by lia. change (2 ^ 45) with 35184372088832.
      fold X. rewrite Pos2Z.inj_mul. lia.
Qed.

Lemma Prim2SF_infinity : Prim2SF infinity = S754_infinity false.
Proof. reflexivity. Qed.

Lemma SFcompare_refl_finite (s : bool) (m : positive) (e : Z) :
  SFcompare (S754_finite s m e) (S754_finite s m e) = Some Eq.
Proof.
  simpl. rewrite Z.compare_refl, Pos.compare_cont_refl. now destruct s.
Qed.

Lemma shr_nonneg (mrs : shr_record) (e n : Z) :
  0 <= shr_m mrs -> 0 <= shr_m (fst (shr mrs e n)).
Proof.
  intros H. destruct n as [|p|p]; simpl; try assumption.
  rewrite iter_shr_1_m by assumption.
  apply Z.div_pos; [assumption|]. apply Z.pow_pos_nonneg; lia.
Qed.

Lemma shr_record_of_loc_m (m : Z) (l : location) : shr_m (shr_record_of_loc m l) = m.
Proof. destruct l as [|[]]; reflexivity. Qed.

Lemma binary_round_aux_nonneg (m e : Z) (l : location) :
  0 <= m -> nonneg_sf (binary_round_aux prec emax false m e l).
Proof.
  intros Hm. unfold binary_round_aux, shr_fexp.
  pose proof (shr_nonneg (shr_record_of_loc m l) e
                (fexp prec emax (Zdigits2 m + e) - e)) as H1.
  rewrite shr_record_of_loc_m in H1. specialize (H1 Hm).
  destruct (shr (shr_record_of_loc m l) e (fexp prec emax (Zdigits2 m + e) - e))
    as [mrs1 e1]. simpl fst in H1.
  pose proof (round_nearest_even_bounds (shr_m mrs1) (loc_of_shr_record mrs1)) as Hr.
  set (m2 := round_nearest_even (shr_m mrs1) (loc_of_shr_record mrs1)) in *.
  pose proof (shr_nonneg (shr_record_of_loc m2 loc_Exact) e1
                (fexp prec emax (Zdigits2 m2 + e1) - e1)) as H2.
  rewrite shr_record_of_loc_m in H2. assert (Hm2 : 0 <= m2) by lia. specialize (H2 Hm2).
  destruct (shr (shr_record_of_loc m2 loc_Exact) e1
              (fexp prec emax (Zdigits2 m2 + e1) - e1)) as [mrs3 e3].
  simpl fst in H2.
  destruct (shr_m mrs3) as [|p|p]; try lia; try exact I.
  destruct (e3 <=? emax - prec); exact I.
Qed.

Lemma positive_shape (g : float) :
  (0 <? g)%float = true ->
  Prim2SF g = S754_infinity false \/ exists m e, Prim2SF g = S754_finite false m e.
Proof.
  rewrite ltb_spec, Prim2SF_0. unfold SFltb.
  destruct (Prim2SF g) as [s|s| |s m e]; simpl; try discriminate.
  - destruct s; try discriminate. now left.
  - destruct s; try discriminate. right. now exists m, e.
Qed.

(** [1.0 / gamma] for a positive [gamma]: no exception, and the quotient is
    zero, positive or plus infinity. *)
Lemma reciprocal_nonneg (gamma : float) :
  (0 <? gamma)%float = true ->
  py_truediv 1 gamma = Ok (1 / gamma)%float /\ nonneg_sf (Prim2SF (1 / gamma)).
Proof.
  intros Hg. unfold py_truediv.
  rewrite eqb_spec, div_spec, Prim2SF_0, Prim2SF_1.
  destruct (positive_shape gamma Hg) as [H|(m & e & H)]; rewrite H.
  - split; [reflexivity | exact I].
  - split; [reflexivity|].
    unfold SF64div, SFdiv. simpl xorb.
    destruct (SFdiv_core_binary prec emax 4503599627370496 (-52) (Z.pos m) e)
      as [[mz ez] lz] eqn:Hcore.
    apply binary_round_aux_nonneg.
    unfold SFdiv_core_binary in Hcore.
    match type of Hcore with
    | (let '(q, r) := Z.div_eucl ?a ?b in _) = _ =>
        pose proof (Z.div_eucl_eq a b ltac:(lia)) as Heq;
        pose proof (Z.mod_pos_bound a b ltac:(lia)) as Hmod;
        assert (Ha : 0 <= a);
        [| unfold Z.modulo in Hmod; destruct (Z.div_eucl a b) as [q r] eqn:Hqr ]
    end.
    + match goal with |- 0 <= match ?s with _ => _ end => destruct s eqn:Hs end; try lia.
      rewrite <- Hs. apply Z.shiftl_nonneg. lia.
    + injection Hcore as <- _ _. nia.
Qed.

Lemma tests_zero (f : float) (s : bool) :
  Prim2SF f = S754_zero s ->
  (f =? 0)%float = true /\ is_nan f = false /\ is_infinity f = false /\
  (abs f =? 1)%float = false /\ (1 <? abs f)%float = false.
Proof.
  intros H. unfold is_nan, is_infinity.
  rewrite !eqb_spec, !ltb_spec, !abs_spec, H, Prim2SF_0, Prim2SF_1, Prim2SF_infinity.
  repeat split; reflexivity.
Qed.

Lemma tests_finite (f : float) (m : positive) (e : Z) :
  Prim2SF f = S754_finite false m e ->
  (f =? 0)%float = false /\ is_nan f = false /\ is_infinity f = false /\
  (f <? 0)%float = false /\ (0 <? f)%float = true /\ (f <? infinity)%float = true.
Proof.
  intros H. unfold is_nan, is_infinity.
  rewrite !eqb_spec, !ltb_spec, !abs_spec, H, Prim2SF_0, Prim2SF_infinity.
  unfold SFeqb, SFltb. cbn [SFabs]. rewrite SFcompare_refl_finite.
  repeat split; reflexivity.
Qed.

Lemma tests_infinity (f : float) :
  Prim2SF f = S754_infinity false ->
  (f =? 0)%float = false /\ is_nan f = false /\ is_infinity f = true /\
  (0 <? f)%float = true.
Proof.
  intros H. unfold is_nan, is_infinity.
  rewrite !eqb_spec, !ltb_spec, !abs_spec, H, Prim2SF_0, Prim2SF_infinity.
  repeat split; reflexivity.
Qed.

Lemma tests_below_one (f : float) (m : positive) (e : Z) :
  Prim2SF f = S754_finite false m e -> e <= -53 ->
  (f =? 1)%float = false /\ (abs f =? 1)%float = false /\
  (1 <? abs f)%float = false /\ (f <? 1)%float = true.
Proof.
  intros H He.
  rewrite !eqb_spec, !ltb_spec, !abs_spec, H, Prim2SF_1.
  unfold SFeqb, SFltb. cbn [SFabs SFcompare].
  rewrite (proj2 (Z.compare_lt_iff e (-52))) by lia.
  rewrite (proj2 (Z.compare_gt_iff (-52) e)) by lia.
  repeat split; reflexivity.
Qed.

(** A float in the unit interval is not an infinity. *)
Lemma unit_interval_finite (p : float) :
  (0 <=? p)%float = true -> (p <=? 1)%float = true -> is_infinity p = false.
Proof.
  intros H0 H1.
  destruct (unit_interval_shape p H0 H1) as [[s Hs]|[Hs|(m & e & Hs & He & Hm)]].
  - apply (tests_zero p s Hs).
  - apply Prim2SF_inj in Hs. subst p. reflexivity.
  - apply (tests_finite p m e Hs).
Qed.

(** On a base strictly between 0 and 1 and a finite positive exponent,
    [py_pow] is the C library's [pow], with the overflow check. *)
Lemma py_pow_calls_libm (libm_pow : float -> float -> float) (v w : float)
    (m mw : positive) (e ew : Z) :
  Prim2SF v = S754_finite false m e -> e <= -53 ->
  Prim2SF w = S754_finite false mw ew ->
  py_pow libm_pow v w
  = if is_infinity (libm_pow v w) then Err OverflowError else Ok (libm_pow v w).
Proof.
  intros Hv He Hw. unfold py_pow.
  destruct (tests_finite w mw ew Hw) as (-> & -> & -> & -> & _).
  destruct (tests_finite v m e Hv) as (-> & -> & -> & -> & _).
  destruct (tests_below_one v m e Hv He) as (-> & _).
  reflexivity.
Qed.

Section PowUnit.

Variable libm_pow : float -> float -> float.

Hypothesis libm_pow_unit : pow_unit_interval libm_pow.

Lemma py_pow_unit (v w : float) :
  (0 <=? v)%float = true -> (v <=? 1)%float = true ->
  nonneg_sf (Prim2SF w) ->
  exists p, py_pow libm_pow v w = Ok p /\
            (0 <=? p)%float = true /\ (p <=? 1)%float = true.
Proof.
  intros H0 H1 Hw.
  destruct (Prim2SF w) as [[|]|[|]| |[|] mw ew] eqn:Ew; try contradiction.
  - (* w is zero *)
    unfold py_pow. destruct (tests_zero w false Ew) as (-> & _).
    exists 1%float. repeat split; reflexivity.
  - (* w is plus infinity *)
    unfold py_pow. destruct (tests_infinity w Ew) as (-> & -> & -> & ->).
    destruct (unit_interval_shape v H0 H1) as [[s Hs]|[Hs|(m & e & Hs & He & Hm)]].
    + destruct (tests_zero v s Hs) as (_ & -> & _ & -> & ->).
      exists 0%float. repeat split; reflexivity.
    + apply Prim2SF_inj in Hs. subst v.
      exists 1%float. repeat split; reflexivity.
    + destruct (tests_finite v m e Hs) as (_ & -> & _).
      destruct (tests_below_one v m e Hs He) as (_ & -> & -> & _).
      exists 0%float. repeat split; reflexivity.
  - (* w is finite and positive *)
    destruct (unit_interval_shape v H0 H1) as [[s Hs]|[Hs|(m & e & Hs & He & Hm)]].
    + unfold py_pow.
      destruct (tests_finite w mw ew Ew) as (-> & -> & -> & -> & _).
      destruct (tests_zero v s Hs) as (-> & -> & -> & _).
      destruct (is_odd_integer w).
      * exists v. repeat split; assumption.
      * exists 0%float. repeat split; reflexivity.
    + apply Prim2SF_inj in Hs. subst v. unfold py_pow.
      destruct (tests_finite w mw ew Ew) as (-> & -> & -> & -> & _).
      exists 1%float. repeat split; reflexivity.
    + rewrite (py_pow_calls_libm libm_pow v w m mw e ew Hs He Ew).
      destruct (tests_finite w mw ew Ew) as (_ & _ & _ & _ & Hw0 & Hwi).
      destruct (tests_finite v m e Hs) as (_ & _ & _ & _ & Hv0 & _).
      destruct (tests_below_one v m e Hs He) as (_ & _ & _ & Hv1).
      destruct (libm_pow_unit v w Hv0 Hv1 Hw0 Hwi) as [Hp0 Hp1].
      rewrite (unit_interval_finite _ Hp0 Hp1).
      exists (libm_pow v w). repeat split; assumption.
Qed.

End PowUnit.

(** *** The loops of [create_photo_image] *)

Lemma row_loop_total (color_map : dict string) (pixel_row : string) (range : list nat) :
  (forall x, In x range -> dict_mem color_map (slice pixel_row x (x + 1)) = true) ->
  forall row_str, exists s, row_loop color_map pixel_row 1 range row_str = Ok s.
Proof.
  induction range as [|x range IH]; intros Hin row_str; cbn [row_loop].
  - now exists row_str.
  - rewrite !Nat.mul_1_r.
    specialize (Hin x (or_introl eq_refl)) as Hx.
    unfold dict_mem in Hx. unfold dict_item.
    destruct (dict_get color_map (slice pixel_row x (x + 1))) as [color|];
      [|discriminate].
    simpl. apply IH. intros y Hy. apply Hin. now right.
Qed.

Lemma image_loop_total (xpm_data : list string) (color_map : dict string)
    (width num_colors : nat) (range : list nat) :
  (forall y, In y range ->
     exists row, nth_error xpm_data (y + 1 + num_colors) = Some row /\
       forall x, (x < width)%nat ->
                 dict_mem color_map (slice row x (x + 1)) = true) ->
  forall image, exists image',
    image_loop xpm_data color_map width num_colors 1 range image = Ok image' /\
    image_name image' = image_name image /\
    image_width image' = image_width image /\
    image_height image' = image_height image /\
    List.length (image_puts image') = (List.length (image_puts image) + List.length range)%nat.
Proof.
  induction range as [|y range IH]; intros Hin image; cbn [image_loop].
  - exists image. cbn [List.length]. repeat split; lia.
  - destruct (Hin y (or_introl eq_refl)) as (row & Hrow & Hpix).
    unfold item. rewrite Hrow. cbn [rbind].
    destruct (row_loop_total color_map row (seq 0 width)) with (row_str := "")
      as [row_str Hs].
    { intros x Hx. apply Hpix. apply in_seq in Hx. lia. }
    rewrite Hs. cbn [rbind].
    destruct (IH (fun y' Hy' => Hin y' (or_intror Hy'))
                (put image ("{" ++ strip row_str ++ "}") (0%nat, y)))
      as (image' & -> & Hn & Hw & Hh & Hl).
    exists image'. repeat split; try assumption.
    rewrite Hl. simpl. rewrite length_app. simpl. lia.
Qed.

Lemma pixel_rows_nth (xpm_data : list string) (num_colors y : nat) :
  nth_error (pixel_rows xpm_data num_colors) y = nth_error xpm_data (y + 1 + num_colors).
Proof.
  unfold pixel_rows. rewrite nth_error_skipn. f_equal. lia.
Qed.

(** The invariants are what image construction needs: on a well-formed pixel
    map no lookup fails, and the image gets the next name, the declared size
    and one [put] per row. *)
Lemma create_photo_image_total (width height num_colors : nat)
    (color_map : dict string) (xpm_data : list string) :
  xpm_invariants width height num_colors color_map xpm_data ->
  forall s, exists image,
    create_photo_image xpm_data s = Ok (image, {| last_id := S (last_id s) |}) /\
    image_name image = S (last_id s) /\
    image_width image = width /\ image_height image = height /\
    List.length (image_puts image) = height.
Proof.
  intros ((header & Hhd & Hparse) & Hcm & Hn & Hrows & Hpix) s.
  unfold create_photo_image, bind, lift. rewrite Hhd, Hparse, Hcm.
  unfold new_PhotoImage.
  destruct (image_loop_total xpm_data color_map width num_colors (seq 0 height))
    with (image := {| image_name := S (last_id s); image_width := width;
                      image_height := height; image_puts := [] |})
    as (image & Himg & Hname & Hw & Hh & Hl).
  { intros y Hy. apply in_seq in Hy.
    destruct (nth_error (pixel_rows xpm_data num_colors) y) as [row|] eqn:Hrow.
    - exists row. split; [now rewrite <- pixel_rows_nth|].
      rewrite Forall_forall in Hpix. apply Hpix. eapply nth_error_In, Hrow.
    - apply nth_error_None in Hrow. lia. }
  exists image. rewrite Himg. rewrite length_seq in Hl.
  repeat split; assumption.
Qed.

(** *** Blank-separated tokens *)

Lemma rstrip_cons (c : ascii) (s : string) :
  is_space c = false -> rstrip (String c s) = String c (rstrip s).
Proof.
  intros Hc. cbn [rstrip]. rewrite Hc. now destruct (rstrip s).
Qed.

Lemma split_from_word_nonempty (s : string) :
  forall w, split_from (Some w) s <> [].
Proof.
  induction s as [|c s IH]; intros w; cbn [split_from].
  - discriminate.
  - destruct (is_space c); [discriminate | apply IH].
Qed.

Lemma last_item_total (xs : list string) :
  xs <> [] -> exists x, last_item xs = Ok x.
Proof.
  intros Hxs. unfold last_item.
  destruct (rev xs) as [|x xs'] eqn:Hrev.
  - apply (f_equal (@rev string)) in Hrev. rewrite rev_involutive in Hrev.
    now destruct Hxs.
  - now exists x.
Qed.

(** A colour line always yields a colour, whatever the three components are. *)
Lemma color_line_total (key : ascii) (rgb : string) :
  exists color,
    last_item (split (strip (String key (" c #" ++ rgb)))) = Ok color.
Proof.
  apply last_item_total. unfold strip.
  assert (Hl : exists t, lstrip (String key (" c #" ++ rgb)) = String "c" t
                         \/ lstrip (String key (" c #" ++ rgb)) = String key t
                            /\ is_space key = false).
  { cbn [lstrip append]. destruct (is_space key) eqn:Hk.
    - eexists. left. reflexivity.
    - eexists. right. split; reflexivity. }
  destruct Hl as [t [Hl|[Hl Hk]]]; rewrite Hl.
  - rewrite rstrip_cons by reflexivity. unfold split. cbn [split_from].
    change (is_space "c") with false. cbn iota. apply split_from_word_nonempty.
  - rewrite rstrip_cons by assumption. unfold split. cbn [split_from].
    rewrite Hk. apply split_from_word_nonempty.
Qed.

Lemma rstrip_no_space (s : string) : no_space s = true -> rstrip s = s.
Proof.
  induction s as [|c s IH]; cbn [no_space]; intros H; [reflexivity|].
  apply andb_prop in H as [Hc Hs]. apply negb_true_iff in Hc.
  now rewrite rstrip_cons, IH.
Qed.

Lemma split_from_no_space (s : string) :
  no_space s = true -> forall w, split_from (Some w) s = [w ++ s].
Proof.
  induction s as [|c s IH]; cbn [no_space split_from]; intros H w.
  - f_equal. induction w; cbn; congruence.
  - apply andb_prop in H as [Hc Hs]. apply negb_true_iff in Hc. rewrite Hc.
    rewrite IH by assumption. f_equal.
    induction w; cbn; congruence.
Qed.

Lemma no_space_app (s t : string) :
  no_space (s ++ t) = no_space s && no_space t.
Proof.
  induction s as [|c s IH]; cbn; [reflexivity|]. now rewrite IH, andb_assoc.
Qed.

Lemma rstrip_color_tail (rgb : string) :
  no_space rgb = true -> rstrip ("c #" ++ rgb) = "c #" ++ rgb.
Proof.
  intros H. cbn [append]. rewrite rstrip_cons by reflexivity.
  cbn [rstrip]. rewrite rstrip_no_space by assumption.
  change (is_space "#") with false. now destruct rgb.
Qed.

Lemma split_color_tail (rgb : string) :
  no_space rgb = true -> split_from None ("c #" ++ rgb) = ["c"; "#" ++ rgb].
Proof.
  intros H. cbn [append split_from].
  change (is_space "c") with false. change (is_space " ") with true.
  change (is_space "#") with false. cbn iota.
  now rewrite split_from_no_space.
Qed.

(** With components free of blanks, the colour of a colour line is
    ["#" ++ red ++ green ++ blue], for the key [" "] as for the key ["."]. *)
Lemma color_line_value (key : string) (red green blue : string) :
  key = " " \/ key = "." ->
  no_space red = true -> no_space green = true -> no_space blue = true ->
  last_item (split (strip (key ++ " c #" ++ red ++ green ++ blue)))
  = Ok ("#" ++ red ++ green ++ blue).
Proof.
  intros Hkey Hr Hg Hb.
  assert (Hrgb : no_space (red ++ green ++ blue) = true)
    by (rewrite !no_space_app, Hr, Hg, Hb; reflexivity).
  set (rgb := red ++ green ++ blue) in *.
  unfold strip, split. destruct Hkey; subst key.
  - change (lstrip (" " ++ " c #" ++ rgb)) with ("c #" ++ rgb).
    now rewrite rstrip_color_tail, split_color_tail.
  - change (lstrip ("." ++ " c #" ++ rgb)) with (String "." (String " " ("c #" ++ rgb))).
    rewrite rstrip_cons by reflexivity.
    assert (Hsp : rstrip (String " " ("c #" ++ rgb)) = String " " ("c #" ++ rgb)).
    { change (rstrip (String " " ("c #" ++ rgb)))
        with (match rstrip ("c #" ++ rgb) with
              | EmptyString => EmptyString
              | t => String " " t
              end).
      now rewrite rstrip_color_tail. }
    rewrite Hsp.
    change (split_from None (String "." (String " " ("c #" ++ rgb))))
      with ("." :: split_from None ("c #" ++ rgb)).
    now rewrite split_color_tail.
Qed.

(** *** The two builders *)

Lemma color_map_step (xpm_data : list string) (i : nat) (range : list nat)
    (color_map : dict string) (line char color : string) :
  item xpm_data (i + 1) = Ok line ->
  first_char line = Ok char ->
  last_item (split (strip line)) = Ok color ->
  color_map_loop xpm_data (i :: range) color_map
  = color_map_loop xpm_data range (dict_set color_map char color).
Proof.
  intros Hl Hc Hcol. cbn [color_map_loop].
  rewrite Hl; cbn [rbind]. rewrite Hc; cbn [rbind]. now rewrite Hcol.
Qed.

Lemma header_single :
  parse_header (str_of_nat (Xpm_size * 2) ++ " " ++ str_of_nat (Xpm_size * 2) ++ " 1 1")
  = Ok (32, 32, 1, 1)%nat.
Proof. vm_compute. reflexivity. Qed.

Lemma header_alternate :
  parse_header (str_of_nat (Xpm_size * 2) ++ " " ++ str_of_nat (Xpm_size * 2) ++ " 2 1")
  = Ok (32, 32, 2, 1)%nat.
Proof. vm_compute. reflexivity. Qed.

Lemma pixel_rows_single (red green blue : string) :
  pixel_rows (SingleColorXpm red green blue) 1 = repeat blank_row (Xpm_size * 2).
Proof. reflexivity. Qed.

Lemma pixel_rows_alternate (red1 green1 blue1 red2 green2 blue2 : string) :
  pixel_rows (AlternateXpm red1 green1 blue1 red2 green2 blue2) 2
  = flat_map (fun _ => [dot_row; space_row]) (seq 0 Xpm_size).
Proof. reflexivity. Qed.

Lemma blank_row_pixel (x : nat) : (x < 32)%nat -> slice blank_row x (x + 1) = " ".
Proof.
  intros H. do 32 (destruct x as [|x]; [reflexivity|]). lia.
Qed.

Lemma dot_row_pixel (x : nat) :
  (x < 32)%nat -> slice dot_row x (x + 1) = if Nat.even x then "." else " ".
Proof.
  intros H. do 32 (destruct x as [|x]; [reflexivity|]). lia.
Qed.

Lemma space_row_pixel (x : nat) :
  (x < 32)%nat -> slice space_row x (x + 1) = if Nat.even x then " " else ".".
Proof.
  intros H. do 32 (destruct x as [|x]; [reflexivity|]). lia.
Qed.

Lemma alternate_row (y : nat) :
  (y < 32)%nat ->
  nth_error (flat_map (fun _ => [dot_row; space_row]) (seq 0 Xpm_size)) y
  = Some (if Nat.even y then dot_row else space_row).
Proof.
  intros H. do 32 (destruct y as [|y]; [reflexivity|]). lia.
Qed.

Lemma color_map_single (red green blue : string) :
  exists color,
    color_map_loop (SingleColorXpm red green blue) (seq 0 1) [] = Ok [(" ", color)] /\
    (no_space red = true -> no_space green = true -> no_space blue = true ->
     color = "#" ++ red ++ green ++ blue).
Proof.
  destruct (color_line_total " " (red ++ green ++ blue)) as [color Hc].
  exists color. split.
  - cbn [seq].
    rewrite (color_map_step (SingleColorXpm red green blue)
               0 [] [] ("  c #" ++ red ++ green ++ blue) " " color
               eq_refl eq_refl Hc).
    reflexivity.
  - intros Hr Hg Hb.
    pose proof (color_line_value " " red green blue (or_introl eq_refl) Hr Hg Hb) as Hv.
    change (" " ++ " c #" ++ red ++ green ++ blue)
      with (String " " (" c #" ++ red ++ green ++ blue)) in Hv.
    congruence.
Qed.

Lemma color_map_alternate (red1 green1 blue1 red2 green2 blue2 : string) :
  exists color1 color2,
    color_map_loop (AlternateXpm red1 green1 blue1 red2 green2 blue2) (seq 0 2) []
    = Ok [(" ", color1); (".", color2)] /\
    (no_space red1 = true -> no_space green1 = true -> no_space blue1 = true ->
     color1 = "#" ++ red1 ++ green1 ++ blue1) /\
    (no_space red2 = true -> no_space green2 = true -> no_space blue2 = true ->
     color2 = "#" ++ red2 ++ green2 ++ blue2).
Proof.
  destruct (color_line_total " " (red1 ++ green1 ++ blue1)) as [color1 Hc1].
  destruct (color_line_total "." (red2 ++ green2 ++ blue2)) as [color2 Hc2].
  exists color1, color2. split; [|split].
  - cbn [seq].
    rewrite (color_map_step (AlternateXpm red1 green1 blue1 red2 green2 blue2)
               0 [1%nat] [] ("  c #" ++ red1 ++ green1 ++ blue1) " " color1
               eq_refl eq_refl Hc1).
    rewrite (color_map_step (AlternateXpm red1 green1 blue1 red2 green2 blue2)
               1 [] _ (". c #" ++ red2 ++ green2 ++ blue2) "." color2
               eq_refl eq_refl Hc2).
    reflexivity.
  - intros Hr Hg Hb.
    pose proof (color_line_value " " red1 green1 blue1 (or_introl eq_refl) Hr Hg Hb) as Hv.
    change (" " ++ " c #" ++ red1 ++ green1 ++ blue1)
      with (String " " (" c #" ++ red1 ++ green1 ++ blue1)) in Hv.
    congruence.
  - intros Hr Hg Hb.
    pose proof (color_line_value "." red2 green2 blue2 (or_intror eq_refl) Hr Hg Hb) as Hv.
    change ("." ++ " c #" ++ red2 ++ green2 ++ blue2)
      with (String "." (" c #" ++ red2 ++ green2 ++ blue2)) in Hv.
    congruence.
Qed.

Lemma single_invariants (red green blue : string) :
  exists color,
    xpm_invariants 32 32 1 [(" ", color)] (SingleColorXpm red green blue).
Proof.
  destruct (color_map_single red green blue) as (color & Hcm & _).
  exists color. split; [|split; [exact Hcm|split; [reflexivity|]]].
  - eexists. split; [reflexivity | exact header_single].
  - rewrite pixel_rows_single. split; [apply repeat_length|].
    apply Forall_forall. intros row Hrow. apply repeat_spec in Hrow. subst row.
    split; [reflexivity|]. intros x Hx. now rewrite blank_row_pixel.
Qed.

Lemma alternate_invariants (red1 green1 blue1 red2 green2 blue2 : string) :
  exists color1 color2,
    xpm_invariants 32 32 2 [(" ", color1); (".", color2)]
      (AlternateXpm red1 green1 blue1 red2 green2 blue2).
Proof.
  destruct (color_map_alternate red1 green1 blue1 red2 green2 blue2)
    as (color1 & color2 & Hcm & _).
  exists color1, color2. split; [|split; [exact Hcm|split; [reflexivity|]]].
  - eexists. split; [reflexivity | exact header_alternate].
  - rewrite pixel_rows_alternate. split; [reflexivity|].
    apply Forall_forall. intros row Hrow. apply in_flat_map in Hrow.
    destruct Hrow as (_ & _ & [<-|[<-|[]]]).
    + split; [reflexivity|]. intros x Hx. rewrite dot_row_pixel by assumption.
      now destruct (Nat.even x).
    + split; [reflexivity|]. intros x Hx. rewrite space_row_pixel by assumption.
      now destruct (Nat.even x).
Qed.

Lemma format_02x_byte (n : Z) :
  0 <= n <= 255 ->
  two_lower_hex (format_02x n) = true /\ hex_value (format_02x n) = Some n.
Proof.
  intros Hn.
  assert (Hall : forallb (fun k => two_lower_hex (format_02x (Z.of_nat k))
                                   && match hex_value (format_02x (Z.of_nat k)) with
                                      | Some v => v =? Z.of_nat k
                                      | None => false
                                      end)
                         (seq 0 256) = true) by (vm_compute; reflexivity).
  rewrite forallb_forall in Hall.
  specialize (Hall (Z.to_nat n)). rewrite Z2Nat.id in Hall by lia.
  assert (Hin : In (Z.to_nat n) (seq 0 256)) by (apply in_seq; lia).
  apply Hall in Hin. apply andb_prop in Hin as [H1 H2].
  split; [assumption|].
  destruct (hex_value (format_02x n)) as [v|]; [|discriminate].
  apply Z.eqb_eq in H2. now subst.
Qed.

Lemma input_in_unit_interval (n : Z) :
  In n input_levels ->
  py_truediv (float_of_int n) 255 = Ok (float_of_int n / 255)%float /\
  (0 <=? float_of_int n / 255)%float = true /\
  (float_of_int n / 255 <=? 1)%float = true.
Proof.
  intros [<-|[<-|[<-|[<-|[<-|[]]]]]]; repeat split; vm_compute; reflexivity.
Qed.

Section Levels.

Variable libm_pow : float -> float -> float.

Lemma corrected_unfold (n : Z) (gamma : float) (w : float) :
  py_truediv 1 gamma = Ok w ->
  corrected libm_pow n gamma
  = (p <-? py_pow libm_pow (float_of_int n / 255) w ;; py_round (p * 255)).
Proof.
  intros Hw. unfold corrected. rewrite Hw. reflexivity.
Qed.

Hypothesis libm_pow_unit : pow_unit_interval libm_pow.

(** For a positive [gamma] every level is computed and lies in [0, 255]. *)
Lemma corrected_in_byte (n : Z) (gamma : float) :
  In n input_levels -> (0 <? gamma)%float = true ->
  exists p c,
    py_pow libm_pow (float_of_int n / 255) (1 / gamma) = Ok p /\
    py_round (p * 255) = Ok c /\
    corrected libm_pow n gamma = Ok c /\ 0 <= c <= 255.
Proof.
  intros Hn Hg.
  destruct (input_in_unit_interval n Hn) as (_ & Hv0 & Hv1).
  destruct (reciprocal_nonneg gamma Hg) as [Hw Hnn].
  destruct (py_pow_unit libm_pow libm_pow_unit _ _ Hv0 Hv1 Hnn) as (p & Hp & Hp0 & Hp1).
  destruct (py_round_at_most 255 (p * 255)) as (c & Hc & Hrange);
    [lia | now apply mul_255_at_most |].
  exists p, c. rewrite (corrected_unfold n gamma _ Hw), Hp. cbn [rbind].
  repeat split; try assumption; lia.
Qed.

End Levels.

(** *** Dictionaries *)

Lemma dict_get_view (images : dict PhotoImage) (k : string) :
  dict_get (dict_view images) k = option_map image_view (dict_get images k).
Proof.
  induction images as [|[k' v] images IH]; cbn; [reflexivity|].
  now destruct (String.eqb k k').
Qed.

Lemma dict_set_view (images : dict PhotoImage) (k : string) (v : PhotoImage) :
  dict_view (dict_set images k v) = dict_set (dict_view images) k (image_view v).
Proof.
  induction images as [|[k' v'] images IH]; cbn; [reflexivity|].
  destruct (String.eqb k k'); cbn; [reflexivity|]. f_equal. exact IH.
Qed.

Lemma dict_mem_set {V : Type} (d : dict V) (k k' : string) (v : V) :
  dict_mem (dict_set d k v) k' = String.eqb k' k || dict_mem d k'.
Proof.
  unfold dict_mem.
  induction d as [|[k0 v0] d IH]; cbn.
  - now destruct (String.eqb k' k).
  - destruct (String.eqb k k0) eqn:E; cbn.
    + apply String.eqb_eq in E. subst k0.
      now destruct (String.eqb k' k).
    + destruct (String.eqb k' k0); [now rewrite orb_true_r|]. exact IH.
Qed.

(** *** Image construction does not depend on the interpreter state *)

Lemma image_loop_view (xpm_data : list string) (color_map : dict string)
    (width num_colors cpp : nat) (range : list nat) :
  forall image1 image2,
    image_view image1 = image_view image2 ->
    match image_loop xpm_data color_map width num_colors cpp range image1,
          image_loop xpm_data color_map width num_colors cpp range image2 with
    | Ok r1, Ok r2 => image_view r1 = image_view r2
    | Err e1, Err e2 => e1 = e2
    | _, _ => False
    end.
Proof.
  induction range as [|y range IH]; intros image1 image2 Hv; cbn [image_loop].
  - exact Hv.
  - destruct (item xpm_data (y + 1 + num_colors)) as [row|e]; cbn [rbind];
      [|reflexivity].
    destruct (row_loop color_map row cpp (seq 0 width) "") as [row_str|e];
      cbn [rbind]; [|reflexivity].
    apply IH. unfold image_view, put in *. cbn. congruence.
Qed.

Lemma create_photo_image_view (xpm_data : list string) (s1 s2 : tk_state) :
  outcome image_view (create_photo_image xpm_data s1)
  = outcome image_view (create_photo_image xpm_data s2).
Proof.
  unfold create_photo_image, bind, lift.
  destruct (item xpm_data 0) as [header|e]; [|reflexivity].
  destruct (parse_header header) as [[[[width height] num_colors] cpp]|e];
    [|reflexivity].
  destruct (color_map_loop xpm_data (seq 0 num_colors) []) as [color_map|e];
    [|reflexivity].
  unfold new_PhotoImage.
  pose proof (image_loop_view xpm_data color_map width num_colors cpp (seq 0 height)
                {| image_name := S (last_id s1); image_width := width;
                   image_height := height; image_puts := [] |}
                {| image_name := S (last_id s2); image_width := width;
                   image_height := height; image_puts := [] |} eq_refl) as H.
  destruct (image_loop _ _ _ _ _ _ _) as [r1|e1], (image_loop _ _ _ _ _ _ _) as [r2|e2];
    cbn; try contradiction; congruence.
Qed.

Lemma create_images_view (entries : list (string * list string)) :
  forall images1 images2 s1 s2,
    dict_view images1 = dict_view images2 ->
    outcome dict_view (create_images entries images1 s1)
    = outcome dict_view (create_images entries images2 s2).
Proof.
  induction entries as [|[key xpm_data] entries IH]; intros images1 images2 s1 s2 Hv;
    cbn [create_images].
  - cbn. now rewrite Hv.
  - unfold bind.
    pose proof (create_photo_image_view xpm_data s1 s2) as H.
    destruct (create_photo_image xpm_data s1) as [[i1 s1']|e1],
             (create_photo_image xpm_data s2) as [[i2 s2']|e2];
      cbn in H; try discriminate.
    + apply IH. rewrite !dict_set_view. congruence.
    + cbn. congruence.
Qed.

(** *** The placement loops *)

Lemma place_pattern_view (images1 images2 : dict PhotoImage) (xpm_side : nat)
    (color_name : string) (row_offset col_offset : nat)
    (items1 items2 : list canvas_item) (pattern : string * nat * nat) :
  dict_view images1 = dict_view images2 ->
  map item_view items1 = map item_view items2 ->
  map item_view (place_pattern images1 xpm_side color_name row_offset col_offset items1 pattern)
  = map item_view (place_pattern images2 xpm_side color_name row_offset col_offset items2 pattern).
Proof.
  intros Hd Hi. destruct pattern as [[pattern_name col] row]. cbn [place_pattern].
  pose proof (dict_get_view images1 (color_name ++ "_" ++ pattern_name)) as H1.
  pose proof (dict_get_view images2 (color_name ++ "_" ++ pattern_name)) as H2.
  rewrite Hd, H2 in H1.
  destruct (dict_get images1 _) as [i1|], (dict_get images2 _) as [i2|];
    cbn in H1; try discriminate; [|assumption].
  rewrite !map_app, Hi. cbn. unfold item_view at 2 4. cbn. congruence.
Qed.

Lemma place_color_view (images1 images2 : dict PhotoImage) (xpm_side : nat)
    (entry : string * nat * nat) :
  dict_view images1 = dict_view images2 ->
  forall items1 items2,
    map item_view items1 = map item_view items2 ->
    map item_view (place_color images1 xpm_side items1 entry)
    = map item_view (place_color images2 xpm_side items2 entry).
Proof.
  intros Hd. destruct entry as [[color_name row_offset] col_offset].
  unfold place_color. induction patterns as [|p ps IH]; intros items1 items2 Hi.
  - exact Hi.
  - cbn [fold_left]. apply IH. now apply place_pattern_view.
Qed.

Lemma place_layout_view (images1 images2 : dict PhotoImage) (xpm_side : nat)
    (entries : list (string * nat * nat)) :
  dict_view images1 = dict_view images2 ->
  forall items1 items2,
    map item_view items1 = map item_view items2 ->
    map item_view (fold_left (place_color images1 xpm_side) entries items1)
    = map item_view (fold_left (place_color images2 xpm_side) entries items2).
Proof.
  intros Hd. induction entries as [|entry entries IH]; intros items1 items2 Hi.
  - exact Hi.
  - cbn [fold_left]. apply IH. now apply place_color_view.
Qed.

Lemma dict_view_values (images1 images2 : dict PhotoImage) :
  dict_view images1 = dict_view images2 ->
  map image_view (map snd images1) = map image_view (map snd images2).
Proof.
  intros H. apply (f_equal (map snd)) in H. unfold dict_view in H.
  rewrite !map_map in H. rewrite !map_map. exact H.
Qed.

Lemma GammaChart_view (libm_pow : float -> float -> float) (gamma : float)
    (s1 s2 : tk_state) :
  outcome chart_view (GammaChart libm_pow gamma s1)
  = outcome chart_view (GammaChart libm_pow gamma s2).
Proof.
  unfold GammaChart, chart_images, bind, lift, ret.
  destruct (chart_levels libm_pow gamma) as [l|e]; [|reflexivity].
  pose proof (create_images_view (image_data l) [] [] s1 s2 eq_refl) as H.
  destruct (create_images (image_data l) [] s1) as [[images1 s1']|e1],
           (create_images (image_data l) [] s2) as [[images2 s2']|e2];
    cbn in H; try discriminate; [|cbn; congruence].
  injection H as H. unfold outcome, chart_view.
  cbn [chart_width chart_height _images chart_items].
  rewrite (dict_view_values _ _ H).
  now rewrite (place_layout_view images1 images2 _ layout H [] [] eq_refl).
Qed.

Lemma xy_eqb_eq (a b : nat * nat) : xy_eqb a b = true <-> a = b.
Proof.
  destruct a as [a1 a2], b as [b1 b2]. unfold xy_eqb. cbn.
  rewrite andb_true_iff, !Nat.eqb_eq. split; [intros []|intros [= -> ->]]; subst; auto.
Qed.

Lemma distinct_NoDup (l : list (nat * nat)) : distinct l = true -> NoDup l.
Proof.
  induction l as [|a l IH]; cbn; intros H; constructor.
  - apply andb_prop in H as [H _]. apply negb_true_iff in H.
    intros Hin. assert (existsb (xy_eqb a) l = true); [|congruence].
    apply existsb_exists. exists a. split; [assumption | now apply xy_eqb_eq].
  - apply IH. now apply andb_prop in H as [_ H].
Qed.

Lemma place_pattern_xy (images : dict PhotoImage) (xpm_side : nat)
    (color_name : string) (row_offset col_offset : nat)
    (items : list canvas_item) (pattern_name : string) (col row : nat) :
  map item_xy (place_pattern images xpm_side color_name row_offset col_offset items
                 (pattern_name, col, row))
  = (map item_xy items ++
     (if dict_mem images (color_name ++ "_" ++ pattern_name)
      then [((col + col_offset) * xpm_side, (row + row_offset) * xpm_side)%nat]
      else []))%list.
Proof.
  cbn [place_pattern]. unfold dict_mem.
  destruct (dict_get images (color_name ++ "_" ++ pattern_name)) as [image|].
  - now rewrite map_app.
  - now rewrite app_nil_r.
Qed.

Lemma place_patterns_xy (images : dict PhotoImage) (xpm_side : nat)
    (color_name : string) (row_offset col_offset : nat)
    (pats : list (string * nat * nat)) :
  forall items,
    map item_xy (fold_left (place_pattern images xpm_side color_name row_offset col_offset)
                   pats items)
    = (map item_xy items ++
       flat_map (fun pattern : string * nat * nat =>
         let '(pattern_name, col, row) := pattern in
         if dict_mem images (color_name ++ "_" ++ pattern_name)
         then [((col + col_offset) * xpm_side, (row + row_offset) * xpm_side)%nat]
         else [])
         pats)%list.
Proof.
  induction pats as [|[[pattern_name col] row] pats IH]; intros items; cbn [fold_left flat_map].
  - now rewrite app_nil_r.
  - rewrite IH, place_pattern_xy, <- app_assoc. reflexivity.
Qed.

Lemma fold_left_cons {A B : Type} (f : A -> B -> A) (x : B) (l : list B) (a : A) :
  fold_left f (x :: l) a = fold_left f l (f a x).
Proof. reflexivity. Qed.

Lemma place_color_xy (images : dict PhotoImage) (xpm_side : nat)
    (items : list canvas_item) (entry : string * nat * nat) :
  map item_xy (place_color images xpm_side items entry)
  = (map item_xy items ++ section_xy (dict_mem images) xpm_side entry)%list.
Proof.
  destruct entry as [[color_name row_offset] col_offset].
  unfold place_color, section_xy. apply place_patterns_xy.
Qed.

(** The placement loops never fail: they put one image for each pattern
    whose key the dictionary has, section after section. *)
Lemma place_layout_xy (images : dict PhotoImage) (xpm_side : nat)
    (entries : list (string * nat * nat)) :
  forall items,
    map item_xy (fold_left (place_color images xpm_side) entries items)
    = (map item_xy items ++ flat_map (section_xy (dict_mem images) xpm_side) entries)%list.
Proof.
  induction entries as [|entry entries IH]; intros items.
  - cbn [fold_left flat_map]. now rewrite app_nil_r.
  - rewrite fold_left_cons, IH, place_color_xy, <- app_assoc. reflexivity.
Qed.

Lemma placed_xy_ext (f g : string -> bool) (xpm_side : nat) :
  (forall k, f k = g k) -> placed_xy f xpm_side = placed_xy g xpm_side.
Proof.
  intros H. unfold placed_xy.
  apply flat_map_ext. intros [[color_name row_offset] col_offset].
  apply flat_map_ext. intros [[pattern_name col] row]. now rewrite H.
Qed.

(** *** All images of a chart are created *)

Lemma dict_set_Forall {V : Type} (P : V -> Prop) (d : dict V) (k : string) (v : V) :
  Forall (fun entry => P (snd entry)) d -> P v ->
  Forall (fun entry => P (snd entry)) (dict_set d k v).
Proof.
  intros Hd Hv. induction Hd as [|[k' v'] d Hhd Htl IH]; cbn [dict_set].
  - now repeat constructor.
  - destruct (String.eqb k k'); constructor; assumption.
Qed.

Lemma create_images_total (side : nat) (entries : list (string * list string)) :
  Forall (fun entry => tile_data side (snd entry)) entries ->
  forall images s,
    Forall (fun entry => tile_sized side (snd entry)) images ->
    exists images',
      create_images entries images s
      = Ok (images', {| last_id := (last_id s + List.length entries)%nat |}) /\
      Forall (fun entry => tile_sized side (snd entry)) images' /\
      forall k, dict_mem images' k
                = dict_mem images k || existsb (String.eqb k) (map fst entries).
Proof.
  induction 1 as [|[key xpm_data] entries Hwf _ IH]; intros images s Himages;
    cbn [create_images].
  - exists images. rewrite Nat.add_0_r. destruct s as [n].
    split; [reflexivity|]. split; [assumption|].
    intros k. cbn. now rewrite orb_false_r.
  - cbn [snd] in Hwf. destruct Hwf as (num_colors & color_map & Hwf).
    destruct (create_photo_image_total _ _ _ _ _ Hwf s)
      as (image & Himg & _ & Hw & Hh & Hl).
    unfold bind. rewrite Himg.
    destruct (IH (dict_set images key image) {| last_id := S (last_id s) |})
      as (images' & Hrun & Hsized & Hkeys).
    { apply dict_set_Forall; [assumption | now repeat split]. }
    exists images'. split; [|split; [exact Hsized|]].
    + rewrite Hrun. cbn [last_id List.length]. do 3 f_equal. lia.
    + intros k. rewrite Hkeys, dict_mem_set. cbn [map fst existsb].
      destruct (String.eqb k key), (dict_mem images k); reflexivity.
Qed.

Lemma single_tile (red green blue : string) :
  tile_data 32 (SingleColorXpm red green blue).
Proof.
  destruct (single_invariants red green blue) as [color H].
  now exists 1%nat, [(" ", color)].
Qed.

Lemma alternate_tile (red1 green1 blue1 red2 green2 blue2 : string) :
  tile_data 32 (AlternateXpm red1 green1 blue1 red2 green2 blue2).
Proof.
  destruct (alternate_invariants red1 green1 blue1 red2 green2 blue2)
    as (color1 & color2 & H).
  now exists 2%nat, [(" ", color1); (".", color2)].
Qed.

Lemma image_data_tiles (l : levels) :
  Forall (fun entry => tile_data 32 (snd entry)) (image_data l).
Proof.
  unfold image_data.
  repeat (constructor; [first [apply single_tile | apply alternate_tile]|]).
  constructor.
Qed.

(** The grid of a chart: 144 cells, each hit once. *)
Lemma grid_full (l : levels) :
  let xy := placed_xy (fun k => existsb (String.eqb k) (map fst (image_data l)))
              (Xpm_size * 2) in
  List.length xy = 144%nat /\ distinct xy = true /\
  forallb (fun row => forallb (fun col => existsb (xy_eqb (col * 32, row * 32)%nat) xy)
                        (seq 0 12)) (seq 0 12) = true.
Proof.
  change (map fst (image_data l))
    with ["all_a025"; "all_a050"; "all_a075"; "all_s025"; "all_s050"; "all_s075";
          "red_a025"; "red_a050"; "red_a075"; "red_s025"; "red_s050"; "red_s075";
          "green_a025"; "green_a050"; "green_a075"; "green_s025"; "green_s050"; "green_s075";
          "blue_a025"; "blue_a050"; "blue_a075"; "blue_s025"; "blue_s050"; "blue_s075"].
  vm_compute. repeat split; reflexivity.
Qed.

(** *** The whole construction *)

Lemma GammaChart_runs (libm_pow : float -> float -> float) (gamma : float)
    (l : levels) (s : tk_state) :
  chart_levels libm_pow gamma = Ok l ->
  exists images,
    chart_images libm_pow gamma s = Ok (images, {| last_id := (last_id s + 24)%nat |}) /\
    Forall (fun entry => tile_sized 32 (snd entry)) images /\
    (forall k, dict_mem images k = existsb (String.eqb k) (map fst (image_data l))) /\
    GammaChart libm_pow gamma s
    = Ok ({| chart_width := 384; chart_height := 384; _images := map snd images;
             chart_items := fold_left (place_color images 32) layout [] |},
          {| last_id := (last_id s + 24)%nat |}).
Proof.
  intros Hl.
  destruct (create_images_total 32 (image_data l) (image_data_tiles l) [] s (Forall_nil _))
    as (images & Hrun & Hsized & Hkeys).
  change (List.length (image_data l)) with 24%nat in Hrun.
  assert (Himages : chart_images libm_pow gamma s
                    = Ok (images, {| last_id := (last_id s + 24)%nat |})).
  { unfold chart_images, bind, lift. now rewrite Hl. }
  exists images. split; [exact Himages|]. split; [exact Hsized|]. split; [exact Hkeys|].
  unfold GammaChart, bind. rewrite Himages. reflexivity.
Qed.

(** Every canvas item shows an image of the dictionary. *)
Lemma place_layout_images (images : dict PhotoImage) (xpm_side : nat)
    (P : PhotoImage -> Prop) :
  Forall (fun entry => P (snd entry)) images ->
  forall entries items,
    Forall (fun it => P (item_image it)) items ->
    Forall (fun it => P (item_image it))
           (fold_left (place_color images xpm_side) entries items).
Proof.
  intros Himages.
  assert (Hget : forall k image, dict_get images k = Some image -> P image).
  { intros k image. induction Himages as [|[k' v'] d Hhd Htl IH]; cbn; [discriminate|].
    destruct (String.eqb k k'); [intros [= <-]; exact Hhd | exact IH]. }
  assert (Hpat : forall c ro co pats items,
             Forall (fun it => P (item_image it)) items ->
             Forall (fun it => P (item_image it))
                    (fold_left (place_pattern images xpm_side c ro co) pats items)).
  { intros c ro co pats. induction pats as [|[[pn col] row] pats IH]; intros items Hi.
    - exact Hi.
    - cbn [fold_left]. apply IH. cbn [place_pattern].
      destruct (dict_get images (c ++ "_" ++ pn)) as [image|] eqn:E; [|exact Hi].
      apply Forall_app. split; [exact Hi|]. constructor; [|constructor].
      cbn. eapply Hget, E. }
  induction entries as [|[[c ro] co] entries IH]; intros items Hi.
  - exact Hi.
  - rewrite fold_left_cons. apply IH. unfold place_color. now apply Hpat.
Qed.

(** *** The stand-in for [pow] *)

Lemma ltb_leb (x y : float) : (x <? y)%float = true -> (x <=? y)%float = true.
Proof.
  rewrite ltb_spec, leb_spec. unfold SFltb, SFleb.
  destruct (SFcompare (Prim2SF x) (Prim2SF y)) as [[| |]|]; congruence.
Qed.

Lemma pow_at_exponent_one_unit : pow_unit_interval pow_at_exponent_one.
Proof.
  intros x y Hx0 Hx1 _ _. unfold pow_at_exponent_one. split; now apply ltb_leb.
Qed.

Lemma pow_at_exponent_one_exact : pow_near_exact_at_one pow_at_exponent_one.
Proof. intros x. right. left. reflexivity. Qed.

(** *** The levels for [gamma = 1.0] *)

Section GammaOne.

Variable libm_pow : float -> float -> float.

Hypothesis libm_pow_one : pow_near_exact_at_one libm_pow.

Lemma corrected_middle (n : Z) (m : positive) (e : Z) :
  Prim2SF (float_of_int n / 255) = S754_finite false m e -> (e <=? -53) = true ->
  (forall p, p = next_down (float_of_int n / 255) \/ p = (float_of_int n / 255)%float \/
             p = next_up (float_of_int n / 255) ->
             is_infinity p = false /\ py_round (p * 255) = Ok n) ->
  corrected libm_pow n 1 = Ok n.
Proof.
  intros Hv He Hcand. apply Z.leb_le in He.
  rewrite (corrected_unfold libm_pow n 1 1 eq_refl).
  rewrite (py_pow_calls_libm libm_pow _ 1 m 4503599627370496 e (-52) Hv He eq_refl).
  destruct (Hcand _ (libm_pow_one (float_of_int n / 255)%float)) as [Hfin Hround].
  rewrite Hfin. exact Hround.
Qed.

Lemma corrected_at_one (n : Z) :
  In n input_levels -> corrected libm_pow n 1 = Ok n.
Proof.
  intros [<-|[<-|[<-|[<-|[<-|[]]]]]].
  - vm_compute. reflexivity.
  - eapply corrected_middle; [vm_compute; reflexivity | reflexivity |].
    intros p [->|[->| ->]]; vm_compute; split; reflexivity.
  - eapply corrected_middle; [vm_compute; reflexivity | reflexivity |].
    intros p [->|[->| ->]]; vm_compute; split; reflexivity.
  - eapply corrected_middle; [vm_compute; reflexivity | reflexivity |].
    intros p [->|[->| ->]]; vm_compute; split; reflexivity.
  - vm_compute. reflexivity.
Qed.

Lemma levels_at_one :
  chart_levels libm_pow 1
  = Ok {| v000 := "00"; v025 := "3f"; v050 := "7f"; v075 := "bf"; v100 := "ff" |}.
Proof.
  unfold chart_levels, level.
  rewrite !corrected_at_one by (cbn; tauto).
  reflexivity.
Qed.

End GammaOne.

(** *** The levels for a positive [gamma] *)

Lemma chart_levels_total (libm_pow : float -> float -> float) (gamma : float) :
  pow_unit_interval libm_pow -> (0 <? gamma)%float = true ->
  exists l, chart_levels libm_pow gamma = Ok l.
Proof.
  intros Hpow Hg. unfold chart_levels, level.
  destruct (corrected_in_byte libm_pow Hpow 0 gamma) as (_ & c0 & _ & _ & -> & _);
    [cbn; tauto | assumption |].
  destruct (corrected_in_byte libm_pow Hpow 63 gamma) as (_ & c1 & _ & _ & -> & _);
    [cbn; tauto | assumption |].
  destruct (corrected_in_byte libm_pow Hpow 127 gamma) as (_ & c2 & _ & _ & -> & _);
    [cbn; tauto | assumption |].
  destruct (corrected_in_byte libm_pow Hpow 191 gamma) as (_ & c3 & _ & _ & -> & _);
    [cbn; tauto | assumption |].
  destruct (corrected_in_byte libm_pow Hpow 255 gamma) as (_ & c4 & _ & _ & -> & _);
    [cbn; tauto | assumption |].
  eexists. reflexivity.
Qed.

(** *** Rounding and the power, as the specification reads them *)



Section Power.

Variable libm_pow : float -> float -> float.

Hypothesis libm_pow_unit : pow_unit_interval libm_pow.


End Power.

(** ** The claims *)

(** C1, as amended.  For every positive [gamma] (and a [pow] that keeps the
    unit interval), constructing a chart succeeds and makes exactly 144
    placements, not 96: four sections of 36 patterns.  The canvas is 384 x 384,
    every placed image is a 32 x 32 tile, no two placements share a
    coordinate and every cell of the 12 x 12 grid is hit. *)
Theorem chart_fills_the_grid (libm_pow : float -> float -> float) (gamma : float)
    (s : tk_state) :
  pow_unit_interval libm_pow -> (0 <? gamma)%float = true ->
  exists c s',
    GammaChart libm_pow gamma s = Ok (c, s') /\
    chart_width c = 384%nat /\ chart_height c = 384%nat /\
    List.length (chart_items c) = 144%nat /\
    Forall (fun it => tile_sized 32 (item_image it)) (chart_items c) /\
    NoDup (map item_xy (chart_items c)) /\
    forall row col, (row < 12)%nat -> (col < 12)%nat ->
                    In (col * 32, row * 32)%nat (map item_xy (chart_items c)).
Proof.
  intros Hpow Hg.
  destruct (chart_levels_total libm_pow gamma Hpow Hg) as [l Hl].
  destruct (GammaChart_runs libm_pow gamma l s Hl) as (images & _ & Hsized & Hkeys & Hrun).
  eexists _, _. split; [exact Hrun|]. cbn [chart_width chart_height chart_items].
  assert (Hxy : map item_xy (fold_left (place_color images 32) layout [])
                = placed_xy (fun k => existsb (String.eqb k) (map fst (image_data l))) 32).
  { rewrite place_layout_xy. cbn [map app]. now apply placed_xy_ext. }
  destruct (grid_full l) as (Hlen & Hdistinct & Hfull).
  change (Xpm_size * 2)%nat with 32%nat in Hlen, Hdistinct, Hfull.
  repeat split.
  - rewrite <- (length_map item_xy), Hxy. exact Hlen.
  - apply place_layout_images; [exact Hsized | constructor].
  - rewrite Hxy. now apply distinct_NoDup.
  - intros row col Hrow Hcol. rewrite Hxy.
    rewrite forallb_forall in Hfull.
    specialize (Hfull row ltac:(apply in_seq; lia)).
    rewrite forallb_forall in Hfull.
    specialize (Hfull col ltac:(apply in_seq; lia)).
    apply existsb_exists in Hfull as (xy & Hin & Heq).
    apply xy_eqb_eq in Heq. now subst xy.
Qed.

Lemma chart_fills_the_grid_witness :
  exists c s',
    GammaChart pow_at_exponent_one 1 {| last_id := 0 |} = Ok (c, s') /\
    chart_width c = 384%nat /\ chart_height c = 384%nat /\
    List.length (chart_items c) = 144%nat /\
    Forall (fun it => tile_sized 32 (item_image it)) (chart_items c) /\
    NoDup (map item_xy (chart_items c)) /\
    forall row col, (row < 12)%nat -> (col < 12)%nat ->
                    In (col * 32, row * 32)%nat (map item_xy (chart_items c)).
Proof.
  apply (chart_fills_the_grid pow_at_exponent_one 1 {| last_id := 0 |}).
  - exact pow_at_exponent_one_unit.
  - reflexivity.
Defined.

(** C1 as stated fails: the chart for [gamma = 1.0] has 144 placements. *)
Lemma chart_placements_are_not_96 :
  outcome (fun c => List.length (chart_items c))
          (GammaChart pow_at_exponent_one 1 {| last_id := 0 |}) = Ok 144%nat /\
  144%nat <> 96%nat.
Proof.
  split; [vm_compute; reflexivity | discriminate].
Qed.



(** C3, as amended.  In the checkerboard pixel map the symbol table lists
    [" "] first and ["."] second, and for all [row, col < 32] the pixel at
    [(row, col)] is the second symbol ["."] when [row + col] is even and the
    first symbol [" "] otherwise. *)
Theorem checkerboard_pixels (red1 green1 blue1 red2 green2 blue2 : string)
    (row col : nat) :
  (row < 32)%nat -> (col < 32)%nat ->
  let xpm_data := AlternateXpm red1 green1 blue1 red2 green2 blue2 in
  (exists color1 color2,
     color_map_loop xpm_data (seq 0 2) [] = Ok [(" ", color1); (".", color2)]) /\
  pixel xpm_data 2 row col = Ok (if Nat.even (row + col) then "." else " ").
Proof.
  intros Hrow Hcol xpm_data. split.
  - destruct (color_map_alternate red1 green1 blue1 red2 green2 blue2)
      as (color1 & color2 & H & _).
    now exists color1, color2.
  - unfold pixel, item. rewrite <- pixel_rows_nth.
    unfold xpm_data. rewrite pixel_rows_alternate, alternate_row by assumption.
    cbn [rbind]. rewrite Nat.even_add.
    destruct (Nat.even row).
    + rewrite dot_row_pixel by assumption. now destruct (Nat.even col).
    + rewrite space_row_pixel by assumption. now destruct (Nat.even col).
Qed.

Lemma checkerboard_pixels_witness :
  let xpm_data := AlternateXpm "00" "00" "00" "7f" "7f" "7f" in
  (exists color1 color2,
     color_map_loop xpm_data (seq 0 2) [] = Ok [(" ", color1); (".", color2)]) /\
  pixel xpm_data 2 3 4 = Ok (if Nat.even (3 + 4) then "." else " ").
Proof.
  apply (checkerboard_pixels "00" "00" "00" "7f" "7f" "7f" 3 4); lia.
Defined.

(** C3 as stated fails at the origin: [0 + 0] is even, and the pixel is
    ["."], the second symbol of the table, which stands for the second
    colour. *)
Lemma checkerboard_origin_is_second_symbol :
  let xpm_data := AlternateXpm "00" "00" "00" "7f" "7f" "7f" in
  color_map_loop xpm_data (seq 0 2) [] = Ok [(" ", "#000000"); (".", "#7f7f7f")] /\
  Nat.even (0 + 0) = true /\
  pixel xpm_data 2 0 0 = Ok "." /\
  "." <> " ".
Proof.
  repeat split; try (vm_compute; reflexivity). discriminate.
Qed.

(** C4, as amended.  For [gamma = 1.0] (and a [pow] that is exact up to one
    unit in the last place at exponent 1) the levels are 00, 3f, 7f, bf, ff
    and the 24 tiles are those of [gamma_one_tiles]: each two-tone tile is a
    checkerboard of two colours, each single-tone tile has one colour, and
    the single-tone level is the mean of the two levels of the two-tone tile
    rounded down (3f of 00 and 7f, 7f of 00 and ff, bf of 7f and ff).  The
    colours of a two-tone and of a single-tone tile are not identical. *)
Theorem tiles_at_gamma_one (libm_pow : float -> float -> float) (s : tk_state) :
  pow_near_exact_at_one libm_pow ->
  chart_levels libm_pow 1
  = Ok {| v000 := "00"; v025 := "3f"; v050 := "7f"; v075 := "bf"; v100 := "ff" |} /\
  outcome tiles_view (chart_images libm_pow 1 s) = Ok gamma_one_tiles /\
  hex_value "3f" = option_map (fun hi => (0 + hi) / 2) (hex_value "7f") /\
  hex_value "7f" = option_map (fun hi => (0 + hi) / 2) (hex_value "ff") /\
  hex_value "bf" = option_map (fun hi => (127 + hi) / 2) (hex_value "ff").
Proof.
  intros Hpow. split; [now apply levels_at_one|]. split.
  - unfold chart_images, bind, lift. rewrite (levels_at_one libm_pow Hpow).
    vm_compute. reflexivity.
  - repeat split; vm_compute; reflexivity.
Qed.

Lemma tiles_at_gamma_one_witness :
  chart_levels pow_at_exponent_one 1
  = Ok {| v000 := "00"; v025 := "3f"; v050 := "7f"; v075 := "bf"; v100 := "ff" |} /\
  outcome tiles_view (chart_images pow_at_exponent_one 1 {| last_id := 0 |})
  = Ok gamma_one_tiles /\
  hex_value "3f" = option_map (fun hi => (0 + hi) / 2) (hex_value "7f") /\
  hex_value "7f" = option_map (fun hi => (0 + hi) / 2) (hex_value "ff") /\
  hex_value "bf" = option_map (fun hi => (127 + hi) / 2) (hex_value "ff").
Proof.
  apply (tiles_at_gamma_one pow_at_exponent_one {| last_id := 0 |}).
  exact pow_at_exponent_one_exact.
Defined.

(** C4 as stated fails: at [gamma = 1.0] the two-tone tile of the 50% level
    alternates white and black while the single-tone tile is grey 7f. *)
Lemma two_tone_differs_from_single_tone :
  outcome (fun images =>
             (option_map tile_colors (dict_get images "all_a050"),
              option_map tile_colors (dict_get images "all_s050")))
          (chart_images pow_at_exponent_one 1 {| last_id := 0 |})
  = Ok (Some (checker_tile "#000000" "#ffffff"), Some (uniform_tile "#7f7f7f")) /\
  checker_tile "#000000" "#ffffff" <> uniform_tile "#7f7f7f".
Proof.
  split; [vm_compute; reflexivity|].
  intros H. apply (f_equal (fun t => nth 0 (nth 0 t []) "")) in H.
  vm_compute in H. discriminate H.
Qed.

(** C5.  Every pixel map of the uniform or of the checkerboard builder keeps
    the invariants: the header declares 32 x 32 pixels, which is the number
    of pixel rows and the length of each row, and 1 or 2 colours, which is
    the size of the symbol table; every symbol of a pixel row is in the
    table.  So image construction never fails on it: it returns an image of
    that size, under the next free name. *)
Theorem builders_keep_invariants :
  (forall red green blue,
     (exists color,
        xpm_invariants 32 32 1 [(" ", color)] (SingleColorXpm red green blue)) /\
     forall s, exists image,
       create_photo_image (SingleColorXpm red green blue) s
       = Ok (image, {| last_id := S (last_id s) |}) /\
       image_width image = 32%nat /\ image_height image = 32%nat) /\
  (forall red1 green1 blue1 red2 green2 blue2,
     (exists color1 color2,
        xpm_invariants 32 32 2 [(" ", color1); (".", color2)]
          (AlternateXpm red1 green1 blue1 red2 green2 blue2)) /\
     forall s, exists image,
       create_photo_image (AlternateXpm red1 green1 blue1 red2 green2 blue2) s
       = Ok (image, {| last_id := S (last_id s) |}) /\
       image_width image = 32%nat /\ image_height image = 32%nat).
Proof.
  split.
  - intros red green blue.
    destruct (single_invariants red green blue) as [color H].
    split; [now exists color|]. intros s.
    destruct (create_photo_image_total _ _ _ _ _ H s) as (image & Hrun & _ & Hw & Hh & _).
    now exists image.
  - intros red1 green1 blue1 red2 green2 blue2.
    destruct (alternate_invariants red1 green1 blue1 red2 green2 blue2)
      as (color1 & color2 & H).
    split; [now exists color1, color2|]. intros s.
    destruct (create_photo_image_total _ _ _ _ _ H s) as (image & Hrun & _ & Hw & Hh & _).
    now exists image.
Qed.

(** C6.  For [gamma = 1.0] (and a [pow] that is exact up to one unit in the
    last place at exponent 1) the corrected level of each of the five inputs
    is the input itself. *)
Theorem gamma_one_is_identity (libm_pow : float -> float -> float) :
  pow_near_exact_at_one libm_pow ->
  Forall (fun n => corrected libm_pow n 1 = Ok n /\
                   level libm_pow n 1 = Ok (format_02x n))
         input_levels.
Proof.
  intros Hpow. apply Forall_forall. intros n Hn.
  pose proof (corrected_at_one libm_pow Hpow n Hn) as H.
  split; [exact H|]. unfold level. now rewrite H.
Qed.

Lemma gamma_one_is_identity_witness :
  Forall (fun n => corrected pow_at_exponent_one n 1 = Ok n /\
                   level pow_at_exponent_one n 1 = Ok (format_02x n))
         input_levels.
Proof.
  apply (gamma_one_is_identity pow_at_exponent_one).
  exact pow_at_exponent_one_exact.
Defined.

(** C7.  For each of the gamma values 2.2, 2.0, 1.8, 1.0 of the notebook and
    each of the five inputs (and a [pow] that keeps the unit interval) the
    corrected level lies in [0, 255], so its two-digit format has exactly two
    characters. *)
Theorem notebook_levels_fit_a_byte (libm_pow : float -> float -> float) :
  pow_unit_interval libm_pow ->
  Forall (fun gamma =>
            Forall (fun n => exists c,
                      corrected libm_pow n gamma = Ok c /\ 0 <= c <= 255 /\
                      String.length (format_02x c) = 2%nat)
                   input_levels)
         notebook_gammas.
Proof.
  intros Hpow.
  assert (Hall : forall gamma, (0 <? gamma)%float = true ->
            Forall (fun n => exists c,
                      corrected libm_pow n gamma = Ok c /\ 0 <= c <= 255 /\
                      String.length (format_02x c) = 2%nat)
                   input_levels).
  { intros gamma Hg. apply Forall_forall. intros n Hn.
    destruct (corrected_in_byte libm_pow Hpow n gamma Hn Hg) as (_ & c & _ & _ & Hc & Hr).
    exists c. split; [exact Hc|]. split; [exact Hr|].
    destruct (format_02x_byte c Hr) as [Hhex _].
    destruct (format_02x c) as [|a [|b [|]]]; cbn in Hhex; try discriminate.
    reflexivity. }
  unfold notebook_gammas.
  repeat (apply Forall_cons; [apply Hall; reflexivity|]). apply Forall_nil.
Qed.

Lemma notebook_levels_fit_a_byte_witness :
  Forall (fun gamma =>
            Forall (fun n => exists c,
                      corrected pow_at_exponent_one n gamma = Ok c /\ 0 <= c <= 255 /\
                      String.length (format_02x c) = 2%nat)
                   input_levels)
         notebook_gammas.
Proof.
  apply (notebook_levels_fit_a_byte pow_at_exponent_one).
  exact pow_at_exponent_one_unit.
Defined.

(** C8.  In the uniform pixel map built from three components without
    blanks, every pixel of every row is the one symbol [" "], and the symbol
    table maps that symbol to the configured colour
    ["#" ++ red ++ green ++ blue] and has no other entry. *)
Theorem uniform_pixels (red green blue : string) (row col : nat) :
  no_space red = true -> no_space green = true -> no_space blue = true ->
  (row < 32)%nat -> (col < 32)%nat ->
  let xpm_data := SingleColorXpm red green blue in
  color_map_loop xpm_data (seq 0 1) [] = Ok [(" ", "#" ++ red ++ green ++ blue)] /\
  pixel xpm_data 1 row col = Ok " ".
Proof.
  intros Hr Hg Hb Hrow Hcol xpm_data. split.
  - destruct (color_map_single red green blue) as (color & H & Hcolor).
    now rewrite <- (Hcolor Hr Hg Hb).
  - unfold pixel, item. rewrite <- pixel_rows_nth.
    unfold xpm_data. rewrite pixel_rows_single.
    rewrite nth_error_repeat by assumption.
    cbn [rbind]. now rewrite blank_row_pixel.
Qed.

Lemma uniform_pixels_witness :
  let xpm_data := SingleColorXpm "3f" "00" "00" in
  color_map_loop xpm_data (seq 0 1) [] = Ok [(" ", "#" ++ "3f" ++ "00" ++ "00")] /\
  pixel xpm_data 1 31 0 = Ok " ".
Proof.
  apply (uniform_pixels "3f" "00" "00" 31 0); first [reflexivity | lia].
Defined.

(** C9.  Chart construction depends on [gamma] (and on [pow]) only: from any
    two states of the interpreter it ends in the same exception or in charts
    with the same size, the same images (size and pixel data, hence the same
    levels and pixel maps) and the same placements; only the names Tk gives
    to the images differ. *)
Theorem chart_depends_on_gamma_only (libm_pow : float -> float -> float)
    (gamma : float) (s1 s2 : tk_state) :
  outcome dict_view (chart_images libm_pow gamma s1)
  = outcome dict_view (chart_images libm_pow gamma s2) /\
  outcome chart_view (GammaChart libm_pow gamma s1)
  = outcome chart_view (GammaChart libm_pow gamma s2).
Proof.
  split; [|apply GammaChart_view].
  unfold chart_images, bind, lift.
  destruct (chart_levels libm_pow gamma) as [l|e]; [|reflexivity].
  now apply create_images_view.
Qed.

(** C10.  For each gamma value of the notebook, whatever [pow] is, the 0%
    level is ["00"] and the 100% level is ["ff"]. *)
Theorem black_and_white_are_fixed (libm_pow : float -> float -> float) :
  Forall (fun gamma => level libm_pow 0 gamma = Ok "00" /\
                       level libm_pow 255 gamma = Ok "ff")
         notebook_gammas.
Proof.
  unfold notebook_gammas.
  repeat (apply Forall_cons; [split; vm_compute; reflexivity|]). apply Forall_nil.
Qed.

(** ** What the images show *)

Lemma append_assoc (a b c : string) : (a ++ b) ++ c = a ++ b ++ c.
Proof. induction a as [|x a IH]; cbn; [reflexivity | now rewrite IH]. Qed.

Lemma append_empty_r (a : string) : a ++ "" = a.
Proof. induction a as [|x a IH]; cbn; [reflexivity | now rewrite IH]. Qed.

Lemma plain_app (s t : string) : plain (s ++ t) = plain s && plain t.
Proof.
  induction s as [|c s IH]; cbn [append plain]; [reflexivity|].
  now rewrite IH, andb_assoc.
Qed.

Lemma plain_no_space (s : string) : plain s = true -> no_space s = true.
Proof.
  induction s as [|c s IH]; cbn [plain no_space]; [reflexivity|].
  intros H. apply andb_prop in H as [H Hs]. apply andb_prop in H as [Hc _].
  now rewrite Hc, IH.
Qed.

(** *** Reading the words back *)

Lemma split_from_word (u : string) :
  no_space u = true ->
  forall v rest,
    split_from (Some v) (u ++ String " " rest) = (v ++ u) :: split_from None rest.
Proof.
  induction u as [|c u IH]; cbn [no_space append]; intros H v rest.
  - cbn [split_from]. change (is_space " ") with true. cbn iota.
    now rewrite append_empty_r.
  - apply andb_prop in H as [Hc Hu]. apply negb_true_iff in Hc.
    cbn [split_from]. rewrite Hc, IH by assumption.
    now rewrite append_assoc.
Qed.

Lemma split_words_line (words : list string) :
  Forall (fun w => color_word w = true) words ->
  split_from None (words_line words) = words.
Proof.
  induction 1 as [|w words Hw _ IH]; [reflexivity|].
  cbn [words_line]. destruct w as [|c w]; [discriminate|].
  cbn [color_word plain] in Hw.
  apply andb_prop in Hw as [Hc Hw]. apply andb_prop in Hc as [Hc _].
  apply negb_true_iff in Hc.
  cbn [append split_from]. rewrite Hc.
  change (" " ++ words_line words) with (String " " (words_line words)).
  rewrite split_from_word by now apply plain_no_space.
  now rewrite IH.
Qed.

Lemma split_from_lstrip (s : string) :
  split_from None (lstrip s) = split_from None s.
Proof.
  induction s as [|c s IH]; [reflexivity|].
  cbn [lstrip split_from]. destruct (is_space c) eqn:Hc; [exact IH|].
  cbn [split_from]. now rewrite Hc.
Qed.

Lemma split_from_rstrip (s : string) :
  forall word, split_from word (rstrip s) = split_from word s.
Proof.
  induction s as [|c s IH]; intros word; [reflexivity|].
  cbn [rstrip]. destruct (rstrip s) as [|c' t] eqn:Hr.
  - destruct (is_space c) eqn:Hc; cbn [split_from]; rewrite Hc.
    + destruct word as [w|]; now rewrite <- IH.
    + destruct word as [w|]; now rewrite <- IH.
  - cbn [split_from]. destruct (is_space c); destruct word as [w|];
      now rewrite <- IH.
Qed.

Lemma split_from_blank_end (s : string) :
  forall word, split_from word (s ++ " ") = split_from word s.
Proof.
  induction s as [|c s IH]; intros word.
  - cbn [append split_from]. change (is_space " ") with true. cbn iota.
    now destruct word.
  - cbn [append split_from]. destruct (is_space c); destruct word as [w|];
      now rewrite IH.
Qed.

Lemma string_map_app (f : ascii -> ascii) (s t : string) :
  string_map f (s ++ t) = string_map f s ++ string_map f t.
Proof. induction s as [|c s IH]; cbn; [reflexivity | now rewrite IH]. Qed.

Lemma unbrace_no_brace (s : string) : no_brace s = true -> string_map unbrace s = s.
Proof.
  induction s as [|c s IH]; cbn [no_brace string_map]; [reflexivity|].
  intros H. apply andb_prop in H as [Hc Hs]. apply negb_true_iff in Hc.
  rewrite IH by assumption. unfold unbrace. now rewrite Hc.
Qed.

Lemma no_brace_lstrip (s : string) : no_brace s = true -> no_brace (lstrip s) = true.
Proof.
  induction s as [|c s IH]; [reflexivity|].
  intros H. cbn [lstrip]. destruct (is_space c); [|exact H].
  cbn [no_brace] in H. apply andb_prop in H as [_ Hs]. now apply IH.
Qed.

Lemma no_brace_rstrip (s : string) : no_brace s = true -> no_brace (rstrip s) = true.
Proof.
  induction s as [|c s IH]; [reflexivity|].
  cbn [no_brace]. intros H. apply andb_prop in H as [Hc Hs].
  cbn [rstrip]. specialize (IH Hs). destruct (rstrip s) as [|c' t].
  - destruct (is_space c); [reflexivity|]. cbn [no_brace]. now rewrite Hc.
  - cbn [no_brace] in *. now rewrite Hc, IH.
Qed.

Lemma no_brace_words_line (words : list string) :
  Forall (fun w => color_word w = true) words -> no_brace (words_line words) = true.
Proof.
  assert (Hplain : forall s, plain s = true -> no_brace s = true).
  { induction s as [|c s IH]; cbn [plain no_brace]; [reflexivity|].
    intros H. apply andb_prop in H as [H Hs]. apply andb_prop in H as [_ Hc].
    now rewrite Hc, IH. }
  assert (Happ : forall s t, no_brace (s ++ t) = no_brace s && no_brace t).
  { induction s as [|c s IH]; intros t; cbn [append no_brace]; [reflexivity|].
    now rewrite IH, andb_assoc. }
  induction 1 as [|w words Hw _ IH]; [reflexivity|].
  cbn [words_line]. rewrite !Happ, IH, andb_true_r.
  destruct w; [discriminate|]. cbn [color_word] in Hw.
  now rewrite (Hplain _ Hw).
Qed.

(** The words of the data of a [put] are the colours of the row. *)
Lemma row_colors_words (words : list string) :
  Forall (fun w => color_word w = true) words ->
  row_colors ("{" ++ strip (words_line words) ++ "}") = words.
Proof.
  intros H. unfold row_colors, split.
  rewrite !string_map_app.
  rewrite (unbrace_no_brace (strip (words_line words)))
    by (unfold strip; apply no_brace_rstrip, no_brace_lstrip, no_brace_words_line, H).
  change (string_map unbrace "{") with " ". change (string_map unbrace "}") with " ".
  change (" " ++ strip (words_line words) ++ " ")
    with (String " " (strip (words_line words) ++ " ")).
  cbn [split_from]. change (is_space " ") with true. cbn iota.
  rewrite split_from_blank_end. unfold strip.
  rewrite split_from_rstrip, split_from_lstrip.
  now apply split_words_line.
Qed.

(** *** The loops of [create_photo_image], by their results *)

Lemma row_loop_words (color_map : dict string) (pixel_row : string) (range : list nat) :
  forall row_str s,
    row_loop color_map pixel_row 1 range row_str = Ok s ->
    s = row_str
        ++ words_line (map (fun x => color_of color_map (slice pixel_row x (x + 1))) range)
    /\ Forall (fun x => exists color,
                 dict_get color_map (slice pixel_row x (x + 1)) = Some color) range.
Proof.
  induction range as [|x range IH]; intros row_str s; cbn [row_loop].
  - intros [= <-]. cbn [map words_line]. now rewrite append_empty_r.
  - rewrite !Nat.mul_1_r. unfold dict_item.
    cbn [map]. unfold color_of at 1.
    destruct (dict_get color_map (slice pixel_row x (x + 1))) as [color|] eqn:Hget;
      cbn [rbind]; [|discriminate].
    intros H. apply IH in H as [-> Hall]. split.
    + cbn [words_line]. now rewrite !append_assoc.
    + constructor; [now exists color | exact Hall].
Qed.

Lemma dict_get_value {V : Type} (P : V -> Prop) (d : dict V) :
  Forall (fun entry => P (snd entry)) d ->
  forall k v, dict_get d k = Some v -> P v.
Proof.
  induction 1 as [|[k' v'] d Hv _ IH]; intros k v; cbn [dict_get]; [discriminate|].
  destruct (String.eqb k k'); [intros [= <-]; exact Hv | apply IH].
Qed.

Lemma image_loop_colors (xpm_data : list string) (color_map : dict string)
    (width num_colors : nat) (range : list nat) :
  Forall (fun entry => color_word (snd entry) = true) color_map ->
  forall image image',
    image_loop xpm_data color_map width num_colors 1 range image = Ok image' ->
    tile_colors image'
    = (tile_colors image
       ++ map (fun row => map (fun col => pixel_color color_map xpm_data num_colors row col)
                            (seq 0 width)) range)%list.
Proof.
  intros Hcm.
  induction range as [|y range IH]; intros image image'; cbn [image_loop].
  - intros [= <-]. cbn [map]. now rewrite app_nil_r.
  - destruct (item xpm_data (y + 1 + num_colors)) as [row|e] eqn:Hrow; cbn [rbind];
      [|discriminate].
    destruct (row_loop color_map row 1 (seq 0 width) "") as [row_str|e] eqn:Hloop;
      cbn [rbind]; [|discriminate].
    intros H. apply IH in H. rewrite H. clear H IH.
    apply row_loop_words in Hloop as [Hstr Hall]. cbn [append] in Hstr. subst row_str.
    unfold tile_colors, put. cbn [image_puts map]. rewrite map_app, <- app_assoc.
    cbn [map fst app]. do 2 f_equal.
    rewrite row_colors_words.
    + apply map_ext. intros col. unfold pixel_color, pixel. now rewrite Hrow.
    + rewrite Forall_map. rewrite Forall_forall in Hall |- *.
      intros x Hx. destruct (Hall x Hx) as [color Hget].
      unfold color_of. rewrite Hget.
      exact (dict_get_value (fun c => color_word c = true) color_map Hcm _ _ Hget).
Qed.

(** The image of a pixel map that keeps the invariants, with words for
    colours: pixel by pixel, the colour the table gives to the symbol. *)
Lemma create_photo_image_colors (width height num_colors : nat)
    (color_map : dict string) (xpm_data : list string) (s : tk_state) :
  xpm_invariants width height num_colors color_map xpm_data ->
  Forall (fun entry => color_word (snd entry) = true) color_map ->
  exists image,
    create_photo_image xpm_data s = Ok (image, {| last_id := S (last_id s) |}) /\
    tile_colors image
    = map (fun row => map (fun col => pixel_color color_map xpm_data num_colors row col)
                        (seq 0 width)) (seq 0 height).
Proof.
  intros Hwf Hcm.
  destruct (create_photo_image_total _ _ _ _ _ Hwf s) as (image & Hrun & _).
  exists image. split; [exact Hrun|].
  destruct Hwf as ((header & Hhd & Hparse) & Hmap & _).
  unfold create_photo_image, bind, lift, new_PhotoImage in Hrun.
  rewrite Hhd, Hparse, Hmap in Hrun.
  destruct (image_loop _ _ _ _ _ _ _) as [image0|e] eqn:Hloop; [|discriminate].
  injection Hrun as <-.
  apply (image_loop_colors _ _ _ _ _ Hcm) in Hloop. exact Hloop.
Qed.

(** *** Colours Tk can read *)

Lemma lower_hex_plain (c : ascii) :
  is_lower_hex c = true ->
  negb (is_space c) && negb (Ascii.eqb c "{" || Ascii.eqb c "}") = true.
Proof.
  destruct c as [[|] [|] [|] [|] [|] [|] [|] [|]]; intros H;
    first [reflexivity | vm_compute in H; discriminate H].
Qed.

Lemma hex_digits_word (s : string) :
  forallb is_lower_hex (list_ascii_of_string s) = true -> plain s = true.
Proof.
  induction s as [|c s IH]; cbn [list_ascii_of_string forallb plain]; [reflexivity|].
  intros H. apply andb_prop in H as [Hc Hs].
  now rewrite (lower_hex_plain c Hc), IH.
Qed.

Lemma two_lower_hex_plain (s : string) : two_lower_hex s = true -> plain s = true.
Proof.
  destruct s as [|a [|b [|]]]; try discriminate.
  cbn [two_lower_hex plain]. intros H. apply andb_prop in H as [Ha Hb].
  now rewrite (lower_hex_plain a Ha), (lower_hex_plain b Hb).
Qed.

(** A colour [#rrggbb] is one word. *)
Lemma rrggbb_color_word (color : string) :
  is_rrggbb color = true -> color_word color = true.
Proof.
  destruct color as [|c digits]; [discriminate|].
  intros H.
  assert (Hc : c = "#"%char).
  { destruct c as [[|] [|] [|] [|] [|] [|] [|] [|]]; first [reflexivity | discriminate H]. }
  subst c. cbn [is_rrggbb] in H. apply andb_prop in H as [_ H].
  cbn [color_word plain]. now rewrite (hex_digits_word digits H).
Qed.

Lemma rrggbb_table_words (color_map : dict string) :
  Forall (fun entry => is_rrggbb (snd entry) = true) color_map ->
  Forall (fun entry => color_word (snd entry) = true) color_map.
Proof.
  apply Forall_impl. intros entry. apply rrggbb_color_word.
Qed.

(** Inside the declared size every pixel has a colour of the table. *)
Lemma pixel_color_in_table (width height num_colors : nat) (color_map : dict string)
    (xpm_data : list string) (row col : nat) :
  xpm_invariants width height num_colors color_map xpm_data ->
  (row < height)%nat -> (col < width)%nat ->
  exists symbol color,
    pixel xpm_data num_colors row col = Ok symbol /\
    dict_get color_map symbol = Some color /\
    pixel_color color_map xpm_data num_colors row col = color.
Proof.
  intros (_ & _ & _ & Hrows & Hpix) Hrow Hcol.
  destruct (nth_error (pixel_rows xpm_data num_colors) row) as [pixel_row|] eqn:Hnth;
    [|apply nth_error_None in Hnth; lia].
  rewrite Forall_forall in Hpix.
  destruct (Hpix pixel_row (nth_error_In _ _ Hnth)) as [_ Hkeys].
  specialize (Hkeys col Hcol). unfold dict_mem in Hkeys.
  destruct (dict_get color_map (slice pixel_row col (col + 1))) as [color|] eqn:Hget;
    [|discriminate].
  rewrite pixel_rows_nth in Hnth.
  exists (slice pixel_row col (col + 1)), color.
  assert (Hpixel : pixel xpm_data num_colors row col = Ok (slice pixel_row col (col + 1))).
  { unfold pixel, item. now rewrite Hnth. }
  split; [exact Hpixel|]. split; [exact Hget|].
  unfold pixel_color, color_of. now rewrite Hpixel, Hget.
Qed.

(** ** Further properties of [create_photo_image] *)

Lemma image_loop_to (xpm_data : list string) (color_map : dict string)
    (width num_colors cpp : nat) (range : list nat) :
  forall image image',
    image_loop xpm_data color_map width num_colors cpp range image = Ok image' ->
    map snd (image_puts image')
    = (map snd (image_puts image) ++ map (fun y => (0%nat, y)) range)%list.
Proof.
  induction range as [|y range IH]; intros image image'; cbn [image_loop].
  - intros [= <-]. now rewrite app_nil_r.
  - destruct (item xpm_data (y + 1 + num_colors)) as [row|e]; cbn [rbind];
      [|discriminate].
    destruct (row_loop color_map row cpp (seq 0 width) "") as [row_str|e];
      cbn [rbind]; [|discriminate].
    intros H. apply IH in H. rewrite H. unfold put. cbn [image_puts].
    rewrite map_app, <- app_assoc. reflexivity.
Qed.

Lemma two_by_two_invariants :
  xpm_invariants 2 2 2 [("a", "#ff0000"); ("b", "#0000ff")] two_by_two.
Proof.
  split; [|split; [reflexivity|split; [reflexivity|split; [reflexivity|]]]].
  - eexists. split; [reflexivity | vm_compute; reflexivity].
  - repeat constructor; intros x Hx;
      (destruct x as [|[|x]]; [reflexivity | reflexivity | lia]).
Qed.

(** X1.  On any pixel map that keeps the invariants, is at least one pixel
    wide and gives every symbol a colour of the form [#rrggbb] (a colour Tk
    reads), image construction succeeds: the image has the next free name
    and the declared size, its rows are put one by one, row [y] at
    [(0, y)], from the top, and the data of each [put] is one row of as many
    colours [#rrggbb] as the image is wide, which is data [put] accepts. *)
Theorem well_formed_pixel_map_renders (width height num_colors : nat)
    (color_map : dict string) (xpm_data : list string) (s : tk_state) :
  xpm_invariants width height num_colors color_map xpm_data ->
  (0 < width)%nat ->
  Forall (fun entry => is_rrggbb (snd entry) = true) color_map ->
  exists image,
    create_photo_image xpm_data s = Ok (image, {| last_id := S (last_id s) |}) /\
    image_name image = S (last_id s) /\
    image_width image = width /\ image_height image = height /\
    map snd (image_puts image) = map (fun y => (0%nat, y)) (seq 0 height) /\
    Forall (fun p => row_colors (fst p) <> [] /\
                     List.length (row_colors (fst p)) = width /\
                     Forall (fun color => is_rrggbb color = true) (row_colors (fst p)))
           (image_puts image).
Proof.
  intros Hwf Hwidth Hcolors.
  destruct (create_photo_image_total _ _ _ _ _ Hwf s) as (image & Hrun & Hn & Hw & Hh & _).
  destruct (create_photo_image_colors _ _ _ _ _ s Hwf (rrggbb_table_words _ Hcolors))
    as (image' & Hrun' & Htiles).
  rewrite Hrun in Hrun'. injection Hrun' as <-.
  exists image. repeat split; try assumption.
  - pose proof Hwf as ((header & Hhd & Hparse) & Hcm & _).
    unfold create_photo_image, bind, lift, new_PhotoImage in Hrun.
    rewrite Hhd, Hparse, Hcm in Hrun.
    destruct (image_loop _ _ _ _ _ _ _) as [image0|e] eqn:Hloop; [|discriminate].
    injection Hrun as <-. apply image_loop_to in Hloop. exact Hloop.
  - unfold tile_colors in Htiles.
    assert (Hall : Forall (fun colors => colors <> [] /\ List.length colors = width /\
                             Forall (fun color => is_rrggbb color = true) colors)
                     (map (fun p => row_colors (fst p)) (image_puts image))).
    { rewrite Htiles. apply Forall_map, Forall_forall. intros row Hrow.
      apply in_seq in Hrow.
      assert (Hlen : List.length (map (fun col => pixel_color color_map xpm_data
                                                    num_colors row col) (seq 0 width))
                     = width) by now rewrite length_map, length_seq.
      split; [|split; [exact Hlen|]].
      - intros Hnil. rewrite Hnil in Hlen. cbn in Hlen. lia.
      - apply Forall_map, Forall_forall. intros col Hcol. apply in_seq in Hcol.
        destruct (pixel_color_in_table _ _ _ _ _ row col Hwf ltac:(lia) ltac:(lia))
          as (symbol & color & _ & Hget & ->).
        exact (dict_get_value (fun c => is_rrggbb c = true) color_map Hcolors _ _ Hget). }
    apply Forall_map in Hall. exact Hall.
Qed.

Lemma well_formed_pixel_map_renders_witness :
  exists image,
    create_photo_image two_by_two {| last_id := 7 |} = Ok (image, {| last_id := 8 |}) /\
    image_name image = 8%nat /\
    image_width image = 2%nat /\ image_height image = 2%nat /\
    map snd (image_puts image) = map (fun y => (0%nat, y)) (seq 0 2) /\
    Forall (fun p => row_colors (fst p) <> [] /\
                     List.length (row_colors (fst p)) = 2%nat /\
                     Forall (fun color => is_rrggbb color = true) (row_colors (fst p)))
           (image_puts image).
Proof.
  apply (well_formed_pixel_map_renders 2 2 2 [("a", "#ff0000"); ("b", "#0000ff")]
           two_by_two {| last_id := 7 |}).
  - exact two_by_two_invariants.
  - lia.
  - repeat constructor.
Defined.

Lemma row_loop_ok (color_map : dict string) (pixel_row : string) (cpp : nat)
    (range : list nat) :
  forall row_str s,
    row_loop color_map pixel_row cpp range row_str = Ok s ->
    forall x, In x range ->
      dict_mem color_map (slice pixel_row (x * cpp) ((x + 1) * cpp)) = true.
Proof.
  induction range as [|x0 range IH]; intros row_str s; cbn [row_loop].
  - intros _ x [].
  - unfold dict_item, dict_mem.
    destruct (dict_get color_map (slice pixel_row (x0 * cpp) ((x0 + 1) * cpp)))
      as [color|] eqn:Hget; cbn [rbind]; [|discriminate].
    intros H x [<-|Hx].
    + now rewrite Hget.
    + eapply IH; eassumption.
Qed.

Lemma image_loop_ok (xpm_data : list string) (color_map : dict string)
    (width num_colors cpp : nat) (range : list nat) :
  forall image image',
    image_loop xpm_data color_map width num_colors cpp range image = Ok image' ->
    forall y, In y range ->
      exists row, nth_error xpm_data (y + 1 + num_colors) = Some row /\
        forall x, (x < width)%nat ->
          dict_mem color_map (slice row (x * cpp) ((x + 1) * cpp)) = true.
Proof.
  induction range as [|y0 range IH]; intros image image'; cbn [image_loop].
  - intros _ y [].
  - unfold item.
    destruct (nth_error xpm_data (y0 + 1 + num_colors)) as [row|] eqn:Hrow;
      cbn [rbind]; [|discriminate].
    destruct (row_loop color_map row cpp (seq 0 width) "") as [row_str|e] eqn:Hloop;
      cbn [rbind]; [|discriminate].
    intros H y [<-|Hy].
    + exists row. split; [exact Hrow|]. intros x Hx.
      eapply row_loop_ok; [exact Hloop|]. apply in_seq. lia.
    + eapply IH; eassumption.
Qed.

Lemma image_loop_dims (xpm_data : list string) (color_map : dict string)
    (width num_colors cpp : nat) (range : list nat) :
  forall image image',
    image_loop xpm_data color_map width num_colors cpp range image = Ok image' ->
    image_name image' = image_name image /\
    image_width image' = image_width image /\
    image_height image' = image_height image.
Proof.
  induction range as [|y range IH]; intros image image'; cbn [image_loop].
  - intros [= <-]. repeat split.
  - destruct (item xpm_data (y + 1 + num_colors)) as [row|e]; cbn [rbind];
      [|discriminate].
    destruct (row_loop color_map row cpp (seq 0 width) "") as [row_str|e];
      cbn [rbind]; [|discriminate].
    intros H. apply IH in H. exact H.
Qed.

(** X2.  Image construction never returns an image of a pixel map with a
    missing row or a symbol without a colour: when it succeeds, the header
    parsed, every row below the declared height exists and every pixel of it
    below the declared width is a key of the colour table. *)
Theorem rendered_pixel_map_has_all_colors (xpm_data : list string)
    (s s' : tk_state) (image : PhotoImage) :
  create_photo_image xpm_data s = Ok (image, s') ->
  exists header num_colors cpp color_map,
    item xpm_data 0 = Ok header /\
    parse_header header = Ok (image_width image, image_height image, num_colors, cpp) /\
    color_map_loop xpm_data (seq 0 num_colors) [] = Ok color_map /\
    forall y, (y < image_height image)%nat ->
      exists row, nth_error xpm_data (y + 1 + num_colors) = Some row /\
        forall x, (x < image_width image)%nat ->
          dict_mem color_map (slice row (x * cpp) ((x + 1) * cpp)) = true.
Proof.
  unfold create_photo_image, bind, lift, new_PhotoImage.
  destruct (item xpm_data 0) as [header|e]; [|discriminate].
  destruct (parse_header header) as [[[[width height] num_colors] cpp]|e] eqn:Hparse;
    [|discriminate].
  destruct (color_map_loop xpm_data (seq 0 num_colors) []) as [color_map|e] eqn:Hcm;
    [|discriminate].
  destruct (image_loop _ _ _ _ _ _ _) as [image0|e] eqn:Hloop; [|discriminate].
  intros [= <- <-].
  destruct (image_loop_dims xpm_data color_map width num_colors cpp (seq 0 height)
              _ _ Hloop) as (_ & Hw & Hh).
  cbn [image_width image_height] in Hw, Hh. rewrite Hw, Hh.
  exists header, num_colors, cpp, color_map. repeat split; try assumption.
  intros y Hy. eapply image_loop_ok; [exact Hloop|]. apply in_seq. lia.
Qed.

Lemma rendered_pixel_map_has_all_colors_witness :
  exists image,
    create_photo_image two_by_two {| last_id := 0 |} = Ok (image, {| last_id := 1 |}) /\
    exists header num_colors cpp color_map,
      item two_by_two 0 = Ok header /\
      parse_header header = Ok (image_width image, image_height image, num_colors, cpp) /\
      color_map_loop two_by_two (seq 0 num_colors) [] = Ok color_map /\
      forall y, (y < image_height image)%nat ->
        exists row, nth_error two_by_two (y + 1 + num_colors) = Some row /\
          forall x, (x < image_width image)%nat ->
            dict_mem color_map (slice row (x * cpp) ((x + 1) * cpp)) = true.
Proof.
  eexists. split; [vm_compute; reflexivity|].
  apply (rendered_pixel_map_has_all_colors two_by_two {| last_id := 0 |} {| last_id := 1 |}).
  vm_compute. reflexivity.
Defined.

Lemma color_map_loop_firstn (xpm_data : list string) (k : nat) (range : list nat) :
  forall color_map color_map',
    color_map_loop xpm_data range color_map = Ok color_map' ->
    color_map_loop (firstn k xpm_data) range color_map
    = if forallb (fun i => (i + 1 <? k)%nat) range then Ok color_map'
      else Err IndexError.
Proof.
  induction range as [|i range IH]; intros color_map color_map';
    cbn [color_map_loop forallb].
  - trivial.
  - unfold item. rewrite nth_error_firstn.
    destruct (Nat.ltb_spec (i + 1) k) as [Hlt|Hge]; cbn [andb]; [|reflexivity].
    destruct (nth_error xpm_data (i + 1)) as [line|]; cbn [rbind]; [|discriminate].
    destruct (first_char line) as [char|e]; cbn [rbind]; [|discriminate].
    destruct (last_item (split (strip line))) as [color|e]; cbn [rbind]; [|discriminate].
    apply IH.
Qed.

Lemma image_loop_firstn (xpm_data : list string) (k : nat) (color_map : dict string)
    (width num_colors cpp : nat) (range : list nat) :
  forall image image',
    image_loop xpm_data color_map width num_colors cpp range image = Ok image' ->
    image_loop (firstn k xpm_data) color_map width num_colors cpp range image
    = if forallb (fun y => (y + 1 + num_colors <? k)%nat) range then Ok image'
      else Err IndexError.
Proof.
  induction range as [|y range IH]; intros image image'; cbn [image_loop forallb].
  - trivial.
  - unfold item. rewrite nth_error_firstn.
    destruct (Nat.ltb_spec (y + 1 + num_colors) k) as [Hlt|Hge]; cbn [andb];
      [|reflexivity].
    destruct (nth_error xpm_data (y + 1 + num_colors)) as [row|]; cbn [rbind];
      [|discriminate].
    destruct (row_loop color_map row cpp (seq 0 width) "") as [row_str|e];
      cbn [rbind]; [|discriminate].
    apply IH.
Qed.

(** X3.  A pixel map cut short raises [IndexError]: whatever proper prefix
    of a well-formed pixel map is given (no line at all, colour lines
    missing, pixel rows missing), image construction fails on the first
    missing line.  The pixel map is at least one pixel wide and its colours
    are of the form [#rrggbb], so that [put] accepts the rows before the
    missing one. *)
Theorem truncated_pixel_map_raises_IndexError (width height num_colors : nat)
    (color_map : dict string) (xpm_data : list string) (k : nat) (s : tk_state) :
  xpm_invariants width height num_colors color_map xpm_data ->
  (0 < width)%nat ->
  Forall (fun entry => is_rrggbb (snd entry) = true) color_map ->
  (k < 1 + num_colors + height)%nat ->
  create_photo_image (firstn k xpm_data) s = Err IndexError.
Proof.
  intros Hwf _ _ Hk.
  destruct (create_photo_image_total _ _ _ _ _ Hwf s) as (image & Hrun & _).
  destruct Hwf as ((header & Hhd & Hparse) & Hcm & _).
  unfold create_photo_image, bind, lift, new_PhotoImage in *.
  rewrite Hhd, Hparse, Hcm in Hrun.
  destruct (image_loop _ _ _ _ _ _ _) as [image0|e] eqn:Hloop; [|discriminate].
  unfold item in *. rewrite nth_error_firstn.
  destruct (Nat.ltb_spec 0 k) as [Hk0|Hk0]; [|reflexivity].
  destruct (nth_error xpm_data 0) as [header'|]; [|discriminate].
  injection Hhd as ->. rewrite Hparse.
  rewrite (color_map_loop_firstn _ k _ _ _ Hcm).
  destruct (forallb (fun i => (i + 1 <? k)%nat) (seq 0 num_colors)) eqn:Hcolors;
    [|reflexivity].
  rewrite (image_loop_firstn _ k _ _ _ _ _ _ _ Hloop).
  assert (Hlast : forallb (fun y => (y + 1 + num_colors <? k)%nat) (seq 0 height) = false).
  { destruct height as [|height'].
    - exfalso. rewrite forallb_forall in Hcolors.
      destruct num_colors as [|n']; [lia|].
      specialize (Hcolors n' ltac:(apply in_seq; lia)).
      apply Nat.ltb_lt in Hcolors. lia.
    - destruct (forallb _ (seq 0 (S height'))) eqn:E; [|reflexivity].
      rewrite forallb_forall in E.
      specialize (E height' ltac:(apply in_seq; lia)).
      apply Nat.ltb_lt in E. lia. }
  now rewrite Hlast.
Qed.

Lemma truncated_pixel_map_raises_IndexError_witness :
  create_photo_image (firstn 4 two_by_two) {| last_id := 0 |} = Err IndexError.
Proof.
  apply (truncated_pixel_map_raises_IndexError 2 2 2 [("a", "#ff0000"); ("b", "#0000ff")]
           two_by_two 4 {| last_id := 0 |}).
  - exact two_by_two_invariants.
  - lia.
  - repeat constructor.
  - lia.
Defined.

(** X4.  A header that is not made of exactly four tokens raises
    [ValueError], whatever follows it. *)
Theorem malformed_header_raises_ValueError (xpm_data : list string) (header : string)
    (s : tk_state) :
  item xpm_data 0 = Ok header ->
  List.length (split (strip header)) <> 4%nat ->
  create_photo_image xpm_data s = Err ValueError.
Proof.
  intros Hhd Hlen. unfold create_photo_image, bind, lift. rewrite Hhd.
  unfold parse_header.
  destruct (split (strip header)) as [|a [|b [|c [|d [|e tokens]]]]]; try reflexivity.
  now destruct Hlen.
Qed.

Lemma malformed_header_raises_ValueError_witness :
  create_photo_image ["32 32 1"; "  c #000000"] {| last_id := 0 |} = Err ValueError.
Proof.
  apply (malformed_header_raises_ValueError _ "32 32 1").
  - reflexivity.
  - vm_compute. discriminate.
Defined.

Lemma row_loop_raises_KeyError (color_map : dict string) (pixel_row : string)
    (cpp : nat) (range : list nat) :
  forall row_str e,
    row_loop color_map pixel_row cpp range row_str = Err e -> e = KeyError.
Proof.
  induction range as [|x range IH]; intros row_str e; cbn [row_loop]; [discriminate|].
  unfold dict_item.
  destruct (dict_get color_map _) as [color|]; cbn [rbind]; [apply IH | congruence].
Qed.

Lemma image_loop_raises_KeyError (xpm_data : list string) (color_map : dict string)
    (width num_colors cpp : nat) (range : list nat) :
  (forall y, In y range -> nth_error xpm_data (y + 1 + num_colors) <> None) ->
  forall image e,
    image_loop xpm_data color_map width num_colors cpp range image = Err e ->
    e = KeyError.
Proof.
  induction range as [|y range IH]; intros Hrows image e; cbn [image_loop];
    [discriminate|].
  unfold item.
  destruct (nth_error xpm_data (y + 1 + num_colors)) as [row|] eqn:Hrow; cbn [rbind].
  - destruct (row_loop color_map row cpp (seq 0 width) "") as [row_str|e'] eqn:Hloop;
      cbn [rbind].
    + apply IH. intros y' Hy'. apply Hrows. now right.
    + intros [= <-]. eapply row_loop_raises_KeyError, Hloop.
  - destruct (Hrows y (or_introl eq_refl) Hrow).
Qed.

(** X5.  A pixel symbol without a colour raises [KeyError]: when the header
    and the colour lines are read and all declared rows are there, but some
    pixel inside the declared size is not a key of the colour table, image
    construction fails with [KeyError].  The colours of the table are of the
    form [#rrggbb], so that [put] accepts the rows before the one with the
    missing symbol. *)
Theorem missing_symbol_raises_KeyError (xpm_data : list string) (header : string)
    (width height num_colors cpp : nat) (color_map : dict string)
    (y x : nat) (row : string) (s : tk_state) :
  item xpm_data 0 = Ok header ->
  parse_header header = Ok (width, height, num_colors, cpp) ->
  color_map_loop xpm_data (seq 0 num_colors) [] = Ok color_map ->
  Forall (fun entry => is_rrggbb (snd entry) = true) color_map ->
  (1 + num_colors + height <= List.length xpm_data)%nat ->
  (y < height)%nat -> (x < width)%nat ->
  nth_error xpm_data (y + 1 + num_colors) = Some row ->
  dict_mem color_map (slice row (x * cpp) ((x + 1) * cpp)) = false ->
  create_photo_image xpm_data s = Err KeyError.
Proof.
  intros Hhd Hparse Hcm _ Hlen Hy Hx Hrow Hmiss.
  unfold create_photo_image, bind, lift, new_PhotoImage. rewrite Hhd, Hparse, Hcm.
  destruct (image_loop _ _ _ _ _ _ _) as [image|e] eqn:Hloop.
  - exfalso.
    destruct (image_loop_ok _ _ _ _ _ _ _ _ Hloop y ltac:(apply in_seq; lia))
      as (row' & Hrow' & Hall).
    rewrite Hrow in Hrow'. injection Hrow' as <-.
    rewrite (Hall x Hx) in Hmiss. discriminate.
  - f_equal. eapply image_loop_raises_KeyError; [|exact Hloop].
    intros y' Hy'. apply in_seq in Hy'. apply nth_error_Some. lia.
Qed.

Lemma missing_symbol_raises_KeyError_witness :
  create_photo_image ["2 2 1 1"; "a c #ff0000"; "ab"; "aa"] {| last_id := 0 |}
  = Err KeyError.
Proof.
  apply (missing_symbol_raises_KeyError _ "2 2 1 1" 2 2 1 1 [("a", "#ff0000")] 0 1 "ab");
    first [reflexivity | cbn; lia | repeat constructor | vm_compute; reflexivity].
Defined.

(** ** Further properties of [GammaChart] and [MainWindow] *)

Lemma dict_set_absent {V : Type} (d : dict V) (k : string) (v : V) :
  dict_mem d k = false -> dict_set d k v = (d ++ [(k, v)])%list.
Proof.
  unfold dict_mem. induction d as [|[k' v'] d IH]; cbn; [reflexivity|].
  destruct (String.eqb k k'); [discriminate|]. intros H. now rewrite IH.
Qed.

Lemma dict_mem_app_one {V : Type} (d : dict V) (k k' : string) (v : V) :
  dict_mem (d ++ [(k, v)])%list k' = dict_mem d k' || String.eqb k' k.
Proof.
  unfold dict_mem. induction d as [|[k0 v0] d IH]; cbn.
  - now destruct (String.eqb k' k).
  - destruct (String.eqb k' k0); [reflexivity | exact IH].
Qed.

(** With keys that are new and distinct, the dictionary display appends one
    image per entry, and the images get consecutive names. *)
Lemma create_images_append (side : nat) (entries : list (string * list string)) :
  Forall (fun entry => tile_data side (snd entry)) entries ->
  NoDup (map fst entries) ->
  forall images s,
    (forall k, In k (map fst entries) -> dict_mem images k = false) ->
    exists new,
      create_images entries images s
      = Ok ((images ++ new)%list, {| last_id := (last_id s + List.length entries)%nat |}) /\
      map fst new = map fst entries /\
      map (fun entry => image_name (snd entry)) new
      = seq (S (last_id s)) (List.length entries).
Proof.
  induction 1 as [|[key xpm_data] entries Hwf _ IH]; intros Hnodup images s Hfresh;
    cbn [create_images].
  - exists []. rewrite app_nil_r, Nat.add_0_r. destruct s as [n]. now repeat split.
  - cbn [snd] in Hwf. destruct Hwf as (num_colors & color_map & Hwf).
    destruct (create_photo_image_total _ _ _ _ _ Hwf s) as (image & Himg & Hname & _).
    unfold bind. rewrite Himg.
    cbn [map fst] in Hnodup. apply NoDup_cons_iff in Hnodup as [Hnotin Hnodup].
    rewrite dict_set_absent by (apply Hfresh; now left).
    destruct (IH Hnodup (images ++ [(key, image)])%list {| last_id := S (last_id s) |})
      as (new & Hrun & Hkeys & Hnames).
    { intros k Hk. rewrite dict_mem_app_one, Hfresh by (now right).
      cbn [orb]. apply String.eqb_neq. intros ->. contradiction. }
    exists ((key, image) :: new). split; [|split].
    + rewrite Hrun, <- app_assoc. cbn [last_id List.length app]. do 3 f_equal. lia.
    + cbn [map fst]. now rewrite Hkeys.
    + cbn [map snd List.length seq]. rewrite Hname. f_equal. exact Hnames.
Qed.

Lemma image_data_keys_distinct (l : levels) : NoDup (map fst (image_data l)).
Proof.
  change (map fst (image_data l))
    with ["all_a025"; "all_a050"; "all_a075"; "all_s025"; "all_s050"; "all_s075";
          "red_a025"; "red_a050"; "red_a075"; "red_s025"; "red_s050"; "red_s075";
          "green_a025"; "green_a050"; "green_a075"; "green_s025"; "green_s050"; "green_s075";
          "blue_a025"; "blue_a050"; "blue_a075"; "blue_s025"; "blue_s050"; "blue_s075"].
  apply (NoDup_map_inv (fun k => k)). rewrite map_id.
  repeat (constructor; [cbn; intros H; repeat (destruct H as [H|H]; [discriminate H|]);
                        exact H|]).
  constructor.
Qed.

(** X6.  Whenever the five levels are computed, the chart creates exactly 24
    images, under the 24 consecutive names after the interpreter's last one,
    and keeps all of them, in the order of the dictionary, in [_images]. *)
Theorem chart_retains_24_images (libm_pow : float -> float -> float) (gamma : float)
    (l : levels) (s : tk_state) :
  chart_levels libm_pow gamma = Ok l ->
  exists c,
    GammaChart libm_pow gamma s = Ok (c, {| last_id := (last_id s + 24)%nat |}) /\
    map image_name (_images c) = seq (S (last_id s)) 24 /\
    NoDup (map image_name (_images c)).
Proof.
  intros Hl.
  destruct (create_images_append 32 (image_data l) (image_data_tiles l)
              (image_data_keys_distinct l) [] s (fun _ _ => eq_refl))
    as (new & Hrun & _ & Hnames).
  change (List.length (image_data l)) with 24%nat in Hrun, Hnames.
  cbn [app] in Hrun.
  assert (Himages : chart_images libm_pow gamma s
                    = Ok (new, {| last_id := (last_id s + 24)%nat |})).
  { unfold chart_images, bind, lift. now rewrite Hl. }
  eexists. split; [|split].
  - unfold GammaChart, bind. rewrite Himages. reflexivity.
  - cbn [_images]. rewrite map_map. exact Hnames.
  - cbn [_images]. rewrite map_map, Hnames. apply seq_NoDup.
Qed.

Lemma chart_retains_24_images_witness :
  exists c,
    GammaChart pow_at_exponent_one 1 {| last_id := 24 |} = Ok (c, {| last_id := 48 |}) /\
    map image_name (_images c) = seq 25 24 /\
    NoDup (map image_name (_images c)).
Proof.
  apply (chart_retains_24_images pow_at_exponent_one 1
           {| v000 := "00"; v025 := "3f"; v050 := "7f"; v075 := "bf"; v100 := "ff" |}
           {| last_id := 24 |}).
  vm_compute. reflexivity.
Defined.

Lemma place_patterns_items (images : dict PhotoImage) (xpm_side : nat)
    (color_name : string) (row_offset col_offset : nat)
    (pats : list (string * nat * nat)) :
  forall items,
    fold_left (place_pattern images xpm_side color_name row_offset col_offset) pats items
    = (items ++
       flat_map (fun pattern : string * nat * nat =>
         let '(pattern_name, col, row) := pattern in
         match dict_get images (color_name ++ "_" ++ pattern_name) with
         | Some image =>
             [{| item_x := (col + col_offset) * xpm_side;
                 item_y := (row + row_offset) * xpm_side;
                 item_image := image; item_anchor := "nw" |}]
         | None => []
         end)
         pats)%list.
Proof.
  induction pats as [|[[pattern_name col] row] pats IH]; intros items.
  - cbn [fold_left flat_map]. now rewrite app_nil_r.
  - rewrite fold_left_cons, IH. cbn [place_pattern flat_map].
    destruct (dict_get images (color_name ++ "_" ++ pattern_name)) as [image|].
    + now rewrite <- app_assoc.
    + reflexivity.
Qed.

Lemma place_layout_items (images : dict PhotoImage) (xpm_side : nat)
    (entries : list (string * nat * nat)) :
  forall items,
    fold_left (place_color images xpm_side) entries items
    = (items ++ flat_map (section_items images xpm_side) entries)%list.
Proof.
  induction entries as [|[[color_name row_offset] col_offset] entries IH]; intros items.
  - cbn [fold_left flat_map]. now rewrite app_nil_r.
  - rewrite fold_left_cons, IH. unfold place_color at 1.
    rewrite place_patterns_items, <- app_assoc. reflexivity.
Qed.

Lemma section_items_In (images : dict PhotoImage) (xpm_side : nat)
    (entries : list (string * nat * nat)) (it : canvas_item) :
  In it (flat_map (section_items images xpm_side) entries) <->
  exists color_name row_offset col_offset pattern_name col row,
    In (color_name, row_offset, col_offset) entries /\
    In (pattern_name, col, row) patterns /\
    dict_get images (color_name ++ "_" ++ pattern_name) = Some (item_image it) /\
    it = {| item_x := (col + col_offset) * xpm_side;
            item_y := (row + row_offset) * xpm_side;
            item_image := item_image it; item_anchor := "nw" |}.
Proof.
  rewrite in_flat_map. split.
  - intros ([[color_name row_offset] col_offset] & Hentry & Hin).
    unfold section_items in Hin. apply in_flat_map in Hin.
    destruct Hin as ([[pattern_name col] row] & Hpat & Hin).
    destruct (dict_get images (color_name ++ "_" ++ pattern_name)) as [image|] eqn:Hget;
      [|destruct Hin].
    destruct Hin as [<-|[]].
    exists color_name, row_offset, col_offset, pattern_name, col, row.
    now repeat split.
  - intros (color_name & row_offset & col_offset & pattern_name & col & row &
            Hentry & Hpat & Hget & Hit).
    exists (color_name, row_offset, col_offset). split; [exact Hentry|].
    unfold section_items. apply in_flat_map.
    exists (pattern_name, col, row). split; [exact Hpat|].
    rewrite Hget. left. now symmetry.
Qed.

Lemma patterns_in_range :
  forall pattern_name col row,
    In (pattern_name, col, row) patterns -> (col < 12 /\ row < 3)%nat.
Proof.
  assert (H : forallb (fun p : string * nat * nat =>
                         (snd (fst p) <? 12)%nat && (snd p <? 3)%nat) patterns = true)
    by (vm_compute; reflexivity).
  rewrite forallb_forall in H. intros pattern_name col row Hin.
  apply H in Hin. cbn [fst snd] in Hin. apply andb_prop in Hin as [H1 H2].
  apply Nat.ltb_lt in H1, H2. now split.
Qed.

Lemma layout_in_range :
  forall color_name row_offset col_offset,
    In (color_name, row_offset, col_offset) layout ->
    (row_offset <= 9 /\ col_offset = 0)%nat.
Proof.
  intros color_name row_offset col_offset Hin. unfold layout in Hin.
  repeat (destruct Hin as [[= <- <- <-]|Hin]; [lia|]). destruct Hin.
Qed.

(** X7.  Placement only follows the keys of the dictionary: for any
    dictionary, also one that lacks keys, the loops raise nothing; each item
    shows the image stored under the key of one layout entry and one
    pattern, is anchored at its north-west corner, and lies at a multiple of
    the tile side inside the 12 x 12 grid; a key that is absent places
    nothing. *)
Theorem placement_follows_the_keys (images : dict PhotoImage) (xpm_side : nat) :
  let items := fold_left (place_color images xpm_side) layout [] in
  map item_xy items = placed_xy (dict_mem images) xpm_side /\
  Forall (fun it =>
            item_anchor it = "nw" /\
            (exists key, dict_get images key = Some (item_image it)) /\
            exists col row, (col < 12 /\ row < 12)%nat /\
                            item_xy it = (col * xpm_side, row * xpm_side)%nat)
         items /\
  (images = [] -> items = []).
Proof.
  intros items. split; [|split].
  - unfold items. now rewrite place_layout_xy.
  - apply Forall_forall. intros it Hin. unfold items in Hin.
    rewrite place_layout_items in Hin. cbn [app] in Hin.
    apply section_items_In in Hin.
    destruct Hin as (color_name & row_offset & col_offset & pattern_name & col & row &
                     Hentry & Hpat & Hget & Hit).
    destruct (patterns_in_range _ _ _ Hpat) as [Hcol Hrow].
    destruct (layout_in_range _ _ _ Hentry) as [Hro Hco].
    rewrite Hit. cbn [item_anchor item_image]. split; [reflexivity|]. split.
    + now exists (color_name ++ "_" ++ pattern_name).
    + exists (col + col_offset)%nat, (row + row_offset)%nat. split; [lia | reflexivity].
  - intros ->. unfold items. rewrite place_layout_items. cbn [app].
    destruct (flat_map (section_items [] xpm_side) layout) as [|it rest] eqn:E;
      [reflexivity|].
    assert (Hin : In it (flat_map (section_items [] xpm_side) layout))
      by (rewrite E; now left).
    apply section_items_In in Hin.
    destruct Hin as (? & ? & ? & ? & ? & ? & _ & _ & Hget & _). discriminate Hget.
Qed.

Lemma dict_get_In {V : Type} (d : dict V) (k : string) (v : V) :
  dict_get d k = Some v -> In v (map snd d).
Proof.
  induction d as [|[k' v'] d IH]; cbn; [discriminate|].
  destruct (String.eqb k k'); [intros [= ->]; now left | intros H; right; auto].
Qed.

Lemma dict_get_Forall {V : Type} (P : V -> Prop) (d : dict V) (k : string) (v : V) :
  Forall (fun entry => P (snd entry)) d -> dict_get d k = Some v -> P v.
Proof.
  induction 1 as [|[k' v'] d Hhd _ IH]; cbn; [discriminate|].
  destruct (String.eqb k k'); [intros [= <-]; exact Hhd | exact IH].
Qed.

Lemma GammaChart_levels (libm_pow : float -> float -> float) (gamma : float)
    (s s' : tk_state) (c : chart) :
  GammaChart libm_pow gamma s = Ok (c, s') ->
  exists l, chart_levels libm_pow gamma = Ok l.
Proof.
  unfold GammaChart, chart_images, bind, lift.
  destruct (chart_levels libm_pow gamma) as [l|e]; [|discriminate].
  intros _. now exists l.
Qed.

(** X8.  In every chart that is constructed, each canvas item shows an image
    that the chart retains in [_images] (none can be collected while it is
    shown), and each 32 x 32 tile lies entirely inside the 384 x 384
    canvas. *)
Theorem chart_items_are_retained_and_inside (libm_pow : float -> float -> float)
    (gamma : float) (s s' : tk_state) (c : chart) :
  GammaChart libm_pow gamma s = Ok (c, s') ->
  Forall (fun it =>
            In (item_image it) (_images c) /\
            (item_x it + image_width (item_image it) <= chart_width c)%nat /\
            (item_y it + image_height (item_image it) <= chart_height c)%nat)
         (chart_items c).
Proof.
  intros Hrun.
  destruct (GammaChart_levels _ _ _ _ _ Hrun) as [l Hl].
  destruct (GammaChart_runs libm_pow gamma l s Hl) as (images & _ & Hsized & _ & Hrun').
  rewrite place_layout_items in Hrun'. cbn [app] in Hrun'.
  remember (flat_map (section_items images 32) layout) as items eqn:Hitems.
  rewrite Hrun' in Hrun. injection Hrun as <- <-.
  cbn [chart_items _images chart_width chart_height].
  apply Forall_forall. intros it Hin. rewrite Hitems in Hin.
  apply section_items_In in Hin.
  destruct Hin as (color_name & row_offset & col_offset & pattern_name & col & row &
                   Hentry & Hpat & Hget & Hit).
  destruct (patterns_in_range _ _ _ Hpat) as [Hcol Hrow].
  destruct (layout_in_range _ _ _ Hentry) as [Hro Hco].
  pose proof (dict_get_In _ _ _ Hget) as Hretained.
  destruct (dict_get_Forall _ _ _ _ Hsized Hget) as (Hw & Hh & _).
  split; [exact Hretained|]. rewrite Hw, Hh, Hit. cbn [item_x item_y]. lia.
Qed.

Lemma chart_items_are_retained_and_inside_witness :
  exists c s',
    GammaChart pow_at_exponent_one 1 {| last_id := 0 |} = Ok (c, s') /\
    Forall (fun it =>
              In (item_image it) (_images c) /\
              (item_x it + image_width (item_image it) <= chart_width c)%nat /\
              (item_y it + image_height (item_image it) <= chart_height c)%nat)
           (chart_items c).
Proof.
  destruct (GammaChart_runs pow_at_exponent_one 1
              {| v000 := "00"; v025 := "3f"; v050 := "7f"; v075 := "bf"; v100 := "ff" |}
              {| last_id := 0 |} eq_refl) as (images & _ & _ & _ & Hrun).
  eexists _, _. split; [exact Hrun|].
  exact (chart_items_are_retained_and_inside pow_at_exponent_one 1 _ _ _ Hrun).
Defined.

Lemma key_at_placed (l : levels) (row col : nat) :
  (row < 12)%nat -> (col < 12)%nat ->
  existsb (String.eqb (key_at row col)) (map fst (image_data l)) = true /\
  exists color_name row_offset col_offset pattern_name pcol prow,
    In (color_name, row_offset, col_offset) layout /\
    In (pattern_name, pcol, prow) patterns /\
    color_name ++ "_" ++ pattern_name = key_at row col /\
    ((pcol + col_offset) * 32 = col * 32 /\ (prow + row_offset) * 32 = row * 32)%nat.
Proof.
  intros Hrow Hcol.
  assert (Hall :
    forallb (fun row => forallb (fun col =>
      existsb (String.eqb (key_at row col)) (map fst (image_data l)) &&
      existsb (fun entry : string * nat * nat =>
        existsb (fun pattern : string * nat * nat =>
          String.eqb (fst (fst entry) ++ "_" ++ fst (fst pattern)) (key_at row col) &&
          Nat.eqb ((snd (fst pattern) + snd entry) * 32) (col * 32) &&
          Nat.eqb ((snd pattern + snd (fst entry)) * 32) (row * 32))
          patterns) layout)
      (seq 0 12)) (seq 0 12) = true).
  { change (map fst (image_data l))
      with ["all_a025"; "all_a050"; "all_a075"; "all_s025"; "all_s050"; "all_s075";
            "red_a025"; "red_a050"; "red_a075"; "red_s025"; "red_s050"; "red_s075";
            "green_a025"; "green_a050"; "green_a075"; "green_s025"; "green_s050";
            "green_s075";
            "blue_a025"; "blue_a050"; "blue_a075"; "blue_s025"; "blue_s050"; "blue_s075"].
    vm_compute. reflexivity. }
  rewrite forallb_forall in Hall.
  specialize (Hall row ltac:(apply in_seq; lia)).
  rewrite forallb_forall in Hall.
  specialize (Hall col ltac:(apply in_seq; lia)).
  apply andb_prop in Hall as [Hkey Hplace]. split; [exact Hkey|].
  apply existsb_exists in Hplace as ([[color_name row_offset] col_offset] & Hentry & Hplace).
  apply existsb_exists in Hplace as ([[pattern_name pcol] prow] & Hpat & Hplace).
  cbn [fst snd] in Hplace.
  apply andb_prop in Hplace as [Hplace Hy]. apply andb_prop in Hplace as [Hk Hx].
  apply String.eqb_eq in Hk. apply Nat.eqb_eq in Hx, Hy.
  exists color_name, row_offset, col_offset, pattern_name, pcol, prow.
  now repeat split.
Qed.

(** X9.  Which tile goes where: whenever the levels are computed, the item
    at grid cell [(row, col)] shows the image stored under [key_at row col].
    So the four colour sections are bands of three rows, one below the
    other (grey, red, green, blue), not blocks of three columns. *)
Theorem tile_at_grid_cell (libm_pow : float -> float -> float) (gamma : float)
    (l : levels) (s : tk_state) (row col : nat) :
  chart_levels libm_pow gamma = Ok l ->
  (row < 12)%nat -> (col < 12)%nat ->
  exists images c s' it,
    chart_images libm_pow gamma s = Ok (images, s') /\
    GammaChart libm_pow gamma s = Ok (c, s') /\
    In it (chart_items c) /\
    item_xy it = (col * 32, row * 32)%nat /\
    dict_get images (key_at row col) = Some (item_image it).
Proof.
  intros Hl Hrow Hcol.
  destruct (GammaChart_runs libm_pow gamma l s Hl) as (images & Himages & _ & Hkeys & Hrun).
  destruct (key_at_placed l row col Hrow Hcol)
    as (Hkey & color_name & row_offset & col_offset & pattern_name & pcol & prow &
        Hentry & Hpat & Hname & Hx & Hy).
  rewrite <- Hkeys in Hkey. unfold dict_mem in Hkey.
  destruct (dict_get images (key_at row col)) as [image|] eqn:Hget; [|discriminate].
  rewrite place_layout_items in Hrun. cbn [app] in Hrun.
  eexists images, _, _,
    {| item_x := (pcol + col_offset) * 32; item_y := (prow + row_offset) * 32;
       item_image := image; item_anchor := "nw" |}.
  split; [exact Himages|]. split; [exact Hrun|]. cbn [chart_items]. split; [|split].
  - apply section_items_In.
    exists color_name, row_offset, col_offset, pattern_name, pcol, prow.
    cbn [item_image]. rewrite Hname. now repeat split.
  - unfold item_xy. cbn [item_x item_y]. now rewrite Hx, Hy.
  - exact Hget.
Qed.

Lemma tile_at_grid_cell_witness :
  exists images c s' it,
    chart_images pow_at_exponent_one 1 {| last_id := 0 |} = Ok (images, s') /\
    GammaChart pow_at_exponent_one 1 {| last_id := 0 |} = Ok (c, s') /\
    In it (chart_items c) /\
    item_xy it = (2 * 32, 4 * 32)%nat /\
    dict_get images (key_at 4 2) = Some (item_image it).
Proof.
  apply (tile_at_grid_cell pow_at_exponent_one 1
           {| v000 := "00"; v025 := "3f"; v050 := "7f"; v075 := "bf"; v100 := "ff" |}
           {| last_id := 0 |} 4 2); [vm_compute; reflexivity | lia | lia].
Defined.

(** *** The window *)

Lemma GammaChart_total (libm_pow : float -> float -> float) (gamma : float)
    (s : tk_state) :
  pow_unit_interval libm_pow -> (0 <? gamma)%float = true ->
  exists c,
    GammaChart libm_pow gamma s = Ok (c, {| last_id := (last_id s + 24)%nat |}) /\
    map image_name (_images c) = seq (S (last_id s)) 24 /\
    List.length (chart_items c) = 144%nat.
Proof.
  intros Hpow Hg.
  destruct (chart_levels_total libm_pow gamma Hpow Hg) as [l Hl].
  destruct (create_images_append 32 (image_data l) (image_data_tiles l)
              (image_data_keys_distinct l) [] s (fun _ _ => eq_refl))
    as (new & Hcreate & _ & Hnames).
  change (List.length (image_data l)) with 24%nat in Hcreate, Hnames.
  cbn [app] in Hcreate.
  destruct (GammaChart_runs libm_pow gamma l s Hl) as (images & Himages & _ & Hkeys & Hrun).
  assert (Hsame : images = new).
  { unfold chart_images, bind, lift in Himages. rewrite Hl, Hcreate in Himages.
    now injection Himages. }
  subst images. eexists. split; [exact Hrun|]. cbn [_images chart_items]. split.
  - rewrite map_map. exact Hnames.
  - assert (Hxy : map item_xy (fold_left (place_color new 32) layout [])
                  = placed_xy (fun k => existsb (String.eqb k) (map fst (image_data l))) 32).
    { rewrite place_layout_xy. cbn [map app]. now apply placed_xy_ext. }
    rewrite <- (length_map item_xy), Hxy.
    destruct (grid_full l) as (Hlen & _). exact Hlen.
Qed.

(** X10.  The window builds its four charts (gamma 2.2, 2.0, 1.8, 1.0) one
    after the other in one interpreter: given a [pow] that keeps the unit
    interval, all four are constructed, each with 144 placements and 24
    images, and the 96 images get the 96 consecutive names after the
    interpreter's last one, so no two charts share an image. *)
Theorem window_builds_four_charts (libm_pow : float -> float -> float) (s : tk_state) :
  pow_unit_interval libm_pow ->
  exists charts,
    MainWindow libm_pow s = Ok (charts, {| last_id := (last_id s + 96)%nat |}) /\
    List.length charts = 4%nat /\
    Forall (fun c => List.length (chart_items c) = 144%nat /\
                     List.length (_images c) = 24%nat) charts /\
    flat_map (fun c => map image_name (_images c)) charts = seq (S (last_id s)) 96.
Proof.
  intros Hpow. unfold MainWindow, notebook_gammas. cbn [build_charts]. unfold bind, ret.
  destruct (GammaChart_total libm_pow 2.2 s Hpow eq_refl) as (c1 & Hc1 & Hn1 & Hl1).
  destruct (GammaChart_total libm_pow 2.0 {| last_id := last_id s + 24 |} Hpow eq_refl)
    as (c2 & Hc2 & Hn2 & Hl2).
  destruct (GammaChart_total libm_pow 1.8 {| last_id := last_id s + 24 + 24 |} Hpow eq_refl)
    as (c3 & Hc3 & Hn3 & Hl3).
  destruct (GammaChart_total libm_pow 1.0 {| last_id := last_id s + 24 + 24 + 24 |} Hpow
              eq_refl) as (c4 & Hc4 & Hn4 & Hl4).
  cbn [last_id] in *. rewrite Hc1, Hc2, Hc3, Hc4.
  exists [c1; c2; c3; c4]. split; [|split; [reflexivity|split]].
  - do 3 f_equal. lia.
  - repeat constructor; try assumption;
      match goal with
      | H : map image_name (_images ?c) = _ |- List.length (_images ?c) = _ =>
          rewrite <- (length_map image_name), H; apply length_seq
      end.
  - cbn [flat_map]. rewrite Hn1, Hn2, Hn3, Hn4, app_nil_r.
    change 96%nat with (24 + (24 + (24 + 24)))%nat. rewrite !seq_app.
    repeat (f_equal; try lia).
Qed.

Lemma window_builds_four_charts_witness :
  exists charts,
    MainWindow pow_at_exponent_one {| last_id := 0 |} = Ok (charts, {| last_id := 96 |}) /\
    List.length charts = 4%nat /\
    Forall (fun c => List.length (chart_items c) = 144%nat /\
                     List.length (_images c) = 24%nat) charts /\
    flat_map (fun c => map image_name (_images c)) charts = seq 1 96.
Proof.
  apply (window_builds_four_charts pow_at_exponent_one {| last_id := 0 |}).
  exact pow_at_exponent_one_unit.
Defined.

(** X11.  What an image shows: for a pixel map that keeps the invariants, is
    at least one pixel wide and whose colours are of the form [#rrggbb]
    (colours Tk reads), the image has the declared size, one row of colours
    per declared row, one colour per declared column, and the pixel at
    [(row, col)] has the colour the table gives to the symbol at
    [(row, col)] of the pixel map. *)
Theorem image_shows_the_table_colors (width height num_colors : nat)
    (color_map : dict string) (xpm_data : list string) (s : tk_state) :
  xpm_invariants width height num_colors color_map xpm_data ->
  (0 < width)%nat ->
  Forall (fun entry => is_rrggbb (snd entry) = true) color_map ->
  exists image,
    create_photo_image xpm_data s = Ok (image, {| last_id := S (last_id s) |}) /\
    image_width image = width /\ image_height image = height /\
    List.length (tile_colors image) = height /\
    Forall (fun colors => List.length colors = width) (tile_colors image) /\
    forall row col, (row < height)%nat -> (col < width)%nat ->
      exists symbol color,
        pixel xpm_data num_colors row col = Ok symbol /\
        dict_get color_map symbol = Some color /\
        nth col (nth row (tile_colors image) []) "" = color.
Proof.
  intros Hwf _ Hrgb.
  pose proof (rrggbb_table_words color_map Hrgb) as Hcm.
  destruct (create_photo_image_colors _ _ _ _ _ s Hwf Hcm) as (image & Hrun & Hcolors).
  destruct (create_photo_image_total _ _ _ _ _ Hwf s) as (image' & Hrun' & _ & Hw & Hh & _).
  rewrite Hrun in Hrun'. injection Hrun' as <-.
  exists image. split; [exact Hrun|]. split; [exact Hw|]. split; [exact Hh|].
  rewrite Hcolors. split; [now rewrite length_map, length_seq|]. split.
  - apply Forall_map, Forall_forall. intros row _. now rewrite length_map, length_seq.
  - intros row col Hrow Hcol.
    destruct Hwf as (_ & _ & _ & Hrows & Hpix).
    destruct (nth_error (pixel_rows xpm_data num_colors) row) as [pixel_row|] eqn:Hnth;
      [|apply nth_error_None in Hnth; lia].
    rewrite Forall_forall in Hpix.
    destruct (Hpix pixel_row (nth_error_In _ _ Hnth)) as [_ Hkeys].
    specialize (Hkeys col Hcol). unfold dict_mem in Hkeys.
    destruct (dict_get color_map (slice pixel_row col (col + 1))) as [color|] eqn:Hget;
      [|discriminate].
    rewrite pixel_rows_nth in Hnth.
    exists (slice pixel_row col (col + 1)), color.
    assert (Hpixel : pixel xpm_data num_colors row col = Ok (slice pixel_row col (col + 1))).
    { unfold pixel, item. now rewrite Hnth. }
    split; [exact Hpixel|]. split; [exact Hget|].
    rewrite (nth_indep _ [] (map (fun col => pixel_color color_map xpm_data num_colors 0 col)
                               (seq 0 width)))
      by now rewrite length_map, length_seq.
    rewrite (map_nth (fun row => map (fun col => pixel_color color_map xpm_data
                                                   num_colors row col) (seq 0 width))
               (seq 0 height) 0%nat row).
    rewrite seq_nth by assumption. cbn [Nat.add].
    rewrite (nth_indep _ "" (pixel_color color_map xpm_data num_colors row 0))
      by now rewrite length_map, length_seq.
    rewrite (map_nth (fun col => pixel_color color_map xpm_data num_colors row col)
               (seq 0 width) 0%nat col).
    rewrite seq_nth by assumption. cbn [Nat.add].
    unfold pixel_color, color_of. now rewrite Hpixel, Hget.
Qed.

Lemma image_shows_the_table_colors_witness :
  exists image,
    create_photo_image two_by_two {| last_id := 0 |} = Ok (image, {| last_id := 1 |}) /\
    image_width image = 2%nat /\ image_height image = 2%nat /\
    List.length (tile_colors image) = 2%nat /\
    Forall (fun colors => List.length colors = 2%nat) (tile_colors image) /\
    forall row col, (row < 2)%nat -> (col < 2)%nat ->
      exists symbol color,
        pixel two_by_two 2 row col = Ok symbol /\
        dict_get [("a", "#ff0000"); ("b", "#0000ff")] symbol = Some color /\
        nth col (nth row (tile_colors image) []) "" = color.
Proof.
  apply (image_shows_the_table_colors 2 2 2 [("a", "#ff0000"); ("b", "#0000ff")]
           two_by_two {| last_id := 0 |}).
  - exact two_by_two_invariants.
  - lia.
  - repeat constructor.
Defined.

(** *** The tiles of the two builders *)

Lemma color_word_rgb (red green blue : string) :
  plain red = true -> plain green = true -> plain blue = true ->
  color_word ("#" ++ red ++ green ++ blue) = true.
Proof.
  intros Hr Hg Hb. cbn [append color_word plain].
  change (is_space "#") with false. cbn [negb andb Ascii.eqb Bool.eqb orb].
  now rewrite !plain_app, Hr, Hg, Hb.
Qed.

Lemma single_color_tile (red green blue : string) (s : tk_state) :
  plain red = true -> plain green = true -> plain blue = true ->
  exists image,
    create_photo_image (SingleColorXpm red green blue) s
    = Ok (image, {| last_id := S (last_id s) |}) /\
    tile_colors image = uniform_tile ("#" ++ red ++ green ++ blue).
Proof.
  intros Hr Hg Hb.
  destruct (color_map_single red green blue) as (color & Hcm & Hcolor).
  specialize (Hcolor (plain_no_space _ Hr) (plain_no_space _ Hg) (plain_no_space _ Hb)).
  subst color.
  destruct (single_invariants red green blue) as (color & Hwf).
  assert (Hsame : color = "#" ++ red ++ green ++ blue).
  { destruct Hwf as (_ & Hcm' & _). rewrite Hcm in Hcm'. now injection Hcm' as <-. }
  subst color.
  destruct (create_photo_image_colors _ _ _ _ _ s Hwf) as (image & Hrun & Hcolors).
  { repeat constructor. now apply color_word_rgb. }
  exists image. split; [exact Hrun|]. rewrite Hcolors. unfold uniform_tile.
  set (color := "#" ++ red ++ green ++ blue).
  transitivity (map (fun _ : nat => repeat color 32) (seq 0 32));
    [|now rewrite map_const, length_seq].
  apply map_ext_in. intros row Hrow. apply in_seq in Hrow.
  transitivity (map (fun _ : nat => color) (seq 0 32));
    [|now rewrite map_const, length_seq].
  apply map_ext_in. intros col Hcol. apply in_seq in Hcol.
  unfold pixel_color, pixel, item. rewrite <- pixel_rows_nth, pixel_rows_single.
  rewrite nth_error_repeat by (cbn; lia). cbn [rbind].
  rewrite blank_row_pixel by lia. reflexivity.
Qed.

Lemma alternate_checker_tile (red1 green1 blue1 red2 green2 blue2 : string)
    (s : tk_state) :
  plain red1 = true -> plain green1 = true -> plain blue1 = true ->
  plain red2 = true -> plain green2 = true -> plain blue2 = true ->
  exists image,
    create_photo_image (AlternateXpm red1 green1 blue1 red2 green2 blue2) s
    = Ok (image, {| last_id := S (last_id s) |}) /\
    tile_colors image
    = checker_tile ("#" ++ red1 ++ green1 ++ blue1) ("#" ++ red2 ++ green2 ++ blue2).
Proof.
  intros Hr1 Hg1 Hb1 Hr2 Hg2 Hb2.
  destruct (color_map_alternate red1 green1 blue1 red2 green2 blue2)
    as (color1 & color2 & Hcm & Hcolor1 & Hcolor2).
  specialize (Hcolor1 (plain_no_space _ Hr1) (plain_no_space _ Hg1) (plain_no_space _ Hb1)).
  specialize (Hcolor2 (plain_no_space _ Hr2) (plain_no_space _ Hg2) (plain_no_space _ Hb2)).
  subst color1 color2.
  destruct (alternate_invariants red1 green1 blue1 red2 green2 blue2)
    as (color1 & color2 & Hwf).
  assert (Hsame : color1 = "#" ++ red1 ++ green1 ++ blue1 /\
                  color2 = "#" ++ red2 ++ green2 ++ blue2).
  { destruct Hwf as (_ & Hcm' & _). rewrite Hcm in Hcm'. injection Hcm' as <- <-.
    now split. }
  destruct Hsame as [-> ->].
  destruct (create_photo_image_colors _ _ _ _ _ s Hwf) as (image & Hrun & Hcolors).
  { repeat constructor; now apply color_word_rgb. }
  exists image. split; [exact Hrun|]. rewrite Hcolors. unfold checker_tile.
  apply map_ext_in. intros row Hrow. apply in_seq in Hrow.
  apply map_ext_in. intros col Hcol. apply in_seq in Hcol.
  unfold pixel_color, pixel, item. rewrite <- pixel_rows_nth, pixel_rows_alternate.
  rewrite alternate_row by lia. cbn [rbind]. rewrite Nat.even_add.
  destruct (Nat.even row).
  - rewrite dot_row_pixel by lia. now destruct (Nat.even col).
  - rewrite space_row_pixel by lia. now destruct (Nat.even col).
Qed.

(** X12.  The image of a single-tone pixel map: for components of two
    lowercase hexadecimal digits each, a 32 x 32 image with the next free
    name in which every pixel has the colour ["#" ++ red ++ green ++ blue]. *)
Theorem single_color_image_is_uniform (red green blue : string) (s : tk_state) :
  two_lower_hex red = true -> two_lower_hex green = true -> two_lower_hex blue = true ->
  exists image,
    create_photo_image (SingleColorXpm red green blue) s
    = Ok (image, {| last_id := S (last_id s) |}) /\
    image_name image = S (last_id s) /\
    image_width image = 32%nat /\ image_height image = 32%nat /\
    tile_colors image = uniform_tile ("#" ++ red ++ green ++ blue) /\
    forall row col, (row < 32)%nat -> (col < 32)%nat ->
      nth col (nth row (tile_colors image) []) "" = "#" ++ red ++ green ++ blue.
Proof.
  intros Hr Hg Hb.
  destruct (single_color_tile red green blue s (two_lower_hex_plain _ Hr)
              (two_lower_hex_plain _ Hg) (two_lower_hex_plain _ Hb))
    as (image & Hrun & Hcolors).
  destruct (single_invariants red green blue) as (color & Hwf).
  destruct (create_photo_image_total _ _ _ _ _ Hwf s) as (image' & Hrun' & Hn & Hw & Hh & _).
  rewrite Hrun in Hrun'. injection Hrun' as <-.
  exists image. repeat split; try assumption.
  intros row col Hrow Hcol. rewrite Hcolors. unfold uniform_tile.
  rewrite (nth_indep _ [] (repeat ("#" ++ red ++ green ++ blue) 32))
    by now rewrite repeat_length.
  rewrite nth_repeat.
  rewrite (nth_indep _ "" ("#" ++ red ++ green ++ blue)) by now rewrite repeat_length.
  apply nth_repeat.
Qed.

Lemma single_color_image_is_uniform_witness :
  exists image,
    create_photo_image (SingleColorXpm "3f" "00" "00") {| last_id := 0 |}
    = Ok (image, {| last_id := 1 |}) /\
    image_name image = 1%nat /\
    image_width image = 32%nat /\ image_height image = 32%nat /\
    tile_colors image = uniform_tile ("#" ++ "3f" ++ "00" ++ "00") /\
    forall row col, (row < 32)%nat -> (col < 32)%nat ->
      nth col (nth row (tile_colors image) []) "" = "#" ++ "3f" ++ "00" ++ "00".
Proof.
  apply (single_color_image_is_uniform "3f" "00" "00" {| last_id := 0 |}); reflexivity.
Defined.

(** X13.  The image of a two-tone pixel map: for components of two lowercase
    hexadecimal digits each, a 32 x 32 image with the next free name in which
    the pixel at
    [(row, col)] has the second colour when [row + col] is even and the first
    colour otherwise. *)
Theorem alternate_image_is_checkerboard (red1 green1 blue1 red2 green2 blue2 : string)
    (s : tk_state) :
  two_lower_hex red1 = true -> two_lower_hex green1 = true ->
  two_lower_hex blue1 = true ->
  two_lower_hex red2 = true -> two_lower_hex green2 = true ->
  two_lower_hex blue2 = true ->
  exists image,
    create_photo_image (AlternateXpm red1 green1 blue1 red2 green2 blue2) s
    = Ok (image, {| last_id := S (last_id s) |}) /\
    image_name image = S (last_id s) /\
    image_width image = 32%nat /\ image_height image = 32%nat /\
    forall row col, (row < 32)%nat -> (col < 32)%nat ->
      nth col (nth row (tile_colors image) []) ""
      = if Nat.even (row + col) then "#" ++ red2 ++ green2 ++ blue2
        else "#" ++ red1 ++ green1 ++ blue1.
Proof.
  intros Hr1 Hg1 Hb1 Hr2 Hg2 Hb2.
  destruct (alternate_checker_tile red1 green1 blue1 red2 green2 blue2 s
              (two_lower_hex_plain _ Hr1) (two_lower_hex_plain _ Hg1)
              (two_lower_hex_plain _ Hb1) (two_lower_hex_plain _ Hr2)
              (two_lower_hex_plain _ Hg2) (two_lower_hex_plain _ Hb2))
    as (image & Hrun & Hcolors).
  destruct (alternate_invariants red1 green1 blue1 red2 green2 blue2)
    as (color1 & color2 & Hwf).
  destruct (create_photo_image_total _ _ _ _ _ Hwf s) as (image' & Hrun' & Hn & Hw & Hh & _).
  rewrite Hrun in Hrun'. injection Hrun' as <-.
  exists image. repeat split; try assumption.
  intros row col Hrow Hcol. rewrite Hcolors. unfold checker_tile.
  set (color1' := "#" ++ red1 ++ green1 ++ blue1).
  set (color2' := "#" ++ red2 ++ green2 ++ blue2).
  rewrite (nth_indep _ [] (map (fun col => if Nat.even (0 + col) then color2' else color1')
                             (seq 0 32)))
    by now rewrite length_map, length_seq.
  rewrite (map_nth (fun row => map (fun col => if Nat.even (row + col) then color2'
                                               else color1') (seq 0 32))
             (seq 0 32) 0%nat row).
  rewrite seq_nth by assumption. cbn [Nat.add].
  rewrite (nth_indep _ "" (if Nat.even (row + 0) then color2' else color1'))
    by now rewrite length_map, length_seq.
  rewrite (map_nth (fun col => if Nat.even (row + col) then color2' else color1')
             (seq 0 32) 0%nat col).
  rewrite seq_nth by assumption. reflexivity.
Qed.

Lemma alternate_image_is_checkerboard_witness :
  exists image,
    create_photo_image (AlternateXpm "00" "00" "00" "7f" "7f" "7f") {| last_id := 0 |}
    = Ok (image, {| last_id := 1 |}) /\
    image_name image = 1%nat /\
    image_width image = 32%nat /\ image_height image = 32%nat /\
    forall row col, (row < 32)%nat -> (col < 32)%nat ->
      nth col (nth row (tile_colors image) []) ""
      = if Nat.even (row + col) then "#" ++ "7f" ++ "7f" ++ "7f"
        else "#" ++ "00" ++ "00" ++ "00".
Proof.
  apply (alternate_image_is_checkerboard "00" "00" "00" "7f" "7f" "7f" {| last_id := 0 |});
    reflexivity.
Defined.

(** *** The tiles of a chart *)

Lemma create_images_tiles (entries : list (string * list string))
    (tiles : list (string * list (list string))) :
  Forall2 shows entries tiles ->
  NoDup (map fst entries) ->
  forall images s,
    (forall k, In k (map fst entries) -> dict_mem images k = false) ->
    exists new,
      create_images entries images s
      = Ok ((images ++ new)%list, {| last_id := (last_id s + List.length entries)%nat |}) /\
      tiles_view new = tiles.
Proof.
  induction 1 as [|[key xpm_data] [key' tile] entries tiles [Hkey Hshow] _ IH];
    intros Hnodup images s Hfresh; cbn [create_images].
  - exists []. rewrite app_nil_r, Nat.add_0_r. destruct s as [n]. now split.
  - cbn [fst snd] in Hkey, Hshow. subst key'.
    destruct (Hshow s) as (image & Himg & Htile).
    unfold bind. rewrite Himg.
    cbn [map fst] in Hnodup. apply NoDup_cons_iff in Hnodup as [Hnotin Hnodup].
    rewrite dict_set_absent by (apply Hfresh; now left).
    destruct (IH Hnodup (images ++ [(key, image)])%list {| last_id := S (last_id s) |})
      as (new & Hrun & Htiles).
    { intros k Hk. rewrite dict_mem_app_one, Hfresh by (now right).
      cbn [orb]. apply String.eqb_neq. intros ->. contradiction. }
    exists ((key, image) :: new). split.
    + rewrite Hrun, <- app_assoc. cbn [last_id List.length app]. do 3 f_equal. lia.
    + unfold tiles_view in *. cbn [map fst snd]. now rewrite Htile, Htiles.
Qed.

(** *** The levels are words *)

Lemma hex_digits_plain (d : Hexadecimal.uint) :
  plain (HexadecimalString.NilEmpty.string_of_uint d) = true.
Proof. induction d; cbn [HexadecimalString.NilEmpty.string_of_uint plain]; auto. Qed.

(** Whatever the number, its format has no blank and no brace. *)
Lemma format_02x_plain (n : Z) : plain (format_02x n) = true.
Proof.
  assert (Hdigits : plain (HexadecimalString.NilZero.string_of_int
                             (Z.to_hex_int (Z.abs n))) = true).
  { destruct n as [|p|p]; cbn [Z.abs Z.to_hex_int HexadecimalString.NilZero.string_of_int];
      try reflexivity;
      unfold HexadecimalString.NilZero.string_of_uint;
      (destruct (Pos.to_hex_uint p) eqn:Hd; [reflexivity | rewrite <- Hd ..]);
      apply hex_digits_plain. }
  unfold format_02x.
  destruct (n <? 0); [|destruct (_ <? 2)%nat]; rewrite ?plain_app, ?Hdigits; reflexivity.
Qed.

Lemma chart_levels_plain (libm_pow : float -> float -> float) (gamma : float)
    (l : levels) :
  chart_levels libm_pow gamma = Ok l ->
  plain (v000 l) = true /\ plain (v025 l) = true /\ plain (v050 l) = true /\
  plain (v075 l) = true /\ plain (v100 l) = true.
Proof.
  unfold chart_levels, level.
  destruct (corrected libm_pow 0 gamma) as [a|e]; cbn [rbind]; [|discriminate].
  destruct (corrected libm_pow 63 gamma) as [b|e]; cbn [rbind]; [|discriminate].
  destruct (corrected libm_pow 127 gamma) as [c|e]; cbn [rbind]; [|discriminate].
  destruct (corrected libm_pow 191 gamma) as [d|e]; cbn [rbind]; [|discriminate].
  destruct (corrected libm_pow 255 gamma) as [e|e']; cbn [rbind]; [|discriminate].
  intros [= <-]. cbn [v000 v025 v050 v075 v100].
  repeat split; apply format_02x_plain.
Qed.

Lemma image_data_shows (l : levels) :
  plain (v000 l) = true -> plain (v025 l) = true -> plain (v050 l) = true ->
  plain (v075 l) = true -> plain (v100 l) = true ->
  Forall2 shows (image_data l) (level_tiles l).
Proof.
  intros H0 H1 H2 H3 H4. unfold image_data, level_tiles.
  repeat (apply Forall2_cons;
          [split; [reflexivity|]; intros s; cbn [snd];
           first [now apply single_color_tile | now apply alternate_checker_tile]|]).
  apply Forall2_nil.
Qed.

Lemma chart_images_tiles (libm_pow : float -> float -> float) (gamma : float)
    (l : levels) (s : tk_state) :
  chart_levels libm_pow gamma = Ok l ->
  exists images,
    chart_images libm_pow gamma s = Ok (images, {| last_id := (last_id s + 24)%nat |}) /\
    tiles_view images = level_tiles l.
Proof.
  intros Hl.
  destruct (chart_levels_plain libm_pow gamma l Hl) as (H0 & H1 & H2 & H3 & H4).
  destruct (create_images_tiles (image_data l) (level_tiles l)
              (image_data_shows l H0 H1 H2 H3 H4) (image_data_keys_distinct l)
              [] s (fun _ _ => eq_refl)) as (new & Hrun & Htiles).
  exists new. split; [|exact Htiles].
  unfold chart_images, bind, lift. rewrite Hl. exact Hrun.
Qed.

(** X14.  The tiles of a chart, for every gamma and whatever [pow] returns:
    once the five levels are computed, the 24 images are created and they
    are the tiles of [level_tiles]: each single-tone tile uniform in its
    level, each two-tone tile a checkerboard of its two levels, the channels
    of the section alone carrying the level. *)
Theorem chart_tiles_follow_the_levels (libm_pow : float -> float -> float)
    (gamma : float) (l : levels) (s : tk_state) :
  chart_levels libm_pow gamma = Ok l ->
  outcome tiles_view (chart_images libm_pow gamma s) = Ok (level_tiles l) /\
  outcome (map fst) (chart_images libm_pow gamma s) = Ok (map fst (image_data l)).
Proof.
  intros Hl.
  destruct (chart_images_tiles libm_pow gamma l s Hl) as (images & Hrun & Htiles).
  rewrite Hrun. unfold outcome. rewrite Htiles. split; [reflexivity|].
  f_equal. transitivity (map fst (tiles_view images)).
  - unfold tiles_view. now rewrite map_map.
  - now rewrite Htiles.
Qed.

Lemma chart_tiles_follow_the_levels_witness :
  let l := {| v000 := "00"; v025 := "3f"; v050 := "7f"; v075 := "bf"; v100 := "ff" |} in
  outcome tiles_view (chart_images pow_at_exponent_one 1 {| last_id := 0 |})
  = Ok (level_tiles l) /\
  outcome (map fst) (chart_images pow_at_exponent_one 1 {| last_id := 0 |})
  = Ok (map fst (image_data l)).
Proof.
  apply (chart_tiles_follow_the_levels pow_at_exponent_one 1
           {| v000 := "00"; v025 := "3f"; v050 := "7f"; v075 := "bf"; v100 := "ff" |}
           {| last_id := 0 |}).
  vm_compute. reflexivity.
Defined.

(** *** The colours of a chart *)

Lemma rgb_is_rrggbb (red green blue : string) :
  two_lower_hex red = true -> two_lower_hex green = true -> two_lower_hex blue = true ->
  is_rrggbb ("#" ++ red ++ green ++ blue) = true.
Proof.
  destruct red as [|r1 [|r2 [|]]]; try discriminate.
  destruct green as [|g1 [|g2 [|]]]; try discriminate.
  destruct blue as [|b1 [|b2 [|]]]; try discriminate.
  cbn [two_lower_hex]. intros Hr Hg Hb.
  apply andb_prop in Hr as [Hr1 Hr2]. apply andb_prop in Hg as [Hg1 Hg2].
  apply andb_prop in Hb as [Hb1 Hb2].
  cbn [append is_rrggbb String.length Nat.eqb list_ascii_of_string forallb andb].
  now rewrite Hr1, Hr2, Hg1, Hg2, Hb1, Hb2.
Qed.

Lemma uniform_tile_all (P : string -> Prop) (color : string) :
  P color -> Forall (Forall P) (uniform_tile color).
Proof.
  intros H. unfold uniform_tile.
  apply Forall_forall. intros row Hrow. apply repeat_spec in Hrow. subst row.
  apply Forall_forall. intros c Hc. apply repeat_spec in Hc. now subst c.
Qed.

Lemma checker_tile_all (P : string -> Prop) (color1 color2 : string) :
  P color1 -> P color2 -> Forall (Forall P) (checker_tile color1 color2).
Proof.
  intros H1 H2. unfold checker_tile.
  apply Forall_map, Forall_forall. intros row _.
  apply Forall_map, Forall_forall. intros col _.
  now destruct (Nat.even (row + col)).
Qed.

Lemma chart_levels_hex (libm_pow : float -> float -> float) (gamma : float) :
  pow_unit_interval libm_pow -> (0 <? gamma)%float = true ->
  exists l,
    chart_levels libm_pow gamma = Ok l /\
    two_lower_hex (v000 l) = true /\ two_lower_hex (v025 l) = true /\
    two_lower_hex (v050 l) = true /\ two_lower_hex (v075 l) = true /\
    two_lower_hex (v100 l) = true.
Proof.
  intros Hpow Hg. unfold chart_levels, level.
  destruct (corrected_in_byte libm_pow Hpow 0 gamma) as (_ & c0 & _ & _ & -> & Hr0);
    [cbn; tauto | assumption |].
  destruct (corrected_in_byte libm_pow Hpow 63 gamma) as (_ & c1 & _ & _ & -> & Hr1);
    [cbn; tauto | assumption |].
  destruct (corrected_in_byte libm_pow Hpow 127 gamma) as (_ & c2 & _ & _ & -> & Hr2);
    [cbn; tauto | assumption |].
  destruct (corrected_in_byte libm_pow Hpow 191 gamma) as (_ & c3 & _ & _ & -> & Hr3);
    [cbn; tauto | assumption |].
  destruct (corrected_in_byte libm_pow Hpow 255 gamma) as (_ & c4 & _ & _ & -> & Hr4);
    [cbn; tauto | assumption |].
  eexists. split; [reflexivity|]. cbn [v000 v025 v050 v075 v100].
  repeat split; now apply format_02x_byte.
Qed.

(** X15.  Every colour of every chart is one Tk can read: for a positive
    gamma (and a [pow] that keeps the unit interval) the 24 images are
    created and each of their 32 x 32 pixels has a colour of the form
    [#rrggbb] in lowercase hexadecimal digits. *)
Theorem every_pixel_is_rrggbb (libm_pow : float -> float -> float) (gamma : float)
    (s : tk_state) :
  pow_unit_interval libm_pow -> (0 <? gamma)%float = true ->
  exists tiles,
    outcome tiles_view (chart_images libm_pow gamma s) = Ok tiles /\
    List.length tiles = 24%nat /\
    Forall (fun tile =>
              List.length (snd tile) = 32%nat /\
              Forall (fun colors => List.length colors = 32%nat) (snd tile) /\
              Forall (Forall (fun color => is_rrggbb color = true)) (snd tile))
           tiles.
Proof.
  intros Hpow Hg.
  destruct (chart_levels_hex libm_pow gamma Hpow Hg) as (l & Hl & H0 & H1 & H2 & H3 & H4).
  destruct (chart_images_tiles libm_pow gamma l s Hl) as (images & Hrun & Htiles).
  exists (level_tiles l). rewrite Hrun. unfold outcome. rewrite Htiles.
  split; [reflexivity|]. split; [reflexivity|].
  assert (Huniform : forall color,
            List.length (uniform_tile color) = 32%nat /\
            Forall (fun colors => List.length colors = 32%nat) (uniform_tile color)).
  { intros color. split; [apply repeat_length|].
    apply Forall_forall. intros row Hrow. apply repeat_spec in Hrow. subst row.
    apply repeat_length. }
  assert (Hchecker : forall color1 color2,
            List.length (checker_tile color1 color2) = 32%nat /\
            Forall (fun colors => List.length colors = 32%nat)
                   (checker_tile color1 color2)).
  { intros color1 color2. unfold checker_tile. split.
    - now rewrite length_map, length_seq.
    - apply Forall_map, Forall_forall. intros row _. now rewrite length_map, length_seq. }
  unfold level_tiles.
  repeat (apply Forall_cons;
          [cbn [snd];
           first [ split; [apply Huniform|]; split; [apply Huniform|];
                   apply uniform_tile_all; now apply rgb_is_rrggbb
                 | split; [apply Hchecker|]; split; [apply Hchecker|];
                   apply checker_tile_all; now apply rgb_is_rrggbb ]|]).
  apply Forall_nil.
Qed.

Lemma every_pixel_is_rrggbb_witness :
  exists tiles,
    outcome tiles_view (chart_images pow_at_exponent_one 1 {| last_id := 0 |}) = Ok tiles /\
    List.length tiles = 24%nat /\
    Forall (fun tile =>
              List.length (snd tile) = 32%nat /\
              Forall (fun colors => List.length colors = 32%nat) (snd tile) /\
              Forall (Forall (fun color => is_rrggbb color = true)) (snd tile))
           tiles.
Proof.
  apply (every_pixel_is_rrggbb pow_at_exponent_one 1 {| last_id := 0 |}).
  - exact pow_at_exponent_one_unit.
  - reflexivity.
Defined.

(** ** A gamma that is not positive *)

(** A shift to the right that leaves something of a positive mantissa. *)
Lemma shr_positive (mrs : shr_record) (e n : Z) :
  0 < shr_m mrs -> (0 < n -> 2 ^ n <= shr_m mrs) ->
  0 < shr_m (fst (shr mrs e n)) /\ e <= snd (shr mrs e n).
Proof.
  intros Hm Hn. destruct n as [|p|p]; cbn [shr fst snd]; try (split; [assumption | lia]).
  rewrite iter_shr_1_m by lia. split; [|lia].
  apply Z.div_str_pos. split; [apply Z.pow_pos_nonneg; lia | apply Hn; lia].
Qed.

Lemma shr_fexp_positive (m e : Z) (l : location) :
  0 < m -> -1074 <= e ->
  0 < shr_m (fst (shr_fexp prec emax m e l)) /\
  -1074 <= snd (shr_fexp prec emax m e l).
Proof.
  intros Hm He. unfold shr_fexp.
  destruct (shr_positive (shr_record_of_loc m l) e
              (fexp prec emax (Zdigits2 m + e) - e)) as [H1 H2].
  - now rewrite shr_record_of_loc_m.
  - rewrite shr_record_of_loc_m, fexp_64. intros Hn.
    destruct m as [|p|p]; try lia. cbn [Zdigits2] in *.
    pose proof (digits2_pos_bounds p) as [Hlo _].
    eapply Z.le_trans; [|exact Hlo]. apply Z.pow_le_mono_r; lia.
  - split; [exact H1 | lia].
Qed.

(** Rounding a positive mantissa at an exponent that is not below the least
    one never gives a zero. *)
Lemma binary_round_aux_nonzero (sx : bool) (m e : Z) (l : location) :
  0 < m -> -1074 <= e ->
  (exists m' e', binary_round_aux prec emax sx m e l = S754_finite sx m' e') \/
  binary_round_aux prec emax sx m e l = S754_infinity sx.
Proof.
  intros Hm He. unfold binary_round_aux.
  destruct (shr_fexp_positive m e l Hm He) as [H1 He1].
  destruct (shr_fexp prec emax m e l) as [mrs1 e1]. cbn [fst snd] in H1, He1.
  pose proof (round_nearest_even_bounds (shr_m mrs1) (loc_of_shr_record mrs1)) as Hr.
  set (m2 := round_nearest_even (shr_m mrs1) (loc_of_shr_record mrs1)) in *.
  destruct (shr_fexp_positive m2 e1 loc_Exact ltac:(lia) He1) as [H2 _].
  destruct (shr_fexp prec emax m2 e1 loc_Exact) as [mrs3 e3]. cbn [fst] in H2.
  destruct (shr_m mrs3) as [|p|p]; try lia.
  destruct (e3 <=? emax - prec); [left; now exists p, e3 | now right].
Qed.

(** The quotient of [1.0] by a finite float, before rounding. *)
Lemma reciprocal_core_positive (m : positive) (e : Z) :
  bounded prec emax m e = true ->
  0 < fst (fst (SFdiv_core_binary prec emax 4503599627370496 (-52) (Z.pos m) e)) /\
  -1074 <= snd (fst (SFdiv_core_binary prec emax 4503599627370496 (-52) (Z.pos m) e)).
Proof.
  intros Hb.
  destruct (bounded_digits m e Hb) as (Hd & He & _).
  assert (He' : e <= 971).
  { unfold bounded in Hb. apply andb_prop in Hb as [_ Hb]. apply Z.leb_le in Hb.
    exact Hb. }
  pose proof (digits2_pos_bounds m) as [_ Hhi].
  assert (Hm : Z.pos m < 9007199254740992).
  { eapply Z.lt_le_trans; [exact Hhi|]. change 9007199254740992 with (2 ^ 53).
    apply Z.pow_le_mono_r; lia. }
  unfold SFdiv_core_binary.
  change (Zdigits2 4503599627370496) with 53.
  change (Zdigits2 (Z.pos m)) with (Z.pos (digits2_pos m)).
  rewrite fexp_64.
  set (d2 := Z.pos (digits2_pos m)) in *.
  set (e' := Z.min (Z.max (53 + -52 - (d2 + e) - 53) (-1074)) (-52 - e)).
  assert (He1 : -1074 <= e') by (unfold e'; lia).
  assert (Hs : 0 < -52 - e - e') by (unfold e'; lia).
  destruct (-52 - e - e') as [|sp|sp] eqn:Hsp; try lia.
  rewrite Z.shiftl_mul_pow2 by lia.
  assert (Hpow : 2 <= 2 ^ Z.pos sp).
  { change 2 with (2 ^ 1) at 1. apply Z.pow_le_mono_r; lia. }
  set (a := 4503599627370496 * 2 ^ Z.pos sp) in *.
  pose proof (Z.div_eucl_eq a (Z.pos m) ltac:(lia)) as Heq.
  pose proof (Z.mod_pos_bound a (Z.pos m) ltac:(lia)) as Hmod.
  unfold Z.modulo in Hmod.
  destruct (Z.div_eucl a (Z.pos m)) as [q r]. cbn [fst snd].
  split; [|exact He1].
  assert (Ha : Z.pos m < a) by (unfold a; lia).
  destruct (Z_lt_le_dec 0 q) as [|Hq]; [assumption|]. exfalso.
  assert (Z.pos m * q <= 0) by nia. lia.
Qed.

(** [1.0 / gamma] for a finite negative [gamma]: no exception, and the
    quotient is negative, never a zero. *)
Lemma reciprocal_negative (gamma : float) (m : positive) (e : Z) :
  Prim2SF gamma = S754_finite true m e ->
  py_truediv 1 gamma = Ok (1 / gamma)%float /\
  ((exists m' e', Prim2SF (1 / gamma) = S754_finite true m' e') \/
   Prim2SF (1 / gamma) = S754_infinity true).
Proof.
  intros Hg. pose proof (Prim2SF_valid gamma) as Hv. rewrite Hg in Hv.
  unfold py_truediv. rewrite eqb_spec, div_spec, Prim2SF_0, Prim2SF_1, Hg.
  split; [reflexivity|].
  unfold SF64div, SFdiv. cbn [xorb].
  destruct (reciprocal_core_positive m e Hv) as [Hq He].
  destruct (SFdiv_core_binary prec emax 4503599627370496 (-52) (Z.pos m) e)
    as [[mz ez] lz]. cbn [fst snd] in Hq, He.
  now apply binary_round_aux_nonzero.
Qed.

Lemma tests_negative (f : float) (m : positive) (e : Z) :
  Prim2SF f = S754_finite true m e ->
  (f =? 0)%float = false /\ is_nan f = false /\ is_infinity f = false /\
  (f <? 0)%float = true /\ (0 <? f)%float = false.
Proof.
  intros H. unfold is_nan, is_infinity.
  rewrite !eqb_spec, !ltb_spec, !abs_spec, H, Prim2SF_0, Prim2SF_infinity.
  unfold SFeqb, SFltb. cbn [SFabs]. rewrite SFcompare_refl_finite.
  repeat split; reflexivity.
Qed.

Lemma tests_minus_infinity (f : float) :
  Prim2SF f = S754_infinity true ->
  (f =? 0)%float = false /\ is_nan f = false /\ is_infinity f = true /\
  (0 <? f)%float = false /\ Prim2SF (abs f * 255) = S754_infinity false.
Proof.
  intros H. unfold is_nan, is_infinity.
  rewrite mul_spec, !eqb_spec, !ltb_spec, !abs_spec, H, Prim2SF_0, Prim2SF_infinity,
    Prim2SF_255.
  repeat split; reflexivity.
Qed.

Lemma tests_nan (f : float) :
  Prim2SF f = S754_nan ->
  (f =? 0)%float = false /\ is_nan f = true /\ is_infinity f = false /\
  (0 <? f)%float = false /\ Prim2SF (1 / f) = S754_nan /\
  Prim2SF (f * 255) = S754_nan.
Proof.
  intros H. unfold is_nan, is_infinity.
  rewrite mul_spec, div_spec, !eqb_spec, !ltb_spec, !abs_spec, H, Prim2SF_0,
    Prim2SF_1, Prim2SF_infinity.
  repeat split; reflexivity.
Qed.

(** The first level, [v000], of a gamma that is not positive. *)
Lemma black_level_raises (libm_pow : float -> float -> float) (gamma : float) :
  (0 <? gamma)%float = false -> is_infinity gamma = false ->
  level libm_pow 0 gamma = Err (gamma_error gamma).
Proof.
  intros Hpos Hinf. unfold level, corrected, gamma_error.
  replace (py_truediv (float_of_int 0) 255) with (@Ok float 0%float)
    by (vm_compute; reflexivity).
  cbn [rbind].
  destruct (Prim2SF gamma) as [sg|sg| |sg mg eg] eqn:Hg.
  - destruct (tests_zero gamma sg Hg) as (Hz & Hn & _).
    unfold py_truediv. rewrite Hn, Hz. reflexivity.
  - destruct sg.
    + destruct (tests_minus_infinity gamma Hg) as (_ & _ & Hi & _). congruence.
    + destruct (tests_infinity gamma Hg) as (_ & _ & _ & Hp). congruence.
  - destruct (tests_nan gamma Hg) as (Hz & Hn & _ & _ & Hw & _).
    unfold py_truediv. rewrite Hn, Hz. cbn [rbind].
    destruct (tests_nan (1 / gamma) Hw) as (Hwz & Hwn & _ & _ & _ & Hmul).
    unfold py_pow. rewrite Hwz, Hwn.
    change (is_nan 0) with false. change (0 =? 1)%float with false. cbn iota.
    cbn [rbind]. unfold py_round. now rewrite Hmul.
  - destruct sg.
    + destruct (tests_negative gamma mg eg Hg) as (Hz & Hn & _).
      rewrite Hn, Hz.
      destruct (reciprocal_negative gamma mg eg Hg) as [Hdiv [(mw & ew & Hw)|Hw]];
        rewrite Hdiv; cbn [rbind]; unfold py_pow.
      * destruct (tests_negative (1 / gamma) mw ew Hw) as (Hwz & Hwn & Hwi & Hwneg & _).
        rewrite Hwz, Hwn, Hwi, Hwneg.
        change (is_nan 0) with false. change (is_infinity 0) with false.
        change (0 =? 0)%float with true. reflexivity.
      * destruct (tests_minus_infinity (1 / gamma) Hw) as (Hwz & Hwn & Hwi & Hwpos & Hmul).
        rewrite Hwz, Hwn, Hwi, Hwpos.
        change (is_nan 0) with false. change (abs 0 =? 1)%float with false.
        change (1 <? abs 0)%float with false. cbn [Bool.eqb rbind].
        unfold py_round. now rewrite Hmul.
    + destruct (tests_finite gamma mg eg Hg) as (_ & _ & _ & _ & Hp & _). congruence.
Qed.

(** X16.  No chart for a gamma that is not positive: for a gamma that is a
    NaN, a zero or negative and finite, the levels are not computed and chart
    construction ends in an exception, whatever [pow] computes:
    [ValueError] for a NaN, [ZeroDivisionError] for a zero, and for a
    negative gamma [ZeroDivisionError], or [OverflowError] when
    [1.0 / gamma] overflows. *)
Theorem no_chart_unless_gamma_is_positive (libm_pow : float -> float -> float)
    (gamma : float) (s : tk_state) :
  (0 <? gamma)%float = false -> is_infinity gamma = false ->
  chart_levels libm_pow gamma = Err (gamma_error gamma) /\
  GammaChart libm_pow gamma s = Err (gamma_error gamma).
Proof.
  intros Hpos Hinf.
  assert (Hlevels : chart_levels libm_pow gamma = Err (gamma_error gamma)).
  { unfold chart_levels. now rewrite (black_level_raises libm_pow gamma Hpos Hinf). }
  split; [exact Hlevels|].
  unfold GammaChart, chart_images, bind, lift. now rewrite Hlevels.
Qed.

Lemma no_chart_unless_gamma_is_positive_witness :
  chart_levels pow_at_exponent_one (-2.2) = Err (gamma_error (-2.2)) /\
  GammaChart pow_at_exponent_one (-2.2) {| last_id := 0 |} = Err (gamma_error (-2.2)).
Proof.
  apply (no_chart_unless_gamma_is_positive pow_at_exponent_one (-2.2) {| last_id := 0 |});
    reflexivity.
Defined.

(** ** The position of the window *)

(** X17.  The window is centred: when it fits the screen it lies inside the
    screen, and the margins left and right of it, and above and below it,
    differ by one pixel at most. *)
Theorem window_is_centred (width height screenwidth screenheight : Z) :
  0 <= width <= screenwidth -> 0 <= height <= screenheight ->
  let x := fst (window_position width height screenwidth screenheight) in
  let y := snd (window_position width height screenwidth screenheight) in
  0 <= x /\ x + width <= screenwidth /\
  0 <= y /\ y + height <= screenheight /\
  Z.abs ((screenwidth - (x + width)) - x) <= 1 /\
  Z.abs ((screenheight - (y + height)) - y) <= 1.
Proof.
  intros Hw Hh. unfold window_position. cbn [fst snd].
  pose proof (Z.div_mod width 2 ltac:(lia)) as Ew.
  pose proof (Z.mod_pos_bound width 2 ltac:(lia)) as Bw.
  pose proof (Z.div_mod height 2 ltac:(lia)) as Eh.
  pose proof (Z.mod_pos_bound height 2 ltac:(lia)) as Bh.
  pose proof (Z.div_mod screenwidth 2 ltac:(lia)) as Esw.
  pose proof (Z.mod_pos_bound screenwidth 2 ltac:(lia)) as Bsw.
  pose proof (Z.div_mod screenheight 2 ltac:(lia)) as Esh.
  pose proof (Z.mod_pos_bound screenheight 2 ltac:(lia)) as Bsh.
  repeat split; lia.
Qed.

Lemma window_is_centred_witness :
  let x := fst (window_position 395 441 1920 1080) in
  let y := snd (window_position 395 441 1920 1080) in
  0 <= x /\ x + 395 <= 1920 /\
  0 <= y /\ y + 441 <= 1080 /\
  Z.abs ((1920 - (x + 395)) - x) <= 1 /\
  Z.abs ((1080 - (y + 441)) - y) <= 1.
Proof.
  apply (window_is_centred 395 441 1920 1080); lia.
Defined.
